(** * The pydpiper pipeline executor

    A shallow embedding of [pydpiper/pipeline_executor.py]: the executor's
    resource ledger, its main loop, the stage runner, the two shutdown
    paths and the heartbeat, followed by the properties of the executor
    design document that the code decides.

    Conventions of the embedding.
    - Python [int] is [Z].  Python [float] values (memory in gigabytes,
      wall-clock seconds) are rationals [Q]: comparisons between numbers
      are exact in Python, also between an [int] and a [float], and so are
      they here; [==] on numbers is [Qeq].  Arithmetic is exact, where a
      binary float rounds; no statement below depends on a sum or a
      difference of memory amounts being exact.
    - [None]-able attributes are [option]s.
    - An object is identified by the address stored with it ([obj_id]);
      [==] on [ChildProcess] instances is identity, the class defines no
      [__eq__].
    - Calls that leave the process (requests to the server, signals, the
      worker pool) are recorded as [event]s in a trace; what the outside
      world answers is an argument of the function that asks. *)

From Stdlib Require Import String ZArith QArith Qround List Bool Lia.
From Equations Require Import Equations.
Import ListNotations.

Open Scope Z_scope.

(** ** Python prelude: exceptions and results *)

Inductive exn : Type :=
| TypeError
| ValueError
| OSError
| CommunicationError
| KeyboardInterrupt
| SystemExit (code : option Z)
| Exception (msg : string).

(** [isinstance(e, Exception)]: [KeyboardInterrupt] and [SystemExit] derive
    from [BaseException] only. *)
Definition is_Exception (e : exn) : bool :=
  match e with
  | KeyboardInterrupt | SystemExit _ => false
  | _ => true
  end.

Inductive Result (A : Type) : Type :=
| Ok (a : A)
| Raise (e : exn).
Arguments Ok {A} a.
Arguments Raise {A} e.

(** Truth value of a number-or-[None], as [and]/[if] test it. *)
Definition truthy (x : option Q) : bool :=
  match x with
  | None => false
  | Some t => negb (Qeq_bool t 0)
  end.

Definition Qlt_bool (x y : Q) : bool := negb (Qle_bool y x).

(** ** Data model *)

(** Requests to the pipeline server.  Every request of the executor passes
    its own [clientURI]; the model has one executor and leaves it out. *)
Inductive rpc : Type :=
| registerClient (mem : Q)
| unregisterClient
| updateClientTimestamp
| getCommand (clientMemFree : Q) (clientProcsFree : Z)
| getStageCommand (i : Z)
| getStageLogfile (i : Z)
| getStageMem (i : Z)
| getStageProcs (i : Z)
| setStageStarted (i : Z)
| setStageFinished (i : Z)
| setStageFailed (i : Z).

Inductive event : Type :=
| Rpc (r : rpc)
| LogHeader (i : Z) (command : string)
| Popen (pid : Z)
| Communicate (pid : Z)
| Kill (pid : Z)
| PoolApplyAsync (i : Z)
| PoolClose
| PoolJoin
| EventSet
| Stdout (msg : string)
| DaemonShutdown.

(** What a pool worker does while it runs [runStage]: things that only the
    outside sees, and calls back into the executor through its Pyro proxy.
    The call of [notifyStageTerminated] carries what the server answers to
    the report that the executor sends on its behalf. *)
Inductive action : Type :=
| Emit (e : event)
| addPIDtoRunningList_call (pid : Z)
| removePIDfromRunningList_call (pid : Z)
| notifyStageTerminated_call (i : Z) (returncode : option Z)
                             (ans : Result unit).

Module ChildProcess.
Record t : Type := mk {
  obj_id : nat;
  stage : Z;
  result : nat;
  mem : Q;
  procs : Z
}.
End ChildProcess.

(** A task handed to [multiprocessing.Pool]: the stage and what its worker
    still has to do.  The [AsyncResult] of the task is its index in the
    pool; it is ready once nothing is pending. *)
Record Task : Type := mkTask {
  task_stage : Z;
  pending : list action
}.

Record pipelineExecutor : Type := mkExecutor {
  mem : Q;
  procs : Z;
  idle_time : Q;
  prev_time : option Q;
  current_time : option Q;
  time_to_seppuku : option Z;
  time_to_accept_jobs : option Z;
  connection_time_with_server : option Q;
  runningMem : Q;
  runningProcs : Z;
  runningChildren : list ChildProcess.t;
  current_running_job_pids : list Z;
  registered_with_server : bool
}.

Definition with_idle_time (v : Q) (s : pipelineExecutor) : pipelineExecutor :=
  mkExecutor (mem s) (procs s) v (prev_time s) (current_time s)
    (time_to_seppuku s) (time_to_accept_jobs s) (connection_time_with_server s)
    (runningMem s) (runningProcs s) (runningChildren s)
    (current_running_job_pids s) (registered_with_server s).

Definition with_prev_time (v : option Q) (s : pipelineExecutor) : pipelineExecutor :=
  mkExecutor (mem s) (procs s) (idle_time s) v (current_time s)
    (time_to_seppuku s) (time_to_accept_jobs s) (connection_time_with_server s)
    (runningMem s) (runningProcs s) (runningChildren s)
    (current_running_job_pids s) (registered_with_server s).

Definition with_current_time (v : option Q) (s : pipelineExecutor) : pipelineExecutor :=
  mkExecutor (mem s) (procs s) (idle_time s) (prev_time s) v
    (time_to_seppuku s) (time_to_accept_jobs s) (connection_time_with_server s)
    (runningMem s) (runningProcs s) (runningChildren s)
    (current_running_job_pids s) (registered_with_server s).

Definition with_connection_time_with_server (v : option Q) (s : pipelineExecutor)
  : pipelineExecutor :=
  mkExecutor (mem s) (procs s) (idle_time s) (prev_time s) (current_time s)
    (time_to_seppuku s) (time_to_accept_jobs s) v
    (runningMem s) (runningProcs s) (runningChildren s)
    (current_running_job_pids s) (registered_with_server s).

Definition with_runningMem (v : Q) (s : pipelineExecutor) : pipelineExecutor :=
  mkExecutor (mem s) (procs s) (idle_time s) (prev_time s) (current_time s)
    (time_to_seppuku s) (time_to_accept_jobs s) (connection_time_with_server s)
    v (runningProcs s) (runningChildren s)
    (current_running_job_pids s) (registered_with_server s).

Definition with_runningProcs (v : Z) (s : pipelineExecutor) : pipelineExecutor :=
  mkExecutor (mem s) (procs s) (idle_time s) (prev_time s) (current_time s)
    (time_to_seppuku s) (time_to_accept_jobs s) (connection_time_with_server s)
    (runningMem s) v (runningChildren s)
    (current_running_job_pids s) (registered_with_server s).

Definition with_runningChildren (v : list ChildProcess.t) (s : pipelineExecutor)
  : pipelineExecutor :=
  mkExecutor (mem s) (procs s) (idle_time s) (prev_time s) (current_time s)
    (time_to_seppuku s) (time_to_accept_jobs s) (connection_time_with_server s)
    (runningMem s) (runningProcs s) v
    (current_running_job_pids s) (registered_with_server s).

Definition with_current_running_job_pids (v : list Z) (s : pipelineExecutor)
  : pipelineExecutor :=
  mkExecutor (mem s) (procs s) (idle_time s) (prev_time s) (current_time s)
    (time_to_seppuku s) (time_to_accept_jobs s) (connection_time_with_server s)
    (runningMem s) (runningProcs s) (runningChildren s)
    v (registered_with_server s).

Definition with_registered_with_server (v : bool) (s : pipelineExecutor)
  : pipelineExecutor :=
  mkExecutor (mem s) (procs s) (idle_time s) (prev_time s) (current_time s)
    (time_to_seppuku s) (time_to_accept_jobs s) (connection_time_with_server s)
    (runningMem s) (runningProcs s) (runningChildren s)
    (current_running_job_pids s) v.

(** The executor process: the [pipelineExecutor] instance, the worker pool
    it owns, the trace of what has left the process so far (oldest first)
    and the next free object address. *)
Record World : Type := mkWorld {
  self : pipelineExecutor;
  pool : list Task;
  trace : list event;
  next_obj : nat
}.

(** ** State and exceptions

    A method of the executor is a function of the world that returns a
    value or raises; what it did to the world before raising stays done. *)

Definition M (A : Type) : Type := World -> Result A * World.

Definition ret {A} (a : A) : M A := fun w => (Ok a, w).

Definition bind {A B} (m : M A) (k : A -> M B) : M B :=
  fun w => match m w with
           | (Ok a, w') => k a w'
           | (Raise e, w') => (Raise e, w')
           end.

Definition raise {A} (e : exn) : M A := fun w => (Raise e, w).

Definition answer {A} (r : Result A) : M A := fun w => (r, w).

Definition get_self : M pipelineExecutor := fun w => (Ok (self w), w).

Definition update (f : pipelineExecutor -> pipelineExecutor) : M unit :=
  fun w => (Ok tt, mkWorld (f (self w)) (pool w) (trace w) (next_obj w)).

Definition emit (e : event) : M unit :=
  fun w => (Ok tt, mkWorld (self w) (pool w) (trace w ++ [e]) (next_obj w)).

Declare Scope exec_scope.
Delimit Scope exec_scope with exec.
Notation "x <- m ;; k" := (bind m (fun x => k))
  (at level 61, m at next level, right associativity) : exec_scope.
Notation "m ;;; k" := (bind m (fun _ => k))
  (at level 61, right associativity) : exec_scope.
Open Scope exec_scope.

(** ** The resource ledger *)

(** [canRun]: [stageMem <= self.mem - runningMem and
    stageProcs <= self.procs - runningProcs]. *)
Definition canRun (s : pipelineExecutor) (stageMem : Q) (stageProcs : Z)
    (runningMem : Q) (runningProcs : Z) : bool :=
  Qle_bool stageMem (mem s - runningMem) && (stageProcs <=? procs s - runningProcs).

(** [x == y] on [ChildProcess] objects. *)
Definition same_object (x y : ChildProcess.t) : bool :=
  Nat.eqb (ChildProcess.obj_id x) (ChildProcess.obj_id y).

(** [list.remove(x)]: drops the first item equal to [x]; [None] stands for
    the [ValueError] raised when there is none. *)
Fixpoint list_remove (x : ChildProcess.t) (l : list ChildProcess.t)
  : option (list ChildProcess.t) :=
  match l with
  | [] => None
  | y :: ys =>
      if same_object y x then Some ys
      else match list_remove x ys with
           | Some ys' => Some (y :: ys')
           | None => None
           end
  end.

Definition inspect {A} (a : A) : { b : A | a = b } := exist _ a eq_refl.

(** The body of [free_resources].  The [for] statement walks the list by
    position: it fetches item [i] of the list as it is now, runs the body
    and moves to [i+1], until [i] is past the end.  [ready] answers
    [child.result.ready()]. *)
Equations? free_loop (ready : nat -> bool) (i : nat) (s : pipelineExecutor)
  : Result unit * pipelineExecutor
  by wf (length (runningChildren s) - i)%nat lt :=
free_loop ready i s with inspect (nth_error (runningChildren s) i) := {
  | exist _ None _ => (Ok tt, s)
  | exist _ (Some child) Hnth with ready (ChildProcess.result child) := {
    | false => free_loop ready (S i) s
    | true with inspect (list_remove child (runningChildren s)) := {
      | exist _ None _ =>
          (Raise ValueError,
           with_runningProcs (runningProcs s - ChildProcess.procs child)
             (with_runningMem (runningMem s - ChildProcess.mem child) s))
      | exist _ (Some rest) Hrm =>
          free_loop ready (S i)
            (with_runningChildren rest
               (with_runningProcs (runningProcs s - ChildProcess.procs child)
                  (with_runningMem (runningMem s - ChildProcess.mem child) s)))
      }
    }
  }.
Proof.
  - simpl.
    assert (Hlen : forall l l', list_remove child l = Some l' ->
                                length l = S (length l')).
    { induction l as [|y ys IH]; intros l' H; simpl in H; [discriminate|].
      destruct (same_object y child).
      - injection H as <-. reflexivity.
      - destruct (list_remove child ys) as [ys'|]; [|discriminate].
        injection H as <-. simpl. f_equal. apply IH. reflexivity. }
    apply Hlen in Hrm.
    assert (i < length (runningChildren s))%nat
      by (apply nth_error_Some; congruence).
    lia.
  - assert (i < length (runningChildren s))%nat
      by (apply nth_error_Some; congruence).
    lia.
Qed.

(** [AsyncResult.ready()] of the task with the given index. *)
Definition result_ready (p : list Task) (job : nat) : bool :=
  match nth_error p job with
  | Some t => match pending t with [] => true | _ :: _ => false end
  | None => false
  end.

Definition free_resources : M unit :=
  fun w =>
    let '(r, s') := free_loop (result_ready (pool w)) 0 (self w) in
    (r, mkWorld s' (pool w) (trace w) (next_obj w)).

(** ** The stage runner *)

(** [notifyStageTerminated(i, returncode=None)], a method of the executor
    that the worker calls through its proxy; [ans] is the server's answer
    to the report.  The request is not guarded: when it raises, the event
    is not set. *)
Definition notifyStageTerminated (ans : Result unit) (i : Z)
    (returncode : option Z) : M unit :=
  (match returncode with
   | Some rc =>
       if rc =? 0 then emit (Rpc (setStageFinished i))
       else emit (Rpc (setStageFailed i))
   | None => emit (Rpc (setStageFailed i))
   end) ;;;
  answer ans ;;;
  emit EventSet.

(** A worker process computes next to the executor: it has its own proxy
    for the server and reaches the executor only through [action]s.  A run
    of [runStage] is the list of actions it performs and how it ends. *)
Definition W (A : Type) : Type := (list action * Result A)%type.

Definition w_ret {A} (a : A) : W A := ([], Ok a).

Definition w_bind {A B} (m : W A) (k : A -> W B) : W B :=
  match m with
  | (l, Ok a) => let '(l', r) := k a in (l ++ l', r)
  | (l, Raise e) => (l, Raise e)
  end.

Definition w_do (a : action) : W unit := ([a], Ok tt).

(** A request through the worker's proxy [p], with the server's answer. *)
Definition w_call {A} (r : rpc) (ans : Result A) : W A := ([Emit (Rpc r)], ans).

Definition w_answer {A} (ans : Result A) : W A := ([], ans).

(** [try: body / except: handler / else: orelse]; the bare [except] takes
    every exception of [body], none of [orelse]. *)
Definition w_try_else {A B} (body : W A) (handler : exn -> W B) (orelse : A -> W B)
  : W B :=
  match body with
  | (l, Ok a) => let '(l', r) := orelse a in (l ++ l', r)
  | (l, Raise e) => let '(l', r) := handler e in (l ++ l', r)
  end.

Declare Scope worker_scope.
Delimit Scope worker_scope with worker.
Notation "x <- m ;; k" := (w_bind m (fun x => k))
  (at level 61, m at next level, right associativity) : worker_scope.
Notation "m ;;; k" := (w_bind m (fun _ => k))
  (at level 61, right associativity) : worker_scope.

(** How one stage goes: the answers of the server, of the file system and
    of the operating system to the steps of [runStage]. *)
Record StageRun : Type := mkStageRun {
  run_setStageStarted : Result unit;
  run_getStageCommand : Result string;
  run_getStageLogfile : Result string;
  run_open_write : Result unit;
  run_Popen : Result Z;
  run_returncode : Z;
  run_close : Result unit;
  run_notifyStageTerminated : Result unit;
  run_getStageMem : Result Q;
  run_getStageProcs : Result Z
}.

(** The inner [try] block of [runStage]: from [getStageCommand] to
    [of.close()]; its value is [ret]. *)
Definition runStage_body (o : StageRun) (i : Z) : W Z :=
  (command_to_run <- w_call (getStageCommand i) (run_getStageCommand o) ;;
   command_logfile <- w_call (getStageLogfile i) (run_getStageLogfile o) ;;
   w_answer (run_open_write o) ;;;
   w_do (Emit (LogHeader i command_to_run)) ;;;
   pid <- w_answer (run_Popen o) ;;
   w_do (Emit (Popen pid)) ;;;
   w_do (addPIDtoRunningList_call pid) ;;;
   w_do (Emit (Communicate pid)) ;;;
   w_do (removePIDfromRunningList_call pid) ;;;
   let ret := run_returncode o in
   w_answer (run_close o) ;;;
   w_ret ret)%worker.

(** [client.notifyStageTerminated(i, returncode)]: the call into the
    executor ends as the executor's report to the server ends. *)
Definition w_notifyStageTerminated (i : Z) (returncode : option Z)
    (ans : Result unit) : W unit :=
  ([notifyStageTerminated_call i returncode ans], ans).

(** [runStage(serverURI, clientURI, i)].  The outer [except] logs and
    raises again. *)
Definition runStage (o : StageRun) (i : Z) : W (Q * Z) :=
  (w_call (setStageStarted i) (run_setStageStarted o) ;;;
   w_try_else (runStage_body o i)
     (fun _ => w_notifyStageTerminated i None (run_notifyStageTerminated o))
     (fun ret => w_notifyStageTerminated i (Some ret)
                   (run_notifyStageTerminated o)) ;;;
   stageMem <- w_call (getStageMem i) (run_getStageMem o) ;;
   stageProcs <- w_call (getStageProcs i) (run_getStageProcs o) ;;
   w_ret (stageMem, stageProcs))%worker.

(** [list.remove(pid)] on the list of pids.  Where Python raises
    [ValueError] the list is left alone: a worker removes the pid it has
    added a moment before, and no one else removes pids. *)
Fixpoint remove_pid (pid : Z) (l : list Z) : list Z :=
  match l with
  | [] => []
  | x :: xs => if x =? pid then xs else x :: remove_pid pid xs
  end.

Definition registeredWithServer : M unit :=
  update (with_registered_with_server true).

Definition addPIDtoRunningList (pid : Z) : M unit :=
  update (fun s => with_current_running_job_pids
                     (current_running_job_pids s ++ [pid]) s).

Definition removePIDfromRunningList (pid : Z) : M unit :=
  update (fun s => with_current_running_job_pids
                     (remove_pid pid (current_running_job_pids s)) s).

(** The effect of one worker action on the executor process.  An exception
    of [notifyStageTerminated] goes back through the proxy to the worker
    that called; the executor goes on. *)
Definition perform (a : action) : M unit :=
  match a with
  | Emit e => emit e
  | addPIDtoRunningList_call pid => addPIDtoRunningList pid
  | removePIDfromRunningList_call pid => removePIDfromRunningList pid
  | notifyStageTerminated_call i returncode ans =>
      fun w => (Ok tt, snd (notifyStageTerminated ans i returncode w))
  end.

(** ** The worker pool seen from the executor *)

Fixpoint list_set {A} (n : nat) (x : A) (l : list A) : list A :=
  match l, n with
  | [], _ => []
  | _ :: ys, O => x :: ys
  | y :: ys, S n' => y :: list_set n' x ys
  end.

(** A task is outstanding while its worker has something left to do. *)
Definition outstanding (t : Task) : bool :=
  match pending t with
  | [] => false
  | _ :: _ => true
  end.

Fixpoint perform_all (l : list action) : M unit :=
  match l with
  | [] => ret tt
  | a :: rest => perform a ;;; perform_all rest
  end.

(** The worker of task [job] performs its next action, if it has one. *)
Definition worker_advance (job : nat) : M unit :=
  fun w =>
    match nth_error (pool w) job with
    | Some t =>
        match pending t with
        | a :: rest =>
            perform a (mkWorld (self w)
                               (list_set job (mkTask (task_stage t) rest) (pool w))
                               (trace w) (next_obj w))
        | [] => (Ok tt, w)
        end
    | None => (Ok tt, w)
    end.

Fixpoint workers_advance (schedule : list nat) : M unit :=
  match schedule with
  | [] => ret tt
  | job :: rest => worker_advance job ;;; workers_advance rest
  end.

(** [self.pool.join()] after [close()]: returns when every task has run to
    its end; the workers perform what was pending, one task after the
    other. *)
Definition pool_join : M unit :=
  fun w =>
    (perform_all (concat (map pending (pool w))) ;;; emit PoolJoin)
      (mkWorld (self w) (map (fun t => mkTask (task_stage t) []) (pool w))
               (trace w) (next_obj w)).

(** ** Timers *)

Definition idle (s : pipelineExecutor) : bool :=
  Qeq_bool (runningMem s) 0 && (runningProcs s =? 0) && truthy (prev_time s).

(** [is_seppuku_time]: [time_to_seppuku] is in minutes, [idle_time] in
    seconds. *)
Definition is_seppuku_time (s : pipelineExecutor) : bool :=
  match time_to_seppuku s with
  | Some minutes => Qlt_bool (inject_Z (minutes * 60)) (idle_time s)
  | None => false
  end.

(** [x - y] on numbers that may be [None]. *)
Definition sub_or_TypeError (x y : option Q) : Result Q :=
  match x, y with
  | Some a, Some b => Ok (a - b)%Q
  | _, _ => Raise TypeError
  end.

(** [x * k] on an integer that may be [None]. *)
Definition mul_or_TypeError (x : option Z) (k : Z) : Result Z :=
  match x with
  | Some a => Ok (a * k)
  | None => Raise TypeError
  end.

(** [divmod(x, d)] for a float [x] and a positive integer [d]. *)
Definition divmod (x : Q) (d : Z) : Z * Q :=
  let q := Qfloor (x / inject_Z d) in
  (q, (x - inject_Z (q * d))%Q).

(** [is_time_to_drain]; [now] is what [time.time()] returns inside it. *)
Definition is_time_to_drain (now : Q) (s : pipelineExecutor) : Result bool :=
  match time_to_accept_jobs s with
  | Some limit =>
      match sub_or_TypeError (Some now) (connection_time_with_server s) with
      | Ok time_take_so_far =>
          let '(minutes_so_far, seconds_so_far) := divmod time_take_so_far 60 in
          if limit <? minutes_so_far then Ok true else Ok false
      | Raise e => Raise e
      end
  | None => Ok false
  end.

(** ** The main loop *)

(** What the outside answers during one call of [mainFn], and what the
    workers of the pool do during the wait that follows it: the indices of
    the tasks that advance by one action, in order. *)
Record Tick : Type := mkTick {
  tick_time : Q;
  tick_time_drain : Q;
  tick_getCommand : Result (string * Z);
  tick_getStageMem : Result Q;
  tick_getStageProcs : Result Z;
  tick_run : StageRun;
  tick_workers : list nat
}.

(** [self.pool.apply_async(runStage, (serverURI, clientURI, i))]: queues the
    task and returns its [AsyncResult]. *)
Definition apply_async (o : StageRun) (i : Z) : M nat :=
  fun w =>
    (Ok (length (pool w)),
     mkWorld (self w) (pool w ++ [mkTask i (fst (runStage o i))])
             (trace w ++ [PoolApplyAsync i]) (next_obj w)).

(** [ChildProcess(stage, result, mem, procs)]. *)
Definition new_ChildProcess (stage : Z) (result : nat) (mem : Q) (procs : Z)
  : M ChildProcess.t :=
  fun w =>
    (Ok (ChildProcess.mk (next_obj w) stage result mem procs),
     mkWorld (self w) (pool w) (trace w) (S (next_obj w))).

Definition mainFn (t : Tick) : M bool :=
  update (fun s => with_prev_time (current_time s) s) ;;;
  update (with_current_time (Some (tick_time t))) ;;;
  free_resources ;;;
  s <- get_self ;;
  (if idle s then
     delta <- answer (sub_or_TypeError (current_time s) (prev_time s)) ;;
     update (with_idle_time (idle_time s + delta)%Q) ;;;
     (* the arguments of logger.debug *)
     _ <- answer (mul_or_TypeError (time_to_seppuku s) 60) ;;
     ret tt
   else ret tt) ;;;
  s <- get_self ;;
  if is_seppuku_time s then ret false
  else
    drain <- answer (is_time_to_drain (tick_time_drain t) s) ;;
    if drain then ret false
    else
      emit (Rpc (getCommand (mem s - runningMem s)%Q (procs s - runningProcs s))) ;;;
      cmd_i <- answer (tick_getCommand t) ;;
      let '(cmd, i) := cmd_i in
      if String.eqb cmd "shutdown_normally" then ret false
      else if String.eqb cmd "wait" then ret true
      else if String.eqb cmd "run_stage" then
        emit (Rpc (getStageMem i)) ;;;
        stageMem <- answer (tick_getStageMem t) ;;
        emit (Rpc (getStageProcs i)) ;;;
        stageProcs <- answer (tick_getStageProcs t) ;;
        update (with_idle_time 0%Q) ;;;
        update (fun s => with_runningMem (runningMem s + stageMem)%Q s) ;;;
        update (fun s => with_runningProcs (runningProcs s + stageProcs) s) ;;;
        result <- apply_async (tick_run t) i ;;
        child <- new_ChildProcess i result stageMem stageProcs ;;
        update (fun s => with_runningChildren (runningChildren s ++ [child]) s) ;;;
        ret true
      else raise (Exception ("Got invalid cmd from server: " ++ cmd)).

(** [mainLoop] over a finite run: the outside answers the ticks of the
    list; the workers advance while the loop waits on its event; when the
    list is used up and the loop has not ended, the operator interrupts
    it. *)
Fixpoint mainLoop (ticks : list Tick) : M unit :=
  match ticks with
  | [] => raise KeyboardInterrupt
  | t :: rest =>
      again <- mainFn t ;;
      if again then workers_advance (tick_workers t) ;;; mainLoop rest
      else ret tt
  end.

(** ** Shutdown *)

(** [unregister_with_server]; [ans] is the server's answer to
    [unregisterClient]. *)
Definition unregister_with_server (ans : Result unit) : M unit :=
  s <- get_self ;;
  if registered_with_server s then
    update (with_registered_with_server false) ;;;
    emit (Rpc unregisterClient) ;;;
    answer ans
  else ret tt.

Definition completeAndExitChildren (ans : Result unit) : M unit :=
  s <- get_self ;;
  (if (0 <? Z.of_nat (length (current_running_job_pids s))) then
     emit PoolClose ;;;
     pool_join
   else ret tt) ;;;
  unregister_with_server ans.

(** The [for] loop of [generalShutdownCall]; [kill pid] is how
    [os.kill(pid, signal.SIGTERM)] ends: it raises for a process that is
    gone. *)
Fixpoint kill_all (kill : Z -> Result unit) (pids : list Z) : M unit :=
  match pids with
  | [] => ret tt
  | subprocID :: rest =>
      emit (Kill subprocID) ;;;
      answer (kill subprocID) ;;;
      kill_all kill rest
  end.

Definition generalShutdownCall (kill : Z -> Result unit) (ans : Result unit)
  : M unit :=
  s <- get_self ;;
  kill_all kill (current_running_job_pids s) ;;;
  unregister_with_server ans.

(** ** Options and start of the program *)

Module Options.
Record t : Type := mk {
  num_exec : Z;
  proc : Z;
  mem : Q;
  time_to_seppuku : option Z;
  time_to_accept_jobs : option Z;
  local : bool
}.
End Options.

(** What the command line gives for the executor options the model keeps;
    [None] is an option that was not passed. *)
Record CommandLine : Type := mkCommandLine {
  arg_num_executors : option Z;
  arg_proc : option Z;
  arg_mem : option Q;
  arg_time_to_seppuku : option Z;
  arg_time_to_accept_jobs : option Z;
  arg_local : bool
}.

Definition or_default {A} (arg : option A) (default : A) : A :=
  match arg with
  | Some v => v
  | None => default
  end.

(** [addExecutorArgumentGroup] followed by [parse_known_args]: each
    destination gets what was passed, or the declared default;
    [--time-to-accept-jobs] declares none. *)
Definition parse_known_args (c : CommandLine) : Options.t :=
  Options.mk
    (or_default (arg_num_executors c) (-1))
    (or_default (arg_proc c) 1)
    (or_default (arg_mem c) 6%Q)
    (Some (or_default (arg_time_to_seppuku c) 1))
    (arg_time_to_accept_jobs c)
    (arg_local c).

Definition no_arguments : CommandLine :=
  mkCommandLine None None None None None false.

(** [pipelineExecutor.__init__(options)]. *)
Definition pipelineExecutor_init (options : Options.t) : pipelineExecutor :=
  mkExecutor (Options.mem options) (Options.proc options)
    0%Q None None
    (Options.time_to_seppuku options) (Options.time_to_accept_jobs options)
    None 0%Q 0 [] [] false.

Definition new_process (options : Options.t) : World :=
  mkWorld (pipelineExecutor_init options) [] [] 0.

Definition no_executors_message : string :=
  "You need to specify some executors for this pipeline to run. Please use the --num-executors command line option. Exiting...".

(** [sys.exit(arg)] raises [SystemExit(arg)]; [sys.exit()] is
    [sys.exit(None)]. *)
Definition sys_exit {A} (arg : option Z) : M A := raise (SystemExit arg).

Definition noExecSpecified (numExec : Z) : M unit :=
  if numExec <? 0 then
    emit (Stdout no_executors_message) ;;;
    sys_exit None
  else ret tt.

(** What the outside answers during one run of [launchExecutor]. *)
Record Launch : Type := mkLaunch {
  launch_serverURI : Result unit;
  launch_registerClient : Result unit;
  launch_time : Q;
  launch_ticks : list Tick;
  launch_kill : Z -> Result unit;
  launch_unregisterClient : Result unit
}.

(** The [try] statement of [launchExecutor]: [mainLoop] with its two
    handlers and its [else] branch. *)
Definition run_executor (l : Launch) : M unit :=
  fun w =>
    match mainLoop (launch_ticks l) w with
    | (Raise KeyboardInterrupt, w') =>
        (generalShutdownCall (launch_kill l) (launch_unregisterClient l) ;;;
         sys_exit (Some 0)) w'
    | (Raise e, w') =>
        if is_Exception e then
          (generalShutdownCall (launch_kill l) (launch_unregisterClient l) ;;;
           sys_exit (Some 0)) w'
        else (Raise e, w')
    | (Ok _, w') =>
        (completeAndExitChildren (launch_unregisterClient l) ;;;
         emit DaemonShutdown) w'
    end.

(** [launchExecutor] up to its [try] statement: find the server, register,
    note the time of connection.  The pool it then creates is the empty
    [pool] of the world. *)
Definition connect (l : Launch) : M unit :=
  answer (launch_serverURI l) ;;;
  s <- get_self ;;
  emit (Rpc (registerClient (mem s))) ;;;
  answer (launch_registerClient l) ;;;
  registeredWithServer ;;;
  update (with_connection_time_with_server (Some (launch_time l))).

Definition launchExecutor (l : Launch) : M unit :=
  connect l ;;;
  run_executor l.

(** Exit status of a Python process whose main function ended with [r]:
    [SystemExit(None)] and a normal return give 0, [SystemExit(n)] gives
    [n], any other exception gives 1. *)
Definition exit_status {A} (r : Result A) : Z :=
  match r with
  | Ok _ => 0
  | Raise (SystemExit None) => 0
  | Raise (SystemExit (Some n)) => n
  | Raise _ => 1
  end.

(** The program with [--local]: the check of [--num-executors], then
    [num_exec] executor processes, each a copy of the same new executor,
    which the program joins before it ends.  [runs k] is what the outside
    answers to executor [k]. *)
Record Program : Type := mkProgram {
  program_result : Result unit;
  program_output : list event;
  program_executors : list (Result unit * World)
}.

Definition main (c : CommandLine) (runs : nat -> Launch) : Program :=
  let options := parse_known_args c in
  match noExecSpecified (Options.num_exec options) (new_process options) with
  | (Raise e, w) => mkProgram (Raise e) (trace w) []
  | (Ok _, w) =>
      mkProgram (Ok tt) (trace w)
        (map (fun k => launchExecutor (runs k) (new_process options))
             (seq 0 (Z.to_nat (Options.num_exec options))))
  end.

(** ** The heartbeat thread next to [unregister_with_server]

    Two threads of the executor process share the world.  Each is cut at
    its reads and writes of [registered_with_server] and at its request to
    the server; a step of the process is a step of either thread. *)

Inductive heartbeat_pc : Type :=
| HbTest      (* about to evaluate [while self.registered_with_server] *)
| HbCall      (* found the flag true, about to call updateClientTimestamp *)
| HbSleep     (* in time.sleep(HEARTBEAT_INTERVAL) *)
| HbDone.     (* left the loop, or crashed and logged *)

Inductive unregister_pc : Type :=
| UnTest      (* about to evaluate [if self.registered_with_server] *)
| UnUnset     (* about to assign False to the flag *)
| UnCall      (* about to call unregisterClient *)
| UnDone.

Record Threads : Type := mkThreads {
  world : World;
  hb : heartbeat_pc;
  un : unregister_pc
}.

Definition heartbeat_step (ans : Result unit) (pc : heartbeat_pc) (w : World)
  : heartbeat_pc * World :=
  match pc with
  | HbTest => if registered_with_server (self w) then (HbCall, w) else (HbDone, w)
  | HbCall =>
      let w' := snd (emit (Rpc updateClientTimestamp) w) in
      match ans with
      | Ok _ => (HbSleep, w')
      | Raise _ => (HbDone, w')
      end
  | HbSleep => (HbTest, w)
  | HbDone => (HbDone, w)
  end.

Definition unregister_step (pc : unregister_pc) (w : World)
  : unregister_pc * World :=
  match pc with
  | UnTest => if registered_with_server (self w) then (UnUnset, w) else (UnDone, w)
  | UnUnset => (UnCall, snd (update (with_registered_with_server false) w))
  | UnCall => (UnDone, snd (emit (Rpc unregisterClient) w))
  | UnDone => (UnDone, w)
  end.

Inductive step : Threads -> Threads -> Prop :=
| step_heartbeat (c : Threads) (ans : Result unit) :
    hb c <> HbDone ->
    step c (mkThreads (snd (heartbeat_step ans (hb c) (world c)))
                      (fst (heartbeat_step ans (hb c) (world c))) (un c))
| step_unregister (c : Threads) :
    un c <> UnDone ->
    step c (mkThreads (snd (unregister_step (un c) (world c))) (hb c)
                      (fst (unregister_step (un c) (world c)))).

Inductive steps : Threads -> Threads -> Prop :=
| steps_refl (c : Threads) : steps c c
| steps_step (c c' c'' : Threads) : step c c' -> steps c' c'' -> steps c c''.

(** Requests of the heartbeat in a trace. *)
Fixpoint heartbeats (tr : list event) : nat :=
  match tr with
  | [] => O
  | Rpc updateClientTimestamp :: rest => S (heartbeats rest)
  | _ :: rest => heartbeats rest
  end.

(** * Vocabulary of the properties *)

(** ** The ledger and the list of children *)

Fixpoint sum_procs (l : list ChildProcess.t) : Z :=
  match l with
  | [] => 0
  | c :: rest => ChildProcess.procs c + sum_procs rest
  end.

Definition obj_ids (l : list ChildProcess.t) : list nat :=
  map ChildProcess.obj_id l.

(** What [free_resources] never touches. *)
Definition same_settings (s s' : pipelineExecutor) : Prop :=
  mem s' = mem s /\ procs s' = procs s /\ idle_time s' = idle_time s
  /\ prev_time s' = prev_time s /\ current_time s' = current_time s
  /\ time_to_seppuku s' = time_to_seppuku s
  /\ time_to_accept_jobs s' = time_to_accept_jobs s
  /\ connection_time_with_server s' = connection_time_with_server s
  /\ current_running_job_pids s' = current_running_job_pids s
  /\ registered_with_server s' = registered_with_server s.

(** The ledger of processes agrees with the list of children, the children
    are distinct objects, each holds a process, and idle seconds are on
    the clock only when there is no child. *)
Definition ledger_ok (s : pipelineExecutor) (next : nat) : Prop :=
  NoDup (obj_ids (runningChildren s))
  /\ Forall (fun c => (ChildProcess.obj_id c < next)%nat) (runningChildren s)
  /\ runningProcs s = sum_procs (runningChildren s)
  /\ Forall (fun c => 1 <= ChildProcess.procs c) (runningChildren s)
  /\ (~ (idle_time s == 0)%Q -> runningChildren s = []).

(** ** Reports of a stage *)

(** The inner [try] block of [runStage] runs to its end: no request for
    the stage's command or log file, no file operation and no spawn
    raises. *)
Definition body_completes (o : StageRun) : bool :=
  match run_getStageCommand o, run_getStageLogfile o, run_open_write o,
        run_Popen o, run_close o with
  | Ok _, Ok _, Ok _, Ok _, Ok _ => true
  | _, _, _, _, _ => false
  end.

(** The outcome reports among the requests of a trace. *)
Fixpoint outcome_reports (tr : list event) : list rpc :=
  match tr with
  | [] => []
  | Rpc (setStageFinished i) :: rest => setStageFinished i :: outcome_reports rest
  | Rpc (setStageFailed i) :: rest => setStageFailed i :: outcome_reports rest
  | _ :: rest => outcome_reports rest
  end.

(** The calls of [notifyStageTerminated] among the actions of a worker. *)
Fixpoint notifications (l : list action) : list (Z * option Z) :=
  match l with
  | [] => []
  | notifyStageTerminated_call i returncode _ :: rest =>
      (i, returncode) :: notifications rest
  | _ :: rest => notifications rest
  end.

(** What a list of worker actions reports to the server. *)
Fixpoint reported (l : list action) : list rpc :=
  match l with
  | [] => []
  | Emit e :: rest => outcome_reports [e] ++ reported rest
  | notifyStageTerminated_call i (Some 0) _ :: rest =>
      setStageFinished i :: reported rest
  | notifyStageTerminated_call i _ _ :: rest => setStageFailed i :: reported rest
  | _ :: rest => reported rest
  end.

(** ** The parts of [mainFn] *)

(** The state in which [mainFn] looks at its timers: the clock has ticked
    and the sweep is done. *)
Definition swept (t : Tick) (w : World) : World :=
  mkWorld
    (snd (free_loop (result_ready (pool w)) 0
            (with_current_time (Some (tick_time t))
               (with_prev_time (current_time (self w)) (self w)))))
    (pool w) (trace w) (next_obj w).

(** The three parts of [mainFn] after the sweep, with names for the
    lemmas: the idle accounting, the two timers, the request for work.
    [mainFn_parts] shows that [mainFn] is the three in a row. *)
Definition account_idle : M unit :=
  s <- get_self ;;
  if idle s then
    delta <- answer (sub_or_TypeError (current_time s) (prev_time s)) ;;
    update (with_idle_time (idle_time s + delta)%Q) ;;;
    _ <- answer (mul_or_TypeError (time_to_seppuku s) 60) ;;
    ret tt
  else ret tt.

Definition fetch (t : Tick) : M bool :=
  s <- get_self ;;
  emit (Rpc (getCommand (mem s - runningMem s)%Q (procs s - runningProcs s))) ;;;
  cmd_i <- answer (tick_getCommand t) ;;
  let '(cmd, i) := cmd_i in
  if String.eqb cmd "shutdown_normally" then ret false
  else if String.eqb cmd "wait" then ret true
  else if String.eqb cmd "run_stage" then
    emit (Rpc (getStageMem i)) ;;;
    stageMem <- answer (tick_getStageMem t) ;;
    emit (Rpc (getStageProcs i)) ;;;
    stageProcs <- answer (tick_getStageProcs t) ;;
    update (with_idle_time 0%Q) ;;;
    update (fun s => with_runningMem (runningMem s + stageMem)%Q s) ;;;
    update (fun s => with_runningProcs (runningProcs s + stageProcs) s) ;;;
    result <- apply_async (tick_run t) i ;;
    child <- new_ChildProcess i result stageMem stageProcs ;;
    update (fun s => with_runningChildren (runningChildren s ++ [child]) s) ;;;
    ret true
  else raise (Exception ("Got invalid cmd from server: " ++ cmd)).

Definition check_timers (t : Tick) : M bool :=
  s <- get_self ;;
  if is_seppuku_time s then ret false
  else
    drain <- answer (is_time_to_drain (tick_time_drain t) s) ;;
    if drain then ret false else fetch t.

(** ** Boundaries of the main loop *)

(** The stage handed out in this iteration, if any, reserves at least one
    process. *)
Definition reserves_a_process (t : Tick) : Prop :=
  forall (i : Z) (stageProcs : Z),
    tick_getCommand t = Ok ("run_stage"%string, i) ->
    tick_getStageProcs t = Ok stageProcs ->
    1 <= stageProcs.

(** The states of an executor between two calls of [mainFn], and after the
    last: it has connected, and then the loop has called [mainFn] and
    waited while the workers advanced, any number of times.  [P] restricts
    what the outside answers. *)
Inductive loop_boundary (P : Tick -> Prop) : World -> Prop :=
| boundary_connected (l : Launch) (options : Options.t) (w : World) :
    connect l (new_process options) = (Ok tt, w) ->
    loop_boundary P w
| boundary_mainFn (t : Tick) (w : World) :
    P t -> loop_boundary P w -> loop_boundary P (snd (mainFn t w))
| boundary_wait (schedule : list nat) (w : World) :
    loop_boundary P w -> loop_boundary P (snd (workers_advance schedule w)).

(** ** The two threads *)

(** Once [unregister_with_server] is past its assignment, the flag is
    unset. *)
Definition past_unset (c : Threads) : Prop :=
  un c = UnCall -> registered_with_server (self (world c)) = false.

(** The thread of [unregister_with_server], run alone to its end. *)
Definition unregister_alone (w : World) : World :=
  let '(pc1, w1) := unregister_step UnTest w in
  let '(pc2, w2) := unregister_step pc1 w1 in
  let '(pc3, w3) := unregister_step pc2 w2 in
  w3.

Definition unregister_moves (c : Threads) : Threads :=
  mkThreads (snd (unregister_step (un c) (world c))) (hb c)
            (fst (unregister_step (un c) (world c))).

Definition heartbeat_moves (c : Threads) : Threads :=
  mkThreads (snd (heartbeat_step (Ok tt) (hb c) (world c)))
            (fst (heartbeat_step (Ok tt) (hb c) (world c))) (un c).

Definition after (n : nat) (f : Threads -> Threads) (c : Threads) : Threads :=
  Nat.iter n f c.

(** * Runs used as examples

    The runs follow the scenarios of the design document.  The executor
    has 6 GB and two processes and connects at second 0; a stage reserves
    3 GB and one process unless said otherwise, and its command succeeds.
    A worker that runs a successful stage performs eleven actions; after
    the sixth its pid is registered. *)

Definition scenario_options : Options.t :=
  parse_known_args (mkCommandLine (Some 1) (Some 2) (Some 6%Q) None None true).

Definition scenario_launch (ticks : list Tick) : Launch :=
  mkLaunch (Ok tt) (Ok tt) 0%Q ticks (fun _ => Ok tt) (Ok tt).

Definition connected : World :=
  snd (connect (scenario_launch []) (new_process scenario_options)).

Definition stage_succeeds (pid : Z) (stageMem : Q) (stageProcs : Z) : StageRun :=
  mkStageRun (Ok tt) (Ok "true"%string) (Ok "stage.log"%string) (Ok tt)
             (Ok pid) 0 (Ok tt) (Ok tt) (Ok stageMem) (Ok stageProcs).

(** The server hands out stage [i]; [workers] is what the pool does during
    the wait that follows. *)
Definition hand_out (time : Q) (i : Z) (pid : Z) (workers : list nat) : Tick :=
  mkTick time time (Ok ("run_stage"%string, i)) (Ok 3%Q) (Ok 1)
         (stage_succeeds pid 3%Q 1) workers.

Definition server_says_wait (time : Q) : Tick :=
  mkTick time time (Ok ("wait"%string, 0)) (Raise CommunicationError)
         (Raise CommunicationError) (stage_succeeds 0 0%Q 0) [].

Definition server_says_shutdown (time : Q) : Tick :=
  mkTick time time (Ok ("shutdown_normally"%string, 0)) (Raise CommunicationError)
         (Raise CommunicationError) (stage_succeeds 0 0%Q 0) [].

(** The executor of the first scenario while a stage of 3 GB and one
    process is running. *)
Definition executor_6GB_2procs : pipelineExecutor :=
  mkExecutor 6%Q 2 0%Q None None (Some 1) None None 3%Q 1 [] [] true.

(** Stage 1 and then stage 2 are handed out; both workers have finished
    when the loop wakes up for its third iteration. *)
Definition both_finished : World :=
  snd ((connect (scenario_launch []) ;;;
        mainFn (hand_out 1 1 4001 []) ;;;
        mainFn (hand_out 2 2 4002 []) ;;;
        workers_advance (repeat 0%nat 11 ++ repeat 1%nat 11))
       (new_process scenario_options)).

(** Scenario 5: jobs are accepted for two minutes. *)
Definition accepting_for_two_minutes : World :=
  snd (connect (scenario_launch [])
         (new_process
            (parse_known_args
               (mkCommandLine (Some 1) (Some 2) (Some 6%Q) None (Some 2) true)))).

(** An executor built from options in which [time_to_seppuku] is [None];
    every five seconds the server has nothing to hand out. *)
Definition options_without_idle_limit : Options.t :=
  Options.mk 1 2 6%Q None None true.

Definition waiting_launch : Launch :=
  scenario_launch
    [server_says_wait 1; server_says_wait 6; server_says_wait 11].

(** An executor whose server stops answering after the first stage has
    been handed out: [getCommand] raises in the second iteration. *)
Definition server_lost : Tick :=
  mkTick 6 6 (Raise CommunicationError) (Raise CommunicationError)
         (Raise CommunicationError) (stage_succeeds 0 0%Q 0) [].

Definition fatal_launch : Launch :=
  scenario_launch [hand_out 1 1 4001 (repeat 0%nat 6); server_lost].

(** The same loss of the server a moment later: the worker has waited for
    the command of stage 1, pid 4001, and has not yet taken the pid off the
    list; the process is gone and [os.kill] raises. *)
Definition child_gone_launch : Launch :=
  mkLaunch (Ok tt) (Ok tt) 0%Q
           [hand_out 1 1 4001 (repeat 0%nat 7); server_lost]
           (fun _ => Raise OSError) (Ok tt).

(** A registered executor whose heartbeat sleeps when the shutdown starts. *)
Definition shutting_down : Threads :=
  mkThreads connected HbSleep UnTest.

(** Stage 1 is handed out; when the loop wakes up again its worker has not
    yet spawned the command, and the server says [shutdown_normally]. *)
Definition early_shutdown : Launch :=
  scenario_launch [hand_out 1 1 4001 []; server_says_shutdown 2].

(** The same, but the worker has spawned the command and registered its
    pid when the loop wakes up. *)
Definition shutdown_while_running : Launch :=
  scenario_launch [hand_out 1 1 4001 (repeat 0%nat 6); server_says_shutdown 2].

Definition at_loop_exit (l : Launch) : World :=
  snd ((connect l ;;; mainLoop (launch_ticks l)) (new_process scenario_options)).

(** A stage that reserves no memory and no process is handed out at
    second 1 and still runs when the loop wakes up at second 6. *)
Definition hand_out_free_stage : Tick :=
  mkTick 1 1 (Ok ("run_stage"%string, 7)) (Ok 0%Q) (Ok 0)
         (stage_succeeds 4007 0%Q 0) (repeat 0%nat 6).

Definition idle_beside_a_child : World :=
  snd (mainFn (server_says_wait 6)
         (snd (workers_advance (tick_workers hand_out_free_stage)
                 (snd (mainFn hand_out_free_stage connected))))).

(** Two boundaries of the main loop: after two iterations without work,
    and after stage 1 has been handed out. *)
Definition waited_twice : World :=
  snd (mainFn (server_says_wait 6) (snd (mainFn (server_says_wait 1) connected))).

Definition stage_1_handed_out : World :=
  snd (mainFn (hand_out 1 1 4001 []) connected).

(** An executor started with [--num-executors 1 --local] and nothing
    else. *)
Definition default_executor : World :=
  snd (connect (scenario_launch [])
         (new_process
            (parse_known_args (mkCommandLine (Some 1) None None None None true)))).

(** * The rest of the code: vocabulary *)

(** ** What one sweep leaves *)

(** The list a sweep leaves, read off the [for] statement of
    [free_resources]: a child that is not ready stays; a ready child goes,
    and the child behind it moves into the position just visited, so the
    loop passes over it. *)
Fixpoint sweep (ready : ChildProcess.t -> bool) (l : list ChildProcess.t)
  : list ChildProcess.t :=
  match l with
  | [] => []
  | c :: rest =>
      if ready c then
        match rest with
        | [] => []
        | d :: rest' => d :: sweep ready rest'
        end
      else c :: sweep ready rest
  end.

(** [child.result.ready()] against the pool of the world. *)
Definition child_ready (w : World) (c : ChildProcess.t) : bool :=
  result_ready (pool w) (ChildProcess.result c).

Fixpoint count_ready (ready : ChildProcess.t -> bool) (l : list ChildProcess.t)
  : nat :=
  match l with
  | [] => O
  | c :: rest => if ready c then S (count_ready ready rest)
                 else count_ready ready rest
  end.

(** [n] calls of [free_resources] in a row. *)
Fixpoint free_resources_times (n : nat) : M unit :=
  match n with
  | O => ret tt
  | S n' => free_resources ;;; free_resources_times n'
  end.

(** ** The ledger at the boundaries of the main loop *)

(** The children are distinct objects older than the next address, and
    [runningProcs] is the sum of what they reserved. *)
Definition ledger_sum (s : pipelineExecutor) (next : nat) : Prop :=
  NoDup (obj_ids (runningChildren s))
  /\ Forall (fun c => (ChildProcess.obj_id c < next)%nat) (runningChildren s)
  /\ runningProcs s = sum_procs (runningChildren s).

(** The executor after [mainFn] has handed stage [i] to the pool. *)
Definition dispatched (s : pipelineExecutor) (next : nat) (i : Z) (result : nat)
    (stageMem : Q) (stageProcs : Z) : pipelineExecutor :=
  with_runningChildren
    (runningChildren s ++ [ChildProcess.mk next i result stageMem stageProcs])
    (with_runningProcs (runningProcs s + stageProcs)
       (with_runningMem (runningMem s + stageMem)%Q (with_idle_time 0%Q s))).

(** The server keeps to what [getCommand] told it: a stage it hands out
    asks for no more processes than the executor reported free, after the
    sweep of this iteration, and for no negative number. *)
Definition within_reported_procs (t : Tick) (w : World) : Prop :=
  forall (i : Z) (stageProcs : Z),
    tick_getCommand t = Ok ("run_stage"%string, i) ->
    tick_getStageProcs t = Ok stageProcs ->
    0 <= stageProcs
    /\ stageProcs <= procs (self w) - runningProcs (self (swept t w)).

(** Boundaries of the main loop of an executor whose server keeps to the
    reported free processes. *)
Inductive trusted_boundary : World -> Prop :=
| trusted_connected (l : Launch) (options : Options.t) (w : World) :
    0 <= Options.proc options ->
    connect l (new_process options) = (Ok tt, w) ->
    trusted_boundary w
| trusted_mainFn (t : Tick) (w : World) :
    within_reported_procs t w -> trusted_boundary w ->
    trusted_boundary (snd (mainFn t w))
| trusted_wait (schedule : list nat) (w : World) :
    trusted_boundary w -> trusted_boundary (snd (workers_advance schedule w)).

(** The ledger of processes stays within the budget: the invariant of the
    executor of a server that keeps to the reported free processes. *)
Definition within_budget (s : pipelineExecutor) (next : nat) : Prop :=
  ledger_sum s next
  /\ Forall (fun c => 0 <= ChildProcess.procs c) (runningChildren s)
  /\ runningProcs s <= procs s.

(** An executor with two processes is handed a stage that reserves five:
    more than it has. *)
Definition hand_out_too_much : Tick :=
  mkTick 1 1 (Ok ("run_stage"%string, 9)) (Ok 64%Q) (Ok 5)
         (stage_succeeds 4009 64%Q 5) [].

(** ** What the main loop never changes *)

(** The configuration of an executor, and its connection. *)
(** The worlds that the main loop passes through when it starts in [w0]:
    iterations of [mainFn] and work of the pool in between, whatever the
    outside answers. *)
Inductive loop_from (w0 : World) : World -> Prop :=
| from_start : loop_from w0 w0
| from_mainFn (t : Tick) (w : World) :
    loop_from w0 w -> loop_from w0 (snd (mainFn t w))
| from_wait (schedule : list nat) (w : World) :
    loop_from w0 w -> loop_from w0 (snd (workers_advance schedule w)).

Definition config (s : pipelineExecutor)
  : Q * Z * option Z * option Z * option Q * bool :=
  (mem s, procs s, time_to_seppuku s, time_to_accept_jobs s,
   connection_time_with_server s, registered_with_server s).

(** The idle seconds an iteration leaves when it hands out no stage. *)
Definition idle_time_after (t : Tick) (w : World) : Q :=
  match current_time (self w) with
  | Some prev =>
      if idle (self (swept t w))
      then (idle_time (self w) + (tick_time t - prev))%Q
      else idle_time (self w)
  | None => idle_time (self w)
  end.

(** ** Runs that end badly *)

(** The server does not answer [unregisterClient]. *)
Definition unregister_fails (ticks : list Tick) : Launch :=
  mkLaunch (Ok tt) (Ok tt) 0%Q ticks (fun _ => Ok tt) (Raise CommunicationError).

(** The server cannot be found; the server is found and refuses the
    registration. *)
Definition no_server : Launch :=
  mkLaunch (Raise OSError) (Ok tt) 0%Q [] (fun _ => Ok tt) (Ok tt).

Definition registration_refused : Launch :=
  mkLaunch (Ok tt) (Raise CommunicationError) 0%Q [] (fun _ => Ok tt) (Ok tt).

(** Stage 1 runs with pid 4001 when the operator interrupts the loop. *)
Definition interrupted_while_running : World :=
  snd (workers_advance (repeat 0%nat 6) stage_1_handed_out).

(** ** Runs of a stage *)

(** The command of the stage exits with status 1. *)
Definition stage_fails (pid : Z) (stageMem : Q) (stageProcs : Z) : StageRun :=
  mkStageRun (Ok tt) (Ok "false"%string) (Ok "stage.log"%string) (Ok tt)
             (Ok pid) 1 (Ok tt) (Ok tt) (Ok stageMem) (Ok stageProcs).

(** The command succeeds, and the server does not answer the report of
    its outcome. *)
Definition report_lost (pid : Z) (stageMem : Q) (stageProcs : Z) : StageRun :=
  mkStageRun (Ok tt) (Ok "true"%string) (Ok "stage.log"%string) (Ok tt)
             (Ok pid) 0 (Ok tt) (Raise CommunicationError)
             (Ok stageMem) (Ok stageProcs).

(** The events of spawning among the actions of a worker. *)
Fixpoint spawned (l : list action) : list Z :=
  match l with
  | [] => []
  | Emit (Popen pid) :: rest => pid :: spawned rest
  | _ :: rest => spawned rest
  end.

(** ** Requests of an iteration *)

Definition is_getCommand (e : event) : bool :=
  match e with
  | Rpc (getCommand _ _) => true
  | _ => false
  end.

(** The heartbeat thread after a request that the server answered with an
    exception. *)
Definition heartbeat_failed (e : exn) (c : Threads) : Threads :=
  mkThreads (snd (heartbeat_step (Raise e) (hb c) (world c)))
            (fst (heartbeat_step (Raise e) (hb c) (world c))) (un c).

(** A registered executor whose heartbeat is about to send its request. *)
Definition about_to_beat : Threads := mkThreads connected HbCall UnTest.

(** ** Executors on a queue

    The attributes of [pipelineExecutor] that the main loop does not use,
    [submitToQueue], and the choice the program makes between a local
    launch and a queue.  String functions of the Python library and
    [q.remove_num_exec], whose code is elsewhere, are taken as they come:
    they are the fields of [Host]. *)

Record Host : Type := mkHost {
  str_int : Z -> string;                   (* str(n) *)
  str_float : Q -> string;                 (* str(x) *)
  abspath : string -> string;              (* os.path.abspath *)
  basename : string -> string;             (* os.path.basename *)
  path_join : string -> string -> string;  (* os.path.join *)
  remove_num_exec : list string -> list string
}.

(** What the process finds around it during one call of [submitToQueue]:
    the clock, the working directory, its own command line, and what
    [subprocess.call] does (the exit status of [sge_batch], or the
    exception of a failed start). *)
Record Moment : Type := mkMoment {
  moment_now : string;       (* datetime.now().strftime(...) *)
  moment_cwd : string;       (* os.getcwd() *)
  moment_argv : list string; (* sys.argv *)
  moment_call : Result Z     (* subprocess.call(cmd, env=env) *)
}.

Module QueueOptions.
Record t : Type := mk {
  base : Options.t;
  queue_type : option string;
  queue : option string;
  queue_name : option string;
  sge_queue_opts : option string;
  urifile : option string;
  pipeline_name : option string
}.
End QueueOptions.

(** Truth value of a string-or-[None]. *)
Definition str_truthy (x : option string) : bool :=
  match x with
  | Some s => negb (String.eqb s "")
  | None => false
  end.

(** [x or y]. *)
Definition py_or (x y : option string) : option string :=
  if str_truthy x then x else y.

(** [x == s] for a string-or-[None] [x]. *)
Definition str_is (x : option string) (s : string) : bool :=
  match x with
  | Some a => String.eqb a s
  | None => false
  end.

(** The attributes of the executor that [submitToQueue] reads. *)
Record QueueExecutor : Type := mkQueueExecutor {
  qe_mem : Q;
  qe_procs : Z;
  qe_queue_type : option string;
  qe_queue_name : option string;
  qe_uri_file : string
}.

Inductive submit_event : Type :=
| LoggerWarn (msg : string)
| LoggerInfo (msg : string)
| SubprocessCall (cmd : list string) (PYRO_LOGFILE : string).

(** How a piece of the program ends: it returns, or raises
    [ZeroDivisionError], or raises one of [exn] ([sys.exit] raises
    [SystemExit]). *)
Inductive ending : Type :=
| Returned
| ZeroDivisionError
| Raised (e : exn).

(** [pipelineExecutor.__init__], the attributes for the queue.  A missing
    [pipeline_name] makes [options.pipeline_name + "_uri"] a [TypeError]
    when no uri file was given. *)
Definition init_for_queue (h : Host) (options : QueueOptions.t)
  : list submit_event * Result QueueExecutor :=
  ((if str_truthy (QueueOptions.queue options)
    then [LoggerWarn "--queue is deprecated; use --queue-type instead"]
    else [])
   ++ (if str_truthy (QueueOptions.sge_queue_opts options)
       then [LoggerWarn "--sge_queue_opts is deprecated; use --queue-name instead"]
       else []),
   let executor :=
     mkQueueExecutor
       (Options.mem (QueueOptions.base options))
       (Options.proc (QueueOptions.base options))
       (py_or (QueueOptions.queue_type options) (QueueOptions.queue options))
       (py_or (QueueOptions.queue_name options) (QueueOptions.sge_queue_opts options)) in
   match QueueOptions.urifile options with
   | Some f => Ok (executor f)
   | None =>
       match QueueOptions.pipeline_name options with
       | Some name => Ok (executor (abspath h (path_join h "." (name ++ "_uri"))))
       | None => Raise TypeError
       end
   end).

Definition show_str (x : option string) : string :=
  match x with
  | Some s => s
  | None => "None"
  end.

(** [submitToQueue(programName)]. *)
Definition submitToQueue (h : Host) (m : Moment) (programName : option string)
    (e : QueueExecutor) : list submit_event * ending :=
  if str_is (qe_queue_type e) "sge" then
    let strprocs := str_int h (qe_procs e) in
    if qe_procs e =? 0 then ([], ZeroDivisionError)
    else
      let memPerProc := (qe_mem e / inject_Z (qe_procs e))%Q in
      let strmem := ("vf=" ++ str_float h memPerProc ++ "G")%string in
      let jobname :=
        match programName with
        | Some name => (basename h (abspath h name) ++ "-")%string
        | None => ""%string
        end in
      let ident := ("pipeline-executor-" ++ moment_now m)%string in
      let jobname := (jobname ++ ident)%string in
      let cmd :=
        ["sge_batch"; "-J"; jobname; "-m"; strprocs; "-l"; strmem; "-k"]%string
        ++ ["-o"%string; path_join h (moment_cwd m) (ident ++ "-eo.log")%string]
        ++ (if str_truthy (qe_queue_name e)
            then ["-q"%string; show_str (qe_queue_name e)]
            else [])
        ++ ["pipeline_executor.py"; "--local"]%string
        ++ ["--uri-file"%string; qe_uri_file e]
        ++ ["--num-executors"%string; str_int h 1]
        ++ remove_num_exec h (moment_argv m) in
      ([SubprocessCall cmd (path_join h (moment_cwd m) (ident ++ ".log")%string)],
       match moment_call m with
       | Ok _ => Returned
       | Raise x => Raised x
       end)
  else
    ([LoggerInfo ("Specified queueing system is: " ++ show_str (qe_queue_type e));
      LoggerInfo "Only queue_type=sge or queue_type=None currently supports pipeline launching own executors.";
      LoggerInfo "Exiting..."],
     Raised (SystemExit None)).

(** The [for] loop of the program over [range(num_exec)] in the sge
    branch: a new executor and [submitToQueue()] each time, until one of
    the two raises.  There is one [Moment] for each turn of the loop. *)
Fixpoint submit_each (h : Host) (moments : list Moment) (options : QueueOptions.t)
  : list submit_event * ending :=
  match moments with
  | [] => ([], Returned)
  | m :: rest =>
      match init_for_queue h options with
      | (warnings, Raise x) => (warnings, Raised x)
      | (warnings, Ok pe) =>
          match submitToQueue h m None pe with
          | (events, Returned) =>
              let '(events', r) := submit_each h rest options in
              (warnings ++ events ++ events', r)
          | (events, r) => (warnings ++ events, r)
          end
      end
  end.

(** Where the program goes after the check of [--num-executors]. *)
Inductive branch : Type :=
| LocalLaunch
| SubmitPbs
| SubmitSge.

Definition branch_of (options : QueueOptions.t) : branch :=
  if Options.local (QueueOptions.base options) then LocalLaunch
  else if str_is (QueueOptions.queue options) "pbs"
          || str_is (QueueOptions.queue_type options) "pbs" then SubmitPbs
  else if str_is (QueueOptions.queue options) "sge"
          || str_is (QueueOptions.queue_type options) "sge" then SubmitSge
  else LocalLaunch.

(** The commands handed to [subprocess.call]. *)
Fixpoint commands (l : list submit_event) : list (list string) :=
  match l with
  | [] => []
  | SubprocessCall cmd _ :: rest => cmd :: commands rest
  | _ :: rest => commands rest
  end.


(** The executor can be built: a uri file or a pipeline name is given. *)
Definition has_uri_file (options : QueueOptions.t) : Prop :=
  QueueOptions.urifile options <> None \/ QueueOptions.pipeline_name options <> None.

(** A host whose string functions are simple stand-ins, and options that
    ask for sge through the deprecated [--queue] and for something else
    through [--queue-type]. *)
Definition plain_host : Host :=
  mkHost (fun _ => "n"%string) (fun _ => "x"%string) (fun p => p) (fun p => p)
         (fun a b => (a ++ "/" ++ b)%string) (fun argv => argv).

Definition conflicting_queue_options : QueueOptions.t :=
  QueueOptions.mk (Options.mk 2 1 6%Q (Some 1) None false)
                  (Some "slurm"%string) (Some "sge"%string) None None None
                  (Some "pipeline"%string).

Definition sge_options (proc : Z) : QueueOptions.t :=
  QueueOptions.mk (Options.mk 2 proc 6%Q (Some 1) None false)
                  (Some "sge"%string) None None (Some "all.q"%string) None
                  (Some "pipeline"%string).

Definition two_moments : list Moment :=
  [mkMoment "t1" "/home" ["pipeline_executor.py"%string] (Ok 0);
   mkMoment "t2" "/home" ["pipeline_executor.py"%string] (Ok 0)].

(** * Properties *)

(** ** Admission *)

Lemma Qlt_bool_iff (x y : Q) : Qlt_bool x y = true <-> (x < y)%Q.
Proof.
  unfold Qlt_bool. rewrite negb_true_iff.
  split; intro H.
  - apply Qnot_le_lt. intro Hle. apply Qle_bool_iff in Hle. congruence.
  - destruct (Qle_bool y x) eqn:E; [|reflexivity].
    apply Qle_bool_iff in E. exfalso. exact (Qlt_not_le _ _ H E).
Qed.

(** C1.  [canRun] answers true exactly when the stage's memory is at most
    [self.mem - runningMem] and its processes at most
    [self.procs - runningProcs]; a stage that asks for exactly the free
    memory is admitted, one that asks for more is not. *)
Theorem canRun_is_ledger_inequality
    (s : pipelineExecutor) (stageMem : Q) (stageProcs : Z)
    (memInUse : Q) (procsInUse : Z) :
  (canRun s stageMem stageProcs memInUse procsInUse = true <->
   (stageMem <= mem s - memInUse)%Q /\ stageProcs <= procs s - procsInUse)
  /\ ((stageMem == mem s - memInUse)%Q -> stageProcs <= procs s - procsInUse ->
      canRun s stageMem stageProcs memInUse procsInUse = true)
  /\ ((mem s - memInUse < stageMem)%Q ->
      canRun s stageMem stageProcs memInUse procsInUse = false).
Proof.
  assert (Hiff : canRun s stageMem stageProcs memInUse procsInUse = true <->
                 (stageMem <= mem s - memInUse)%Q /\
                 stageProcs <= procs s - procsInUse).
  { unfold canRun. rewrite andb_true_iff, Qle_bool_iff, Z.leb_le. tauto. }
  split; [exact Hiff|]. split.
  - intros Heq Hp. apply Hiff. split; [|exact Hp].
    rewrite Heq. apply Qle_refl.
  - intros Hlt.
    apply not_true_is_false. intro E.
    apply Hiff in E. destruct E as [Hle _].
    exact (Qlt_not_le _ _ Hlt Hle).
Qed.

Lemma canRun_is_ledger_inequality_witness :
  canRun executor_6GB_2procs 3%Q 1 3%Q 1 = true
  /\ canRun executor_6GB_2procs (7 # 2) 1 3%Q 1 = false.
Proof.
  split.
  - apply (canRun_is_ledger_inequality executor_6GB_2procs 3%Q 1 3%Q 1).
    + reflexivity.
    + simpl. lia.
  - apply (canRun_is_ledger_inequality executor_6GB_2procs (7 # 2) 1 3%Q 1).
    reflexivity.
Defined.

(** ** Reaping *)

Lemma list_remove_spec (x : ChildProcess.t) (l : list ChildProcess.t) :
  NoDup (obj_ids l) -> In x l ->
  exists l', list_remove x l = Some l'
             /\ sum_procs l = ChildProcess.procs x + sum_procs l'
             /\ NoDup (obj_ids l')
             /\ incl l' l.
Proof.
  induction l as [|y ys IH]; intros Hnd Hin; simpl in *.
  - contradiction.
  - inversion Hnd as [|? ? Hnotin Hnd']; subst.
    destruct (same_object y x) eqn:E.
    + exists ys. unfold same_object in E. apply Nat.eqb_eq in E.
      destruct Hin as [->|Hin].
      * repeat split; auto. intros z Hz. right. exact Hz.
      * exfalso. apply Hnotin. rewrite E. unfold obj_ids.
        apply in_map. exact Hin.
    + destruct Hin as [->|Hin].
      * unfold same_object in E. rewrite Nat.eqb_refl in E. discriminate.
      * destruct (IH Hnd' Hin) as (l' & -> & Hsum & Hnd'' & Hincl).
        exists (y :: l'). repeat split.
        -- simpl. lia.
        -- simpl. constructor; [|exact Hnd''].
           intro Hy. apply Hnotin. unfold obj_ids in *.
           apply in_map_iff in Hy. destruct Hy as (z & Hz & Hzin).
           apply in_map_iff. exists z. split; [exact Hz|]. apply Hincl, Hzin.
        -- intros z [->|Hz]; [left; reflexivity|right; apply Hincl, Hz].
Qed.

Lemma same_settings_refl (s : pipelineExecutor) : same_settings s s.
Proof. unfold same_settings. repeat split. Qed.

Lemma same_settings_trans (s1 s2 s3 : pipelineExecutor) :
  same_settings s1 s2 -> same_settings s2 s3 -> same_settings s1 s3.
Proof.
  unfold same_settings. intros H1 H2.
  destruct H1 as (?&?&?&?&?&?&?&?&?&?), H2 as (?&?&?&?&?&?&?&?&?&?).
  repeat split; congruence.
Qed.

(** The sweep keeps the process ledger in step with the list: what it
    takes from [runningProcs] is what the removed children had reserved;
    it raises nothing and removes only. *)
Lemma free_loop_ledger (ready : nat -> bool) (i : nat) (s : pipelineExecutor) :
  NoDup (obj_ids (runningChildren s)) ->
  fst (free_loop ready i s) = Ok tt
  /\ NoDup (obj_ids (runningChildren (snd (free_loop ready i s))))
  /\ runningProcs (snd (free_loop ready i s))
     - sum_procs (runningChildren (snd (free_loop ready i s)))
     = runningProcs s - sum_procs (runningChildren s)
  /\ incl (runningChildren (snd (free_loop ready i s))) (runningChildren s)
  /\ same_settings s (snd (free_loop ready i s)).
Proof.
  funelim (free_loop ready i s); intros Hnd.
  - simpl. repeat split; auto using incl_refl, same_settings_refl.
  - auto.
  - destruct (list_remove_spec child (runningChildren s) Hnd
                (nth_error_In _ _ Hnth)) as (l' & Hl' & Hsum & Hnd' & Hincl).
    assert (l' = rest) by congruence. subst l'.
    specialize (H Hnd').
    destruct H as (Hok & Hnd2 & Hled & Hinc & Hset).
    split; [exact Hok|]. split; [exact Hnd2|]. split; [|split].
    + rewrite Hled. simpl. lia.
    + intros z Hz. apply Hincl. apply Hinc in Hz. exact Hz.
    + eapply same_settings_trans; [|exact Hset].
      unfold same_settings. simpl. repeat split.
  - exfalso.
    destruct (list_remove_spec child (runningChildren s) Hnd
                (nth_error_In _ _ Hnth)) as (l' & Hl' & _).
    congruence.
Qed.

(** C2.  In the state [both_finished] both children are complete, and one
    call of [free_resources] returns with the second still in
    [runningChildren] and its 3 GB and one process still reserved: taking
    the first child out of the list moves the second into the position the
    loop has just left. *)
Theorem free_resources_leaves_a_ready_child :
  map ChildProcess.stage (runningChildren (self both_finished)) = [1; 2]
  /\ forallb (fun c => result_ready (pool both_finished) (ChildProcess.result c))
             (runningChildren (self both_finished)) = true
  /\ fst (free_resources both_finished) = Ok tt
  /\ map ChildProcess.stage
         (runningChildren (self (snd (free_resources both_finished)))) = [2]
  /\ forallb (fun c => result_ready (pool (snd (free_resources both_finished)))
                                    (ChildProcess.result c))
             (runningChildren (self (snd (free_resources both_finished)))) = true
  /\ (runningMem (self (snd (free_resources both_finished))) == 3)%Q
  /\ runningProcs (self (snd (free_resources both_finished))) = 1.
Proof.
  repeat split; vm_compute; reflexivity.
Qed.

(** ** Outcome reports *)

Lemma outcome_reports_app (tr1 tr2 : list event) :
  outcome_reports (tr1 ++ tr2) = outcome_reports tr1 ++ outcome_reports tr2.
Proof.
  induction tr1 as [|e tr1 IH]; simpl; [reflexivity|].
  destruct e as [r| | | | | | | | | |]; try exact IH.
  destruct r; simpl; try exact IH; rewrite IH; reflexivity.
Qed.

Lemma notifications_app (l1 l2 : list action) :
  notifications (l1 ++ l2) = notifications l1 ++ notifications l2.
Proof.
  induction l1 as [|a l1 IH]; simpl; [reflexivity|].
  destruct a; simpl; try exact IH. rewrite IH. reflexivity.
Qed.

Lemma notifyStageTerminated_trace (ans : Result unit) (i : Z)
    (returncode : option Z) (w : World) :
  notifyStageTerminated ans i returncode w =
  (match ans with Ok _ => Ok tt | Raise e => Raise e end,
   mkWorld (self w) (pool w)
     (trace w ++ Rpc (match returncode with
                      | Some 0 => setStageFinished i
                      | _ => setStageFailed i
                      end)
              :: match ans with Ok _ => [EventSet] | Raise _ => [] end)
     (next_obj w)).
Proof.
  unfold notifyStageTerminated, bind, emit, answer.
  destruct returncode as [rc|]; [destruct (rc =? 0) eqn:E|].
  - apply Z.eqb_eq in E. subst rc.
    destruct ans as [[]|e]; simpl; rewrite <- ?app_assoc; reflexivity.
  - destruct rc; [discriminate| |];
      destruct ans as [[]|e]; simpl; rewrite <- ?app_assoc; reflexivity.
  - destruct ans as [[]|e]; simpl; rewrite <- ?app_assoc; reflexivity.
Qed.

Lemma perform_all_reports (l : list action) (w : World) :
  fst (perform_all l w) = Ok tt
  /\ outcome_reports (trace (snd (perform_all l w))) =
     outcome_reports (trace w) ++ reported l.
Proof.
  revert w. induction l as [|a l IH]; intros w; simpl.
  - rewrite app_nil_r. split; reflexivity.
  - unfold bind.
    destruct a as [e|pid|pid|i rc ans]; simpl.
    + specialize (IH (mkWorld (self w) (pool w) (trace w ++ [e]) (next_obj w))).
      simpl in IH. destruct IH as [IH1 IH2]. split; [exact IH1|].
      rewrite IH2, outcome_reports_app, <- app_assoc. reflexivity.
    + match goal with |- context [perform_all l ?w'] => exact (IH w') end.
    + match goal with |- context [perform_all l ?w'] => exact (IH w') end.
    + rewrite notifyStageTerminated_trace. cbn [snd].
      match goal with |- context [perform_all l ?w'] => specialize (IH w') end.
      simpl in IH. destruct IH as [IH1 IH2]. split; [exact IH1|].
      rewrite IH2, outcome_reports_app.
      rewrite <- app_assoc. f_equal.
      destruct rc as [[| |]|], ans; reflexivity.
Qed.

(** C3.  [notifyStageTerminated] sends [setStageFinished] exactly when it is
    given return code 0 and [setStageFailed] for every other return code
    and for [None].  [runStage] calls it once for a stage it could mark as
    started: with the child's return code when the inner block ran to its
    end, with nothing when anything in it raised.  So a run of [runStage]
    reports [setStageFinished] exactly when nothing raised and the child
    exited with 0, and [setStageFailed] otherwise. *)
Theorem stage_outcome_report (o : StageRun) (i : Z) (w : World) :
  (forall (ans : Result unit) (returncode : option Z),
      (outcome_reports (trace (snd (notifyStageTerminated ans i returncode w))) =
       outcome_reports (trace w) ++ [setStageFinished i] <-> returncode = Some 0)
      /\ (outcome_reports (trace (snd (notifyStageTerminated ans i returncode w))) =
          outcome_reports (trace w) ++ [setStageFailed i] <-> returncode <> Some 0))
  /\ notifications (fst (runStage o i)) =
     match run_setStageStarted o with
     | Ok _ => [(i, if body_completes o then Some (run_returncode o) else None)]
     | Raise _ => []
     end
  /\ outcome_reports (trace (snd (perform_all (fst (runStage o i)) w))) =
     outcome_reports (trace w) ++
     match run_setStageStarted o with
     | Ok _ => if body_completes o && (run_returncode o =? 0)
               then [setStageFinished i] else [setStageFailed i]
     | Raise _ => []
     end.
Proof.
  split; [|split].
  - intros ans returncode. rewrite notifyStageTerminated_trace. cbn [snd trace].
    rewrite outcome_reports_app.
    assert (Hinj : forall (l : list rpc) a b, l ++ [a] = l ++ [b] -> a = b).
    { intros l a b H. apply app_inv_head in H. congruence. }
    destruct returncode as [[| |]|], ans; simpl; split; split; intros H;
      try reflexivity; try congruence;
      try (apply Hinj in H; discriminate).
  - unfold runStage, runStage_body, body_completes.
    destruct o as [st cmd lf op po rc cl nt gm gp]; simpl.
    destruct st, cmd, lf, op, po, cl, nt, gm, gp; reflexivity.
  - rewrite (proj2 (perform_all_reports _ _)). f_equal.
    unfold runStage, runStage_body, body_completes.
    destruct o as [st cmd lf op po rc cl nt gm gp]; simpl.
    destruct st, cmd, lf, op, po, cl, nt, gm, gp; simpl; try reflexivity;
      destruct rc; reflexivity.
Qed.

(** ** Timers *)

Lemma Qfloor_ge_iff (z : Z) (q : Q) : z <= Qfloor q <-> (inject_Z z <= q)%Q.
Proof.
  split; intro H.
  - apply Qle_trans with (inject_Z (Qfloor q)).
    + rewrite <- Zle_Qle. exact H.
    + apply Qfloor_le.
  - rewrite <- (Qfloor_Z z). apply Qfloor_resp_le. exact H.
Qed.

Lemma whole_minutes_exceed (limit : Z) (x : Q) :
  limit < Qfloor (x / inject_Z 60) <-> (inject_Z ((limit + 1) * 60) <= x)%Q.
Proof.
  rewrite <- Z.le_succ_l. unfold Z.succ. rewrite Qfloor_ge_iff.
  rewrite inject_Z_mult.
  split; intro H.
  - apply (Qmult_le_r _ _ (inject_Z 60)) in H; [|reflexivity].
    assert (E : (x / inject_Z 60 * inject_Z 60 == x)%Q) by (field; discriminate).
    rewrite E in H. exact H.
  - apply Qle_shift_div_l; [reflexivity|exact H].
Qed.

(** [is_time_to_drain] answers true exactly when a limit is set and the
    whole minutes since the connection exceed it. *)
Lemma is_time_to_drain_true (now : Q) (s : pipelineExecutor) :
  is_time_to_drain now s = Ok true <->
  exists limit connectedAt,
    time_to_accept_jobs s = Some limit
    /\ connection_time_with_server s = Some connectedAt
    /\ (inject_Z ((limit + 1) * 60) <= now - connectedAt)%Q.
Proof.
  unfold is_time_to_drain, sub_or_TypeError, divmod.
  destruct (time_to_accept_jobs s) as [limit|];
    [destruct (connection_time_with_server s) as [conn|]|].
  - destruct (limit <? Qfloor ((now - conn) / inject_Z 60)) eqn:E.
    + split; [intros _|reflexivity].
      exists limit, conn. repeat split.
      apply whole_minutes_exceed. apply Z.ltb_lt. exact E.
    + split; [discriminate|].
      intros (l' & c' & Hl & Hc & H).
      injection Hl as <-. injection Hc as <-.
      apply whole_minutes_exceed in H. apply Z.ltb_lt in H. congruence.
  - split; [discriminate|]. intros (l' & c' & _ & Hc & _). discriminate.
  - split; [discriminate|]. intros (l' & c' & Hl & _). discriminate.
Qed.

Lemma list_remove_member (x : ChildProcess.t) (l : list ChildProcess.t) :
  In x l -> list_remove x l <> None.
Proof.
  induction l as [|y ys IH]; simpl; intros Hin.
  - contradiction.
  - destruct (same_object y x) eqn:E; [discriminate|].
    destruct Hin as [->|Hin].
    + unfold same_object in E. rewrite Nat.eqb_refl in E. discriminate.
    + destruct (list_remove x ys); [discriminate|]. exfalso. exact (IH Hin eq_refl).
Qed.

(** The sweep always returns, and touches nothing but the ledger and the
    list of children. *)
Lemma free_loop_total (ready : nat -> bool) (i : nat) (s : pipelineExecutor) :
  fst (free_loop ready i s) = Ok tt
  /\ same_settings s (snd (free_loop ready i s)).
Proof.
  funelim (free_loop ready i s).
  - simpl. split; [reflexivity|apply same_settings_refl].
  - assumption.
  - destruct H as [Hok Hset]. split; [exact Hok|].
    eapply same_settings_trans; [|exact Hset].
    unfold same_settings. simpl. repeat split.
  - exfalso. exact (list_remove_member child _ (nth_error_In _ _ Hnth) e).
Qed.

Lemma swept_settings (t : Tick) (w : World) :
  mem (self (swept t w)) = mem (self w)
  /\ procs (self (swept t w)) = procs (self w)
  /\ idle_time (self (swept t w)) = idle_time (self w)
  /\ prev_time (self (swept t w)) = current_time (self w)
  /\ current_time (self (swept t w)) = Some (tick_time t)
  /\ time_to_seppuku (self (swept t w)) = time_to_seppuku (self w)
  /\ time_to_accept_jobs (self (swept t w)) = time_to_accept_jobs (self w)
  /\ connection_time_with_server (self (swept t w))
     = connection_time_with_server (self w).
Proof.
  unfold swept. simpl.
  destruct (free_loop_total (result_ready (pool w)) 0
              (with_current_time (Some (tick_time t))
                 (with_prev_time (current_time (self w)) (self w))))
    as [_ (H1&H2&H3&H4&H5&H6&H7&H8&_)].
  simpl in *. repeat split; assumption.
Qed.

Lemma mainFn_parts (t : Tick) (w : World) :
  mainFn t w = (account_idle ;;; check_timers t) (swept t w).
Proof.
  unfold mainFn.
  unfold bind at 1. unfold update at 1. cbv beta iota.
  unfold bind at 1. unfold update at 1. cbv beta iota.
  unfold bind at 1. unfold free_resources at 1. cbv beta iota.
  simpl self. simpl pool. simpl trace. simpl next_obj.
  unfold swept.
  pose proof (free_loop_total (result_ready (pool w)) 0
                (with_current_time (Some (tick_time t))
                   (with_prev_time (current_time (self w)) (self w)))) as [Hok _].
  destruct (free_loop (result_ready (pool w)) 0
              (with_current_time (Some (tick_time t))
                 (with_prev_time (current_time (self w)) (self w)))) as [r s'].
  simpl in Hok. subst r. simpl snd.
  unfold account_idle, check_timers, fetch.
  unfold bind, get_self, answer, update, ret. simpl.
  destruct (idle s'); simpl.
  - destruct (sub_or_TypeError (current_time s') (prev_time s')); simpl;
      [|reflexivity].
    destruct (mul_or_TypeError (time_to_seppuku s') 60); simpl; [|reflexivity].
    destruct (is_seppuku_time _); [reflexivity|].
    destruct (is_time_to_drain _ _) as [[|]|]; reflexivity.
  - destruct (is_seppuku_time _); [reflexivity|].
    destruct (is_time_to_drain _ _) as [[|]|]; reflexivity.
Qed.

Lemma account_idle_ok (w : World) :
  time_to_seppuku (self w) <> None ->
  current_time (self w) <> None ->
  exists v : Q,
    account_idle w =
    (Ok tt, mkWorld (with_idle_time v (self w)) (pool w) (trace w) (next_obj w)).
Proof.
  intros Hs Hc. unfold account_idle, bind, get_self, answer, update, ret.
  destruct (idle (self w)) eqn:Hidle.
  - unfold idle in Hidle. apply andb_true_iff in Hidle. destruct Hidle as [_ Ht].
    destruct (current_time (self w)) as [c|]; [|congruence].
    destruct (prev_time (self w)) as [p|]; [|discriminate].
    destruct (time_to_seppuku (self w)) as [m|]; [|congruence].
    simpl. eexists. reflexivity.
  - exists (idle_time (self w)). destruct w as [[] ? ? ?]. reflexivity.
Qed.




(** [is_seppuku_time] answers true exactly when a limit is set and the idle
    seconds exceed that many minutes. *)
Lemma is_seppuku_time_true (s : pipelineExecutor) :
  is_seppuku_time s = true <->
  exists minutes : Z,
    time_to_seppuku s = Some minutes
    /\ (inject_Z (minutes * 60) < idle_time s)%Q.
Proof.
  unfold is_seppuku_time.
  destruct (time_to_seppuku s) as [m|].
  - rewrite Qlt_bool_iff. split.
    + intros H. exists m. split; [reflexivity|exact H].
    + intros (m' & Hm & H). injection Hm as <-. exact H.
  - split; [discriminate|]. intros (m' & Hm & _). discriminate.
Qed.

(** When no idle limit is set, the first iteration that finds the executor
    idle raises [TypeError]: the idle seconds are added, then the
    arguments of the debug message multiply [None] by 60. *)
Lemma mainFn_idle_without_limit (t : Tick) (w : World) :
  time_to_seppuku (self w) = None ->
  idle (self (swept t w)) = true ->
  fst (mainFn t w) = Raise TypeError.
Proof.
  intros Hnone Hidle. rewrite mainFn_parts.
  destruct (swept_settings t w) as (_&_&_&_&Hcur&Hsep&_).
  unfold bind at 1. unfold account_idle, bind, get_self, answer, update, ret.
  rewrite Hidle.
  unfold idle in Hidle. apply andb_true_iff in Hidle. destruct Hidle as [_ Ht].
  rewrite Hcur, Hsep, Hnone.
  destruct (prev_time (self (swept t w))); [reflexivity|discriminate].
Qed.

(** No command line gives such an executor: [--time-to-seppuku] is an
    integer with default 1.  An executor that is given
    [time_to_seppuku = None] by hand has an [is_seppuku_time] that is
    false, and yet does not survive idleness: the first iteration returns
    true, the second one, five idle seconds later, raises [TypeError] in
    [mainFn]; [launchExecutor] takes the exception for a failure of the
    loop, unregisters and exits. *)
Remark idle_executor_without_limit_crashes :
  time_to_seppuku (self (new_process options_without_idle_limit)) = None
  /\ (forall s, time_to_seppuku s = None -> is_seppuku_time s = false)
  /\ fst ((connect waiting_launch ;;; mainFn (server_says_wait 1))
            (new_process options_without_idle_limit)) = Ok true
  /\ fst ((connect waiting_launch ;;; mainFn (server_says_wait 1) ;;;
           mainFn (server_says_wait 6))
            (new_process options_without_idle_limit)) = Raise TypeError
  /\ fst (launchExecutor waiting_launch (new_process options_without_idle_limit))
     = Raise (SystemExit (Some 0))
  /\ trace (snd (launchExecutor waiting_launch
                   (new_process options_without_idle_limit)))
     = [Rpc (registerClient 6%Q); Rpc (getCommand 6%Q 2); Rpc unregisterClient].
Proof.
  split; [reflexivity|]. split.
  - intros s Hs. unfold is_seppuku_time. rewrite Hs. reflexivity.
  - repeat split; vm_compute; reflexivity.
Qed.



(** ** Exit status *)

Lemma perform_ok (a : action) (w : World) : fst (perform a w) = Ok tt.
Proof.
  destruct a as [e|pid|pid|i rc ans]; reflexivity.
Qed.

Lemma worker_advance_ok (job : nat) (w : World) : fst (worker_advance job w) = Ok tt.
Proof.
  unfold worker_advance.
  destruct (nth_error (pool w) job) as [t|]; [|reflexivity].
  destruct (pending t); [reflexivity|apply perform_ok].
Qed.

Lemma workers_advance_ok (schedule : list nat) (w : World) :
  fst (workers_advance schedule w) = Ok tt.
Proof.
  revert w. induction schedule as [|job rest IH]; intros w; simpl.
  - reflexivity.
  - unfold bind. pose proof (worker_advance_ok job w) as H.
    destruct (worker_advance job w) as [r w']. simpl in H. subst r. apply IH.
Qed.

(** The loop of [generalShutdownCall] when every [os.kill] returns, and
    when one raises. *)
Lemma kill_all_trace (kill : Z -> Result unit) (pids : list Z) (w : World) :
  Forall (fun pid => kill pid = Ok tt) pids ->
  kill_all kill pids w =
  (Ok tt, mkWorld (self w) (pool w) (trace w ++ map Kill pids) (next_obj w)).
Proof.
  intros Hok. revert w.
  induction Hok as [|pid rest Hpid _ IH]; intros w; simpl.
  - rewrite app_nil_r. destruct w; reflexivity.
  - unfold bind, emit, answer. rewrite Hpid. cbv beta iota.
    rewrite IH. simpl. rewrite <- app_assoc. reflexivity.
Qed.

Lemma kill_all_raises (kill : Z -> Result unit) (before : list Z) (pid : Z)
    (rest : list Z) (e : exn) (w : World) :
  Forall (fun p => kill p = Ok tt) before ->
  kill pid = Raise e ->
  kill_all kill (before ++ pid :: rest) w =
  (Raise e,
   mkWorld (self w) (pool w) (trace w ++ map Kill (before ++ [pid])) (next_obj w)).
Proof.
  intros Hok Hpid. revert w.
  induction Hok as [|p before Hp _ IH]; intros w; simpl.
  - unfold bind, emit, answer. rewrite Hpid. reflexivity.
  - unfold bind, emit, answer. rewrite Hp. cbv beta iota.
    rewrite IH. simpl. rewrite <- app_assoc. reflexivity.
Qed.

Lemma kill_all_ok (kill : Z -> Result unit) (pids : list Z) (w : World) :
  Forall (fun pid => kill pid = Ok tt) pids ->
  fst (kill_all kill pids w) = Ok tt.
Proof.
  intros Hok. rewrite (kill_all_trace kill pids w Hok). reflexivity.
Qed.

Lemma unregister_with_server_ok (w : World) :
  fst (unregister_with_server (Ok tt) w) = Ok tt.
Proof.
  unfold unregister_with_server, bind, get_self. simpl.
  destruct (registered_with_server (self w)); reflexivity.
Qed.

Lemma generalShutdownCall_ok (kill : Z -> Result unit) (w : World) :
  Forall (fun pid => kill pid = Ok tt) (current_running_job_pids (self w)) ->
  fst (generalShutdownCall kill (Ok tt) w) = Ok tt.
Proof.
  intros Hok. unfold generalShutdownCall, bind, get_self. simpl.
  rewrite (kill_all_trace kill _ w Hok). apply unregister_with_server_ok.
Qed.

(** When an [os.kill] raises, [generalShutdownCall] ends there: the pids
    behind it get no signal, the flag stays as it is and nothing is sent to
    the server. *)
Lemma generalShutdownCall_raises (kill : Z -> Result unit) (ans : Result unit)
    (before : list Z) (pid : Z) (rest : list Z) (e : exn) (w : World) :
  current_running_job_pids (self w) = before ++ pid :: rest ->
  Forall (fun p => kill p = Ok tt) before ->
  kill pid = Raise e ->
  generalShutdownCall kill ans w =
  (Raise e,
   mkWorld (self w) (pool w) (trace w ++ map Kill (before ++ [pid])) (next_obj w)).
Proof.
  intros Hpids Hok Hpid. unfold generalShutdownCall, bind at 1, get_self.
  unfold bind at 1. rewrite Hpids.
  rewrite (kill_all_raises kill before pid rest e w Hok Hpid). reflexivity.
Qed.

Lemma perform_all_ok (l : list action) (w : World) :
  fst (perform_all l w) = Ok tt.
Proof.
  revert w. induction l as [|a rest IH]; intros w; simpl.
  - reflexivity.
  - unfold bind. pose proof (perform_ok a w) as H.
    destruct (perform a w) as [r w']. simpl in H. subst r. apply IH.
Qed.

Lemma completeAndExitChildren_ok (w : World) :
  fst (completeAndExitChildren (Ok tt) w) = Ok tt.
Proof.
  unfold completeAndExitChildren, bind, get_self. simpl.
  destruct (0 <? Z.of_nat (length (current_running_job_pids (self w)))).
  - unfold pool_join, bind, emit. simpl.
    match goal with |- context [perform_all ?l ?w0] =>
      pose proof (perform_all_ok l w0) as H;
      destruct (perform_all l w0) as [r w'] end.
    simpl in H. subst r. apply unregister_with_server_ok.
  - apply unregister_with_server_ok.
Qed.

(** C6, as stated, fails twice: without [--num-executors] the program
    prints its message, starts no executor and ends with status 0, and an
    executor whose main loop raises ends with status 0 as well. *)
Lemma exit_status_is_zero_on_errors :
  ~ (forall (c : CommandLine) (runs : nat -> Launch),
        Options.num_exec (parse_known_args c) < 0 ->
        exit_status (program_result (main c runs)) <> 0)
  /\ ~ (forall (l : Launch) (w : World) (e : exn),
           fst (mainLoop (launch_ticks l) w) = Raise e -> is_Exception e = true ->
           exit_status (fst (run_executor l w)) <> 0)
  /\ (Options.num_exec (parse_known_args no_arguments) < 0
   /\ program_result (main no_arguments (fun _ => fatal_launch))
      = Raise (SystemExit None)
   /\ exit_status (program_result (main no_arguments (fun _ => fatal_launch))) = 0)
  /\ (fst (mainLoop (launch_ticks fatal_launch)
             (snd (connect fatal_launch (new_process scenario_options))))
      = Raise CommunicationError
      /\ exit_status (fst (launchExecutor fatal_launch
                             (new_process scenario_options))) = 0).
Proof.
  split; [|split].
  - intros H.
    apply (H no_arguments (fun _ => fatal_launch)); reflexivity.
  - intros H.
    apply (H fatal_launch
             (snd (connect fatal_launch (new_process scenario_options)))
             CommunicationError); reflexivity.
  - repeat split; vm_compute; reflexivity.
Qed.

(** C6, amended.  The program itself always ends with status 0, since it
    only joins its executor processes.  Without [--num-executors] the
    program prints the message, starts no executor (no server is looked up)
    and exits through [sys.exit()].  An executor that has connected ends
    with status 0 however its main loop ended (returned, interrupted, or
    raised), provided the shutdown itself does not raise: every [os.kill]
    returns and the request to unregister is answered.  When the loop was
    interrupted or raised and an [os.kill] of the shutdown raises, that
    exception leaves [launchExecutor], nothing is sent to the server, and
    for an ordinary exception the status is 1. *)
Theorem exit_status_always_zero (c : CommandLine) (runs : nat -> Launch)
    (l : Launch) (w : World) :
  exit_status (program_result (main c runs)) = 0
  /\ (Options.num_exec (parse_known_args c) < 0 ->
   exit_status (program_result (main c runs)) = 0
   /\ program_output (main c runs) = [Stdout no_executors_message]
   /\ program_executors (main c runs) = [])
  /\ (launch_unregisterClient l = Ok tt ->
      Forall (fun pid => launch_kill l pid = Ok tt)
             (current_running_job_pids
                (self (snd (mainLoop (launch_ticks l) w)))) ->
      (forall code, fst (mainLoop (launch_ticks l) w) <> Raise (SystemExit code)) ->
      exit_status (fst (run_executor l w)) = 0)
  /\ (forall (e e' : exn) (before : list Z) (pid : Z) (rest : list Z),
         fst (mainLoop (launch_ticks l) w) = Raise e ->
         (forall code, e <> SystemExit code) ->
         current_running_job_pids (self (snd (mainLoop (launch_ticks l) w)))
         = before ++ pid :: rest ->
         Forall (fun p => launch_kill l p = Ok tt) before ->
         launch_kill l pid = Raise e' ->
         fst (run_executor l w) = Raise e'
         /\ trace (snd (run_executor l w))
            = trace (snd (mainLoop (launch_ticks l) w))
              ++ map Kill (before ++ [pid])
         /\ (is_Exception e' = true ->
             exit_status (fst (run_executor l w)) = 1)).
Proof.
  split; [|split; [|split]].
  - unfold main, noExecSpecified.
    destruct (Options.num_exec (parse_known_args c) <? 0); reflexivity.
  - intros Hneg. unfold main, noExecSpecified.
    apply Z.ltb_lt in Hneg. rewrite Hneg. simpl. repeat split.
  - intros Hun Hkill Hloop. unfold run_executor. rewrite Hun.
    destruct (mainLoop (launch_ticks l) w) as [r w'] eqn:E.
    cbn [fst snd] in Hloop, Hkill.
    assert (Hshut : exit_status
                      (fst ((generalShutdownCall (launch_kill l) (Ok tt) ;;;
                             @sys_exit unit (Some 0)) w'))
                    = 0).
    { unfold bind. pose proof (generalShutdownCall_ok (launch_kill l) w' Hkill) as H.
      destruct (generalShutdownCall (launch_kill l) (Ok tt) w') as [r' w''].
      simpl in H. subst r'. reflexivity. }
    destruct r as [[]|e].
    + unfold bind. pose proof (completeAndExitChildren_ok w') as H.
      destruct (completeAndExitChildren (Ok tt) w') as [r' w'']. simpl in H.
      subst r'. reflexivity.
    + destruct e; try exact Hshut.
      exfalso. exact (Hloop code eq_refl).
  - intros e e' before pid rest Hloop Hexit Hpids Hok Hpid.
    unfold run_executor.
    destruct (mainLoop (launch_ticks l) w) as [r w'] eqn:E.
    cbn [fst snd] in Hloop, Hpids. subst r.
    assert (Hshut :
              (generalShutdownCall (launch_kill l) (launch_unregisterClient l) ;;;
               @sys_exit unit (Some 0)) w'
              = (Raise e',
                 mkWorld (self w') (pool w')
                         (trace w' ++ map Kill (before ++ [pid])) (next_obj w'))).
    { unfold bind.
      rewrite (generalShutdownCall_raises _ _ before pid rest e' w' Hpids Hok Hpid).
      reflexivity. }
    assert (Hend : forall r, r = (Raise e',
                 mkWorld (self w') (pool w')
                         (trace w' ++ map Kill (before ++ [pid])) (next_obj w')) ->
              fst r = @Raise unit e'
              /\ trace (snd r) = trace w' ++ map Kill (before ++ [pid])
              /\ (is_Exception e' = true -> exit_status (fst r) = 1)).
    { intros r ->. cbn [fst snd trace]. repeat split.
      intros He'. destruct e'; try reflexivity; discriminate. }
    destruct e; try (apply Hend; exact Hshut).
    exfalso. exact (Hexit code eq_refl).
Qed.

Lemma exit_status_always_zero_witness :
  (exit_status (program_result (main no_arguments (fun _ => fatal_launch))) = 0
   /\ program_output (main no_arguments (fun _ => fatal_launch))
      = [Stdout no_executors_message]
   /\ program_executors (main no_arguments (fun _ => fatal_launch)) = [])
  /\ exit_status
       (fst (run_executor fatal_launch
               (snd (connect fatal_launch (new_process scenario_options))))) = 0
  /\ (fst (run_executor child_gone_launch
             (snd (connect child_gone_launch (new_process scenario_options))))
      = Raise OSError
      /\ trace (snd (run_executor child_gone_launch
                       (snd (connect child_gone_launch
                               (new_process scenario_options)))))
         = trace (snd (mainLoop (launch_ticks child_gone_launch)
                         (snd (connect child_gone_launch
                                 (new_process scenario_options)))))
           ++ map Kill ([] ++ [4001])
      /\ (is_Exception OSError = true ->
          exit_status
            (fst (run_executor child_gone_launch
                    (snd (connect child_gone_launch
                            (new_process scenario_options))))) = 1)).
Proof.
  split; [|split].
  - apply (proj1 (proj2 (exit_status_always_zero no_arguments
                           (fun _ => fatal_launch)
                           fatal_launch (new_process scenario_options)))).
    vm_compute. reflexivity.
  - apply (proj1 (proj2 (proj2 (exit_status_always_zero no_arguments
                           (fun _ => fatal_launch) fatal_launch
                           (snd (connect fatal_launch
                                   (new_process scenario_options))))))).
    + reflexivity.
    + vm_compute. repeat constructor.
    + intros code. vm_compute. discriminate.
  - apply (proj2 (proj2 (proj2 (exit_status_always_zero no_arguments
                           (fun _ => fatal_launch) child_gone_launch
                           (snd (connect child_gone_launch
                                   (new_process scenario_options))))))
             CommunicationError OSError [] 4001 []).
    + vm_compute. reflexivity.
    + intros code. discriminate.
    + vm_compute. reflexivity.
    + constructor.
    + reflexivity.
Defined.

(** ** Unregistering next to the heartbeat *)

Lemma heartbeats_app (tr1 tr2 : list event) :
  heartbeats (tr1 ++ tr2) = (heartbeats tr1 + heartbeats tr2)%nat.
Proof.
  induction tr1 as [|e tr1 IH]; simpl; [reflexivity|].
  destruct e as [r| | | | | | | | | |]; try exact IH.
  destruct r; simpl; try exact IH. rewrite IH. reflexivity.
Qed.

(** No step of either thread sets the flag. *)
Lemma step_keeps_flag_unset (c c' : Threads) :
  step c c' ->
  registered_with_server (self (world c)) = false ->
  registered_with_server (self (world c')) = false.
Proof.
  intros Hstep Hflag. destruct Hstep as [c ans _|c _]; simpl.
  - destruct (hb c); simpl; try exact Hflag.
    + rewrite Hflag. exact Hflag.
    + destruct ans; exact Hflag.
  - destruct (un c); simpl; try exact Hflag; try reflexivity.
    rewrite Hflag. exact Hflag.
Qed.

Lemma step_past_unset (c c' : Threads) :
  step c c' -> past_unset c -> past_unset c'.
Proof.
  intros Hstep Hinv. unfold past_unset in *.
  destruct Hstep as [c ans _|c _]; simpl.
  - intros Hun. specialize (Hinv Hun).
    destruct (hb c); simpl; try exact Hinv.
    + rewrite Hinv. exact Hinv.
    + destruct ans; exact Hinv.
  - destruct (un c) eqn:E; simpl; try discriminate.
    + destruct (registered_with_server (self (world c))); discriminate.
    + reflexivity.
Qed.

Lemma steps_past_unset (c c' : Threads) :
  steps c c' -> past_unset c -> past_unset c'.
Proof.
  induction 1 as [c|c c' c'' Hstep _ IH]; intros Hinv.
  - exact Hinv.
  - apply IH. exact (step_past_unset _ _ Hstep Hinv).
Qed.

Lemma app_one_neq_self {A} (l : list A) (x : A) : l ++ [x] <> l.
Proof.
  intros H. apply (f_equal (@length A)) in H.
  rewrite length_app in H. simpl in H. lia.
Qed.

(** The step that sends [unregisterClient] is the one at [UnCall]. *)
Lemma step_sends_unregister (c c' : Threads) :
  step c c' ->
  trace (world c') = trace (world c) ++ [Rpc unregisterClient] ->
  un c = UnCall.
Proof.
  intros Hstep Htr. destruct Hstep as [c ans _|c _]; simpl in Htr.
  - exfalso. destruct (hb c); simpl in Htr.
    + destruct (registered_with_server (self (world c))); simpl in Htr;
        symmetry in Htr; exact (app_one_neq_self _ _ Htr).
    + destruct ans; simpl in Htr; apply app_inv_head in Htr; discriminate.
    + symmetry in Htr; exact (app_one_neq_self _ _ Htr).
    + symmetry in Htr; exact (app_one_neq_self _ _ Htr).
  - destruct (un c); simpl in Htr; try reflexivity; exfalso.
    + destruct (registered_with_server (self (world c))); simpl in Htr;
        symmetry in Htr; exact (app_one_neq_self _ _ Htr).
    + symmetry in Htr; exact (app_one_neq_self _ _ Htr).
    + symmetry in Htr; exact (app_one_neq_self _ _ Htr).
Qed.

(** With the flag unset and the heartbeat not between its test and its
    request, no step adds a heartbeat. *)
Lemma step_no_heartbeat (c c' : Threads) :
  step c c' ->
  registered_with_server (self (world c)) = false -> hb c <> HbCall ->
  hb c' <> HbCall
  /\ heartbeats (trace (world c')) = heartbeats (trace (world c)).
Proof.
  intros Hstep Hflag Hpc. destruct Hstep as [c ans _|c _]; simpl.
  - destruct (hb c); simpl.
    + rewrite Hflag. simpl. split; [discriminate|reflexivity].
    + congruence.
    + split; [discriminate|reflexivity].
    + split; [discriminate|reflexivity].
  - split; [exact Hpc|].
    destruct (un c); simpl; try reflexivity.
    + destruct (registered_with_server (self (world c))); reflexivity.
    + rewrite heartbeats_app. simpl. lia.
Qed.

Lemma steps_no_heartbeat (c c' : Threads) :
  steps c c' ->
  registered_with_server (self (world c)) = false -> hb c <> HbCall ->
  heartbeats (trace (world c')) = heartbeats (trace (world c)).
Proof.
  induction 1 as [c|c c' c'' Hstep _ IH]; intros Hflag Hpc.
  - reflexivity.
  - destruct (step_no_heartbeat _ _ Hstep Hflag Hpc) as [Hpc' Hsame].
    rewrite IH; [exact Hsame| |exact Hpc'].
    exact (step_keeps_flag_unset _ _ Hstep Hflag).
Qed.

(** C7.  [unregister_with_server], called on a registered executor, assigns
    False to the flag and then sends [unregisterClient]; cut into its
    steps and run next to the heartbeat thread, the step that sends the
    request always finds the flag unset, and from a state in which the
    flag is unset and the heartbeat has not already found it true the
    heartbeat sends no further request. *)
Theorem unregister_unsets_flag_first :
  (forall (ans : Result unit) (w : World),
      registered_with_server (self w) = true ->
      snd (unregister_with_server ans w) = unregister_alone w
      /\ registered_with_server (self (unregister_alone w)) = false
      /\ trace (unregister_alone w) = trace w ++ [Rpc unregisterClient])
  /\ (forall c0 c c' : Threads,
         un c0 = UnTest -> steps c0 c -> step c c' ->
         trace (world c') = trace (world c) ++ [Rpc unregisterClient] ->
         registered_with_server (self (world c)) = false)
  /\ (forall c c' : Threads,
         registered_with_server (self (world c)) = false -> hb c <> HbCall ->
         steps c c' ->
         heartbeats (trace (world c')) = heartbeats (trace (world c))).
Proof.
  split; [|split].
  - intros ans w Hreg.
    unfold unregister_with_server, unregister_alone, unregister_step,
      bind, get_self, update, emit, answer.
    rewrite Hreg. simpl. destruct ans; repeat split.
  - intros c0 c c' Hstart Hsteps Hstep Htr.
    apply (steps_past_unset c0 c Hsteps).
    + unfold past_unset. rewrite Hstart. discriminate.
    + exact (step_sends_unregister c c' Hstep Htr).
  - intros c c' Hflag Hpc Hsteps.
    exact (steps_no_heartbeat c c' Hsteps Hflag Hpc).
Qed.

Lemma unregister_unsets_flag_first_witness :
  registered_with_server
    (self (world (after 2 unregister_moves shutting_down))) = false
  /\ heartbeats (trace (world (after 2 heartbeat_moves
                                 (after 3 unregister_moves shutting_down))))
     = heartbeats (trace (world (after 2 unregister_moves shutting_down))).
Proof.
  assert (H1 : step shutting_down (after 1 unregister_moves shutting_down))
    by (apply step_unregister; discriminate).
  assert (H2 : step (after 1 unregister_moves shutting_down)
                    (after 2 unregister_moves shutting_down))
    by (apply (step_unregister (after 1 unregister_moves shutting_down));
        discriminate).
  assert (H3 : step (after 2 unregister_moves shutting_down)
                    (after 3 unregister_moves shutting_down))
    by (apply (step_unregister (after 2 unregister_moves shutting_down));
        discriminate).
  assert (H4 : step (after 3 unregister_moves shutting_down)
                    (after 1 heartbeat_moves
                       (after 3 unregister_moves shutting_down)))
    by (apply (step_heartbeat (after 3 unregister_moves shutting_down) (Ok tt));
        discriminate).
  assert (H5 : step (after 1 heartbeat_moves
                       (after 3 unregister_moves shutting_down))
                    (after 2 heartbeat_moves
                       (after 3 unregister_moves shutting_down)))
    by (apply (step_heartbeat
                 (after 1 heartbeat_moves
                    (after 3 unregister_moves shutting_down)) (Ok tt));
        discriminate).
  destruct unregister_unsets_flag_first as (_ & Hfirst & Hquiet).
  split.
  - apply (Hfirst shutting_down (after 2 unregister_moves shutting_down)
             (after 3 unregister_moves shutting_down)).
    + reflexivity.
    + exact (steps_step _ _ _ H1 (steps_step _ _ _ H2 (steps_refl _))).
    + exact H3.
    + reflexivity.
  - apply Hquiet.
    + reflexivity.
    + discriminate.
    + exact (steps_step _ _ _ H3
               (steps_step _ _ _ H4 (steps_step _ _ _ H5 (steps_refl _)))).
Defined.

(** ** Teardown *)

(** With no pid in [current_running_job_pids], [completeAndExitChildren]
    neither closes nor joins the pool: it unregisters at once and leaves
    the tasks of the pool as they are. *)
Lemma completeAndExitChildren_without_pids (ans : Result unit) (w : World) :
  current_running_job_pids (self w) = [] ->
  registered_with_server (self w) = true ->
  snd (completeAndExitChildren ans w) =
  mkWorld (with_registered_with_server false (self w)) (pool w)
          (trace w ++ [Rpc unregisterClient]) (next_obj w).
Proof.
  intros Hpids Hreg.
  unfold completeAndExitChildren, unregister_with_server,
    bind, get_self, update, emit, answer, ret.
  rewrite Hpids. simpl. rewrite Hreg. simpl. destruct ans; reflexivity.
Qed.

(** The actions of the workers leave the pool and the flag alone and only
    add to the trace. *)
Lemma perform_all_frame (l : list action) (w : World) :
  pool (snd (perform_all l w)) = pool w
  /\ registered_with_server (self (snd (perform_all l w)))
     = registered_with_server (self w)
  /\ exists tr, trace (snd (perform_all l w)) = trace w ++ tr.
Proof.
  revert w. induction l as [|a rest IH]; intros w; simpl.
  - split; [reflexivity|]. split; [reflexivity|].
    exists []. rewrite app_nil_r. reflexivity.
  - unfold bind.
    assert (Ha : fst (perform a w) = Ok tt
                 /\ pool (snd (perform a w)) = pool w
                 /\ registered_with_server (self (snd (perform a w)))
                    = registered_with_server (self w)
                 /\ exists tr, trace (snd (perform a w)) = trace w ++ tr).
    { split; [apply perform_ok|].
      destruct a as [e|pid|pid|i rc]; simpl.
      - repeat split. exists [e]. reflexivity.
      - repeat split. exists []. rewrite app_nil_r. reflexivity.
      - repeat split. exists []. rewrite app_nil_r. reflexivity.
      - rewrite notifyStageTerminated_trace. simpl. repeat split.
        eexists. reflexivity. }
    destruct (perform a w) as [r w1]. simpl in Ha.
    destruct Ha as (-> & Hp & Hr & tr1 & Ht).
    destruct (IH w1) as (Hp' & Hr' & tr2 & Ht').
    split; [congruence|]. split; [congruence|].
    exists (tr1 ++ tr2). rewrite Ht', Ht, app_assoc. reflexivity.
Qed.

(** With a pid in [current_running_job_pids], [completeAndExitChildren]
    closes and joins the pool first: when [unregisterClient] is sent no
    task is outstanding. *)
Lemma completeAndExitChildren_with_pids (ans : Result unit) (w : World) :
  current_running_job_pids (self w) <> [] ->
  registered_with_server (self w) = true ->
  forallb (fun t => negb (outstanding t))
          (pool (snd (completeAndExitChildren ans w))) = true
  /\ exists tr,
      trace (snd (completeAndExitChildren ans w)) =
      trace w ++ [PoolClose] ++ tr ++ [PoolJoin; Rpc unregisterClient].
Proof.
  intros Hpids Hreg.
  assert (Htest : (0 <? Z.of_nat (length (current_running_job_pids (self w))))
                  = true).
  { apply Z.ltb_lt. destruct (current_running_job_pids (self w));
      [congruence|simpl; lia]. }
  set (w0 := mkWorld (self w)
               (map (fun t => mkTask (task_stage t) []) (pool w))
               (trace w ++ [PoolClose]) (next_obj w)).
  pose proof (perform_all_ok (concat (map pending (pool w))) w0) as Hok.
  destruct (perform_all_frame (concat (map pending (pool w))) w0)
    as (Hp & Hr & tr & Ht).
  assert (Heq : completeAndExitChildren ans w =
                unregister_with_server ans
                  (mkWorld (self (snd (perform_all (concat (map pending (pool w))) w0)))
                           (pool (snd (perform_all (concat (map pending (pool w))) w0)))
                           (trace (snd (perform_all (concat (map pending (pool w))) w0))
                            ++ [PoolJoin])
                           (next_obj (snd (perform_all (concat (map pending (pool w))) w0))))).
  { unfold completeAndExitChildren, bind, get_self. rewrite Htest.
    unfold pool_join, bind, emit. simpl. fold w0.
    destruct (perform_all (concat (map pending (pool w))) w0) as [r w1].
    simpl in Hok. subst r. reflexivity. }
  rewrite Heq. clear Heq.
  destruct (perform_all (concat (map pending (pool w))) w0) as [r w1].
  simpl in Hok, Hp, Hr, Ht. subst r.
  unfold unregister_with_server, bind, get_self, update, emit, answer.
  simpl. rewrite Hr, Hreg. simpl.
  assert (Hdone : forallb (fun t => negb (outstanding t)) (pool w1) = true).
  { rewrite Hp. apply forallb_forall. intros t Ht'.
    apply in_map_iff in Ht'. destruct Ht' as (t0 & <- & _). reflexivity. }
  destruct ans; simpl; (split; [exact Hdone|]);
    exists tr; rewrite Ht; rewrite <- !app_assoc; reflexivity.
Qed.

(** C8.  In the run [early_shutdown] the main loop ends normally while the
    task of stage 1 is in the pool and no pid is registered.
    [launchExecutor] then sends [unregisterClient] without closing or
    joining the pool: the task is still outstanding when the executor has
    unregistered and shut its daemon down, and the stage sends no report.
    In the run [shutdown_while_running], which differs only in that the
    pid is registered, the pool is joined and the stage reports before
    [unregisterClient]. *)
Theorem unregisters_before_unspawned_stage_ran :
  (fst ((connect early_shutdown ;;; mainLoop (launch_ticks early_shutdown))
          (new_process scenario_options)) = Ok tt
   /\ current_running_job_pids (self (at_loop_exit early_shutdown)) = []
   /\ map outstanding (pool (at_loop_exit early_shutdown)) = [true]
   /\ map ChildProcess.stage (runningChildren (self (at_loop_exit early_shutdown)))
      = [1])
  /\ (fst (launchExecutor early_shutdown (new_process scenario_options)) = Ok tt
      /\ trace (snd (launchExecutor early_shutdown (new_process scenario_options)))
         = [Rpc (registerClient 6%Q); Rpc (getCommand 6%Q 2);
            Rpc (getStageMem 1); Rpc (getStageProcs 1); PoolApplyAsync 1;
            Rpc (getCommand 3%Q 1);
            Rpc unregisterClient; DaemonShutdown]
      /\ map outstanding
             (pool (snd (launchExecutor early_shutdown
                           (new_process scenario_options)))) = [true])
  /\ (trace (snd (launchExecutor shutdown_while_running
                    (new_process scenario_options)))
      = [Rpc (registerClient 6%Q); Rpc (getCommand 6%Q 2);
         Rpc (getStageMem 1); Rpc (getStageProcs 1); PoolApplyAsync 1;
         Rpc (setStageStarted 1); Rpc (getStageCommand 1);
         Rpc (getStageLogfile 1); LogHeader 1 "true"; Popen 4001;
         Rpc (getCommand 3%Q 1);
         PoolClose; Communicate 4001; Rpc (setStageFinished 1); EventSet;
         Rpc (getStageMem 1); Rpc (getStageProcs 1); PoolJoin;
         Rpc unregisterClient; DaemonShutdown]
      /\ map outstanding
             (pool (snd (launchExecutor shutdown_while_running
                           (new_process scenario_options)))) = [false]).
Proof.
  repeat split; vm_compute; reflexivity.
Qed.

(** ** Idleness *)

Lemma sum_procs_app (l1 l2 : list ChildProcess.t) :
  sum_procs (l1 ++ l2) = sum_procs l1 + sum_procs l2.
Proof.
  induction l1 as [|c l1 IH]; simpl; [reflexivity|]. rewrite IH. lia.
Qed.

Lemma sum_procs_zero (l : list ChildProcess.t) :
  Forall (fun c => 1 <= ChildProcess.procs c) l -> sum_procs l = 0 -> l = [].
Proof.
  intros Hall Hsum.
  assert (Hlen : Z.of_nat (length l) <= sum_procs l).
  { clear Hsum. induction Hall as [|c l Hc _ IH]; [simpl; lia|].
    change (sum_procs (c :: l)) with (ChildProcess.procs c + sum_procs l).
    change (length (c :: l)) with (S (length l)).
    rewrite Nat2Z.inj_succ. lia. }
  destruct l; [reflexivity|].
  change (length (t :: l)) with (S (length l)) in Hlen.
  rewrite Nat2Z.inj_succ in Hlen. lia.
Qed.

Lemma ledger_ok_swept (t : Tick) (w : World) :
  ledger_ok (self w) (next_obj w) ->
  ledger_ok (self (swept t w)) (next_obj (swept t w)).
Proof.
  intros (Hnd & Hlt & Hsum & Hpos & Hidle).
  unfold swept. simpl.
  set (s0 := with_current_time (Some (tick_time t))
               (with_prev_time (current_time (self w)) (self w))).
  destruct (free_loop_ledger (result_ready (pool w)) 0 s0 Hnd)
    as (_ & Hnd' & Hled & Hincl & Hset).
  destruct Hset as (_&_&Hid&_).
  change (runningChildren s0) with (runningChildren (self w)) in *.
  change (runningProcs s0) with (runningProcs (self w)) in *.
  change (idle_time s0) with (idle_time (self w)) in *.
  unfold ledger_ok. split; [exact Hnd'|]. split; [|split; [|split]].
  - rewrite Forall_forall in *. intros c Hc. apply Hlt, Hincl, Hc.
  - lia.
  - rewrite Forall_forall in *. intros c Hc. apply Hpos, Hincl, Hc.
  - rewrite Hid. intros Hnz. specialize (Hidle Hnz). rewrite Hidle in Hincl.
    destruct (runningChildren (snd (free_loop (result_ready (pool w)) 0 s0)))
      as [|c l]; [reflexivity|].
    exfalso. exact (Hincl c (or_introl eq_refl)).
Qed.

(** An idle executor holds no process, hence no child. *)
Lemma idle_no_children (s : pipelineExecutor) (next : nat) :
  ledger_ok s next -> idle s = true -> runningChildren s = [].
Proof.
  intros (_ & _ & Hsum & Hpos & _) Hidle.
  unfold idle in Hidle. rewrite !andb_true_iff in Hidle.
  destruct Hidle as [[_ Hp] _]. apply Z.eqb_eq in Hp.
  apply sum_procs_zero; [exact Hpos|lia].
Qed.

Lemma ledger_ok_no_children (s : pipelineExecutor) (next : nat) (v : Q) :
  ledger_ok s next -> runningChildren s = [] ->
  ledger_ok (with_idle_time v s) next.
Proof.
  intros (Hnd & Hlt & Hsum & Hpos & _) Hnil.
  unfold ledger_ok. simpl. repeat split; auto.
Qed.

Lemma ledger_ok_account_idle (w : World) :
  ledger_ok (self w) (next_obj w) ->
  ledger_ok (self (snd (account_idle w))) (next_obj (snd (account_idle w)))
  /\ (runningChildren (self w) <> [] -> snd (account_idle w) = w).
Proof.
  intros Hok. unfold account_idle, bind, get_self, answer, update, ret.
  destruct (idle (self w)) eqn:Hidle.
  - pose proof (idle_no_children _ _ Hok Hidle) as Hnil.
    split; [|congruence].
    destruct (sub_or_TypeError (current_time (self w)) (prev_time (self w)));
      simpl; [|exact Hok].
    destruct (mul_or_TypeError (time_to_seppuku (self w)) 60); simpl;
      apply ledger_ok_no_children; assumption.
  - simpl. split; [exact Hok|reflexivity].
Qed.

Lemma NoDup_snoc {A} (l : list A) (x : A) :
  NoDup l -> ~ In x l -> NoDup (l ++ [x]).
Proof.
  induction l as [|y l IH]; intros Hnd Hx; simpl.
  - constructor; [intros []|constructor].
  - inversion Hnd as [|? ? Hy Hnd']; subst. constructor.
    + intros Hin. apply in_app_or in Hin. destruct Hin as [Hin|[->|[]]].
      * exact (Hy Hin).
      * apply Hx. left. reflexivity.
    + apply IH; [exact Hnd'|]. intros Hin. apply Hx. right. exact Hin.
Qed.

(** Handing out a stage keeps the ledger: the new child is a new object,
    the idle seconds are back to zero. *)
Lemma ledger_ok_dispatch (s : pipelineExecutor) (next : nat) (i : Z)
    (result : nat) (stageMem : Q) (stageProcs : Z) :
  1 <= stageProcs ->
  ledger_ok s next ->
  ledger_ok
    (with_runningChildren
       (runningChildren s ++ [ChildProcess.mk next i result stageMem stageProcs])
       (with_runningProcs (runningProcs s + stageProcs)
          (with_runningMem (runningMem s + stageMem)%Q (with_idle_time 0%Q s))))
    (S next).
Proof.
  intros Hp (Hnd & Hlt & Hsum & Hpos & _).
  unfold ledger_ok. simpl. split; [|split; [|split; [|split]]].
  - unfold obj_ids. rewrite map_app. simpl. apply NoDup_snoc; [exact Hnd|].
    intros Hin. apply in_map_iff in Hin. destruct Hin as (c & Hc & Hin).
    rewrite Forall_forall in Hlt. specialize (Hlt c Hin). lia.
  - apply Forall_app. split.
    + rewrite Forall_forall in *. intros c Hc. specialize (Hlt c Hc). lia.
    + constructor; [simpl; lia|constructor].
  - rewrite sum_procs_app. simpl. lia.
  - apply Forall_app. split; [exact Hpos|].
    constructor; [exact Hp|constructor].
  - intros Hnz. exfalso. apply Hnz. reflexivity.
Qed.

Lemma ledger_ok_check_timers (t : Tick) (w : World) :
  reserves_a_process t ->
  ledger_ok (self w) (next_obj w) ->
  ledger_ok (self (snd (check_timers t w))) (next_obj (snd (check_timers t w))).
Proof.
  intros Hp Hok. unfold reserves_a_process in Hp.
  unfold check_timers, fetch, apply_async, new_ChildProcess,
    bind, get_self, answer, update, emit, ret, raise.
  destruct (is_seppuku_time (self w)); [exact Hok|].
  destruct (is_time_to_drain (tick_time_drain t) (self w)) as [[|]|];
    try exact Hok.
  simpl.
  destruct (tick_getCommand t) as [[cmd i]|]; [|exact Hok].
  destruct (String.eqb cmd "shutdown_normally"); [exact Hok|].
  destruct (String.eqb cmd "wait"); [exact Hok|].
  destruct (String.eqb cmd "run_stage") eqn:Hcmd; [|exact Hok].
  apply String.eqb_eq in Hcmd. subst cmd.
  simpl.
  destruct (tick_getStageMem t) as [stageMem|]; [|exact Hok].
  simpl.
  destruct (tick_getStageProcs t) as [stageProcs|]; [|exact Hok].
  simpl. apply ledger_ok_dispatch; [|exact Hok].
  exact (Hp i stageProcs eq_refl eq_refl).
Qed.

Lemma ledger_ok_mainFn (t : Tick) (w : World) :
  reserves_a_process t ->
  ledger_ok (self w) (next_obj w) ->
  ledger_ok (self (snd (mainFn t w))) (next_obj (snd (mainFn t w))).
Proof.
  intros Hp Hok. rewrite mainFn_parts.
  apply (ledger_ok_swept t) in Hok.
  apply ledger_ok_account_idle in Hok. destruct Hok as [Hok _].
  unfold bind.
  destruct (account_idle (swept t w)) as [[[]|e] w1]; simpl in *.
  - apply ledger_ok_check_timers; assumption.
  - exact Hok.
Qed.

(** The workers touch neither the ledger nor the list of children. *)
Lemma perform_ledger (a : action) (w : World) :
  runningChildren (self (snd (perform a w))) = runningChildren (self w)
  /\ runningProcs (self (snd (perform a w))) = runningProcs (self w)
  /\ idle_time (self (snd (perform a w))) = idle_time (self w)
  /\ next_obj (snd (perform a w)) = next_obj w.
Proof.
  destruct a as [e|pid|pid|i rc]; simpl; try (repeat split; reflexivity).
  rewrite notifyStageTerminated_trace. simpl. repeat split.
Qed.

Lemma worker_advance_ledger (job : nat) (w : World) :
  runningChildren (self (snd (worker_advance job w))) = runningChildren (self w)
  /\ runningProcs (self (snd (worker_advance job w))) = runningProcs (self w)
  /\ idle_time (self (snd (worker_advance job w))) = idle_time (self w)
  /\ next_obj (snd (worker_advance job w)) = next_obj w.
Proof.
  unfold worker_advance.
  destruct (nth_error (pool w) job) as [t|]; [|repeat split].
  destruct (pending t) as [|a rest]; [repeat split|].
  match goal with |- context [perform a ?w0] =>
    destruct (perform_ledger a w0) as (H1 & H2 & H3 & H4) end.
  simpl in *. repeat split; assumption.
Qed.

Lemma ledger_ok_workers_advance (schedule : list nat) (w : World) :
  ledger_ok (self w) (next_obj w) ->
  ledger_ok (self (snd (workers_advance schedule w)))
            (next_obj (snd (workers_advance schedule w))).
Proof.
  revert w. induction schedule as [|job rest IH]; intros w Hok; simpl.
  - exact Hok.
  - unfold bind. pose proof (worker_advance_ok job w) as Hr.
    destruct (worker_advance_ledger job w) as (H1 & H2 & H3 & H4).
    destruct (worker_advance job w) as [r w1]. simpl in *. subst r.
    apply IH. unfold ledger_ok in *. rewrite H1, H2, H3, H4. exact Hok.
Qed.

Lemma ledger_ok_connected (l : Launch) (options : Options.t) (w : World) :
  connect l (new_process options) = (Ok tt, w) ->
  ledger_ok (self w) (next_obj w).
Proof.
  unfold connect, bind, answer, get_self, emit, update.
  destruct (launch_serverURI l); [|discriminate]. simpl.
  destruct (launch_registerClient l); [|discriminate].
  intros H. injection H as <-. unfold ledger_ok. simpl.
  split; [constructor|]. split; [constructor|]. split; [reflexivity|].
  split; [constructor|].
  intros Hnz. exfalso. apply Hnz. reflexivity.
Qed.

Lemma loop_boundary_ledger_ok (w : World) :
  loop_boundary reserves_a_process w -> ledger_ok (self w) (next_obj w).
Proof.
  induction 1 as [l options w Hc|t w Hp _ IH|schedule w _ IH].
  - exact (ledger_ok_connected l options w Hc).
  - exact (ledger_ok_mainFn t w Hp IH).
  - exact (ledger_ok_workers_advance schedule w IH).
Qed.

(** C9, as stated, fails: at a boundary of the main loop five idle seconds
    are on the clock, and the child of stage 7, which reserved nothing, is
    in [runningChildren] with its command running. *)
Lemma idle_seconds_beside_a_running_child :
  ~ (forall w : World,
        loop_boundary (fun _ => True) w ->
        (0 < idle_time (self w))%Q -> runningChildren (self w) = [])
  /\ loop_boundary (fun _ => True) idle_beside_a_child
  /\ (0 < idle_time (self idle_beside_a_child))%Q
  /\ map ChildProcess.stage (runningChildren (self idle_beside_a_child)) = [7]
  /\ map (fun c => (ChildProcess.mem c, ChildProcess.procs c))
         (runningChildren (self idle_beside_a_child)) = [(0%Q, 0)]
  /\ map outstanding (pool idle_beside_a_child) = [true]
  /\ current_running_job_pids (self idle_beside_a_child) = [4007].
Proof.
  assert (Hb : loop_boundary (fun _ => True) idle_beside_a_child).
  { unfold idle_beside_a_child.
    apply boundary_mainFn; [exact I|].
    apply boundary_wait.
    apply boundary_mainFn; [exact I|].
    apply (boundary_connected _ (scenario_launch []) scenario_options).
    reflexivity. }
  split; [|split; [exact Hb|]].
  - intros H. specialize (H idle_beside_a_child Hb eq_refl).
    vm_compute in H. discriminate.
  - repeat split; vm_compute; reflexivity.
Qed.

(** C9, amended.  In a run in which every stage handed out reserves at
    least one process, at every boundary of the main loop idle seconds on
    the clock mean that [runningChildren] is empty, and an iteration that
    still has a child after its sweep is not idle and adds no idle
    seconds. *)
Theorem idle_seconds_only_without_children (w : World) (t : Tick) :
  loop_boundary reserves_a_process w ->
  ((0 < idle_time (self w))%Q -> runningChildren (self w) = [])
  /\ (runningChildren (self (swept t w)) <> [] ->
      idle (self (swept t w)) = false
      /\ snd (account_idle (swept t w)) = swept t w).
Proof.
  intros Hb. apply loop_boundary_ledger_ok in Hb. split.
  - intros Hpos. destruct Hb as (_ & _ & _ & _ & Hidle). apply Hidle.
    intros Heq. rewrite Heq in Hpos. exact (Qlt_irrefl _ Hpos).
  - intros Hne. apply (ledger_ok_swept t) in Hb. split.
    + destruct (idle (self (swept t w))) eqn:E; [|reflexivity].
      exfalso. exact (Hne (idle_no_children _ _ Hb E)).
    + exact (proj2 (ledger_ok_account_idle _ Hb) Hne).
Qed.

Lemma idle_seconds_only_without_children_witness :
  ((0 < idle_time (self waited_twice))%Q /\ runningChildren (self waited_twice) = [])
  /\ idle (self (swept (server_says_wait 6) stage_1_handed_out)) = false.
Proof.
  assert (Hc : loop_boundary reserves_a_process connected).
  { apply (boundary_connected _ (scenario_launch []) scenario_options).
    reflexivity. }
  assert (Hw : forall time, reserves_a_process (server_says_wait time)).
  { intros time i p H. discriminate. }
  split.
  - split; [reflexivity|].
    apply (idle_seconds_only_without_children waited_twice (server_says_wait 6)).
    + unfold waited_twice.
      apply boundary_mainFn; [apply Hw|].
      apply boundary_mainFn; [apply Hw|]. exact Hc.
    + reflexivity.
  - apply (idle_seconds_only_without_children stage_1_handed_out
             (server_says_wait 6)).
    + unfold stage_1_handed_out. apply boundary_mainFn; [|exact Hc].
      intros i p _ H. injection H as <-. lia.
    + vm_compute. discriminate.
Defined.

(** ** The default idle limit *)

(** C10.  A command line without [--time-to-seppuku] gives the executor a
    limit of one minute, never [None]: [is_seppuku_time] is then true
    exactly when more than 60 idle seconds are on the clock, and an
    iteration of the main loop that finds more than 60 returns false
    without asking the server for work. *)
Theorem default_idle_limit_is_one_minute (c : CommandLine) :
  arg_time_to_seppuku c = None ->
  time_to_seppuku (pipelineExecutor_init (parse_known_args c)) = Some 1
  /\ (forall s : pipelineExecutor,
         time_to_seppuku s
         = time_to_seppuku (pipelineExecutor_init (parse_known_args c)) ->
         (is_seppuku_time s = true <-> (60 < idle_time s)%Q))
  /\ (forall (t : Tick) (w : World),
         time_to_seppuku (self w)
         = time_to_seppuku (pipelineExecutor_init (parse_known_args c)) ->
         (60 < idle_time (self (snd (account_idle (swept t w)))))%Q ->
         fst (mainFn t w) = Ok false /\ trace (snd (mainFn t w)) = trace w).
Proof.
  intros Hnone.
  assert (Hdef : time_to_seppuku (pipelineExecutor_init (parse_known_args c))
                 = Some 1).
  { unfold pipelineExecutor_init, parse_known_args. simpl.
    rewrite Hnone. reflexivity. }
  split; [exact Hdef|]. rewrite Hdef. split.
  - intros s Hs. rewrite is_seppuku_time_true. split.
    + intros (m & Hm & Hlt). rewrite Hs in Hm. injection Hm as <-. exact Hlt.
    + intros Hlt. exists 1. split; [exact Hs|exact Hlt].
  - intros t w Hs Hlong. rewrite mainFn_parts.
    destruct (swept_settings t w) as (_&_&_&_&Hcur&Hsep&_).
    destruct (account_idle_ok (swept t w)) as [v Hv].
    + rewrite Hsep, Hs. discriminate.
    + rewrite Hcur. discriminate.
    + rewrite Hv in Hlong. simpl in Hlong.
      assert (H : exists w', (account_idle ;;; check_timers t) (swept t w)
                             = (Ok false, w') /\ trace w' = trace w).
      { unfold bind at 1. rewrite Hv.
        unfold check_timers, bind, get_self, answer, ret.
        cbv beta iota. cbn [self].
        assert (Hsep' : is_seppuku_time (with_idle_time v (self (swept t w)))
                        = true).
        { apply is_seppuku_time_true. exists 1. split.
          - change (time_to_seppuku (with_idle_time v (self (swept t w))))
              with (time_to_seppuku (self (swept t w))).
            rewrite Hsep. exact Hs.
          - exact Hlong. }
        rewrite Hsep'. eexists. split; reflexivity. }
      destruct H as (w' & -> & Htr). split; [reflexivity|exact Htr].
Qed.

Lemma default_idle_limit_is_one_minute_witness :
  time_to_seppuku
    (pipelineExecutor_init
       (parse_known_args (mkCommandLine (Some 1) None None None None true)))
  = Some 1
  /\ fst (mainFn (server_says_wait 62)
            (snd (mainFn (server_says_wait 1) default_executor))) = Ok false.
Proof.
  destruct (default_idle_limit_is_one_minute
              (mkCommandLine (Some 1) None None None None true) eq_refl)
    as (Hdef & _ & Hstop).
  split; [exact Hdef|].
  apply (Hstop (server_says_wait 62)
               (snd (mainFn (server_says_wait 1) default_executor))).
  - reflexivity.
  - vm_compute. reflexivity.
Defined.

(** * Further properties of the code *)

(** ** What a sweep removes and what it leaves *)

Lemma free_loop_past_end (ready : nat -> bool) (i : nat) (s : pipelineExecutor) :
  (length (runningChildren s) <= i)%nat ->
  free_loop ready i s = (Ok tt, s).
Proof.
  intros Hlen. funelim (free_loop ready i s); try reflexivity;
    exfalso;
    match goal with
    | Hn : nth_error _ _ = Some _ |- _ =>
        apply nth_error_None in Hlen; congruence
    end.
Qed.

Lemma list_remove_at (l1 l2 : list ChildProcess.t) (child : ChildProcess.t) :
  NoDup (obj_ids (l1 ++ child :: l2)) ->
  list_remove child (l1 ++ child :: l2) = Some (l1 ++ l2).
Proof.
  induction l1 as [|y l1 IH]; intros Hnd; simpl in *.
  - unfold same_object. rewrite Nat.eqb_refl. reflexivity.
  - inversion Hnd as [|? ? Hy Hnd']; subst.
    destruct (same_object y child) eqn:E.
    + exfalso. apply Hy. unfold same_object in E. apply Nat.eqb_eq in E.
      rewrite E. unfold obj_ids. apply in_map. apply in_or_app. right. left.
      reflexivity.
    + rewrite (IH Hnd'). reflexivity.
Qed.

Lemma NoDup_obj_ids_remove (l1 l2 : list ChildProcess.t) (child : ChildProcess.t) :
  NoDup (obj_ids (l1 ++ child :: l2)) -> NoDup (obj_ids (l1 ++ l2)).
Proof.
  unfold obj_ids. rewrite !map_app. simpl. apply NoDup_remove_1.
Qed.

Lemma nth_error_at_split (l1 l2 : list ChildProcess.t) (child : ChildProcess.t) :
  nth_error (l1 ++ l2) (length l1) = Some child ->
  exists l2', l2 = child :: l2'.
Proof.
  rewrite nth_error_app2 by lia. rewrite Nat.sub_diag.
  destruct l2 as [|c l2']; simpl; [discriminate|].
  intros H. injection H as ->. exists l2'. reflexivity.
Qed.

(** From position [length l1] on, the loop leaves [sweep] of the rest. *)
Lemma free_loop_children (ready : nat -> bool) (i : nat) (s : pipelineExecutor) :
  forall l1 l2 : list ChildProcess.t,
    i = length l1 ->
    runningChildren s = l1 ++ l2 ->
    NoDup (obj_ids (runningChildren s)) ->
    runningChildren (snd (free_loop ready i s)) =
    l1 ++ sweep (fun c => ready (ChildProcess.result c)) l2.
Proof.
  funelim (free_loop ready i s); intros l1 l2 Hi Hl Hnd.
  - (* past the end *)
    simpl. rewrite Hl. f_equal.
    destruct l2 as [|c l2']; [reflexivity|].
    exfalso. pose proof (proj1 (nth_error_None _ _) e) as Hlen.
    rewrite Hl, Hi, length_app in Hlen. simpl in Hlen. lia.
  - (* the child is not ready *)
    pose proof Hnth as Hn.
    rewrite Hl, Hi in Hn. destruct (nth_error_at_split _ _ _ Hn) as [l2' ->].
    rewrite (H (l1 ++ [child]) l2').
    + simpl. rewrite Heq. rewrite <- app_assoc. reflexivity.
    + rewrite length_app. simpl. lia.
    + rewrite Hl, <- app_assoc. reflexivity.
    + exact Hnd.
  - (* the child is ready and leaves the list *)
    pose proof Hnth as Hn. pose proof Hrm as Hr.
    rewrite Hl, Hi in Hn. destruct (nth_error_at_split _ _ _ Hn) as [l2' ->].
    rewrite Hl in Hr, Hnd.
    rewrite (list_remove_at l1 l2' child Hnd) in Hr. injection Hr as Hrest.
    simpl sweep. rewrite Heq.
    destruct l2' as [|d l2''].
    + rewrite free_loop_past_end.
      * simpl. symmetry. exact Hrest.
      * simpl. rewrite <- Hrest, app_nil_r. lia.
    + rewrite (H (l1 ++ [d]) l2'').
      * rewrite <- app_assoc. reflexivity.
      * rewrite length_app. simpl. lia.
      * simpl. rewrite <- Hrest, <- app_assoc. reflexivity.
      * simpl. rewrite <- Hrest.
        exact (NoDup_obj_ids_remove l1 (d :: l2'') child Hnd).
  - (* [remove] finds the child *)
    exfalso. exact (list_remove_member child _ (nth_error_In _ _ Hnth) e).
Qed.

Lemma list_ind_two {A} (P : list A -> Prop) :
  P [] -> (forall c, P [c]) ->
  (forall c d l, P l -> P (d :: l) -> P (c :: d :: l)) ->
  forall l, P l.
Proof.
  intros Hnil Hone Hstep l.
  assert (H : P l /\ forall c, P (c :: l)).
  { induction l as [|d l [IH1 IH2]].
    - split; [exact Hnil|exact Hone].
    - split; [apply IH2|]. intros c. apply Hstep; [exact IH1|apply IH2]. }
  exact (proj1 H).
Qed.

Lemma sweep_keeps_unready (ready : ChildProcess.t -> bool) (l : list ChildProcess.t) :
  filter (fun c => negb (ready c)) (sweep ready l)
  = filter (fun c => negb (ready c)) l.
Proof.
  induction l as [|c|c d l IH1 IH2] using list_ind_two.
  - reflexivity.
  - simpl. destruct (ready c) eqn:E; simpl; rewrite ?E; reflexivity.
  - change (sweep ready (c :: d :: l))
      with (if ready c then d :: sweep ready l else c :: sweep ready (d :: l)).
    destruct (ready c) eqn:E.
    + simpl. rewrite E. simpl. rewrite IH1. reflexivity.
    + assert (Hc : forall x, filter (fun c => negb (ready c)) (c :: x)
                             = c :: filter (fun c => negb (ready c)) x)
        by (intros x; simpl; rewrite E; reflexivity).
      rewrite !Hc, IH2. reflexivity.
Qed.

Lemma sweep_reaps_half (ready : ChildProcess.t -> bool) (l : list ChildProcess.t) :
  (count_ready ready (sweep ready l) + length (sweep ready l) <= length l)%nat.
Proof.
  induction l as [|c|c d l IH1 IH2] using list_ind_two.
  - simpl. lia.
  - simpl. destruct (ready c) eqn:E; simpl; rewrite ?E; lia.
  - change (sweep ready (c :: d :: l))
      with (if ready c then d :: sweep ready l else c :: sweep ready (d :: l)).
    destruct (ready c) eqn:E.
    + simpl. destruct (ready d); lia.
    + assert (Hc : forall x, count_ready ready (c :: x) = count_ready ready x)
        by (intros x; simpl; rewrite E; reflexivity).
      rewrite Hc. simpl length in *. lia.
Qed.

Lemma sweep_progress (ready : ChildProcess.t -> bool) (l : list ChildProcess.t) :
  existsb ready l = true -> (length (sweep ready l) < length l)%nat.
Proof.
  induction l as [|c|c d l IH1 IH2] using list_ind_two.
  - discriminate.
  - simpl. destruct (ready c); [simpl; lia|discriminate].
  - change (sweep ready (c :: d :: l))
      with (if ready c then d :: sweep ready l else c :: sweep ready (d :: l)).
    intros Hex. destruct (ready c) eqn:E.
    + pose proof (sweep_reaps_half ready l). simpl. lia.
    + simpl in Hex. rewrite E in Hex. simpl in Hex.
      specialize (IH2 Hex). simpl length in *. lia.
Qed.

Lemma sweep_nothing_ready (ready : ChildProcess.t -> bool) (l : list ChildProcess.t) :
  existsb ready l = false -> sweep ready l = l.
Proof.
  induction l as [|c l IH]; [reflexivity|].
  simpl. intros H. apply orb_false_iff in H. destruct H as [Hc Hl].
  rewrite Hc, (IH Hl). reflexivity.
Qed.

Lemma unready_only (ready : ChildProcess.t -> bool) (l : list ChildProcess.t) :
  existsb ready l = false -> filter (fun c => negb (ready c)) l = l.
Proof.
  induction l as [|c l IH]; [reflexivity|].
  simpl. intros H. apply orb_false_iff in H. destruct H as [Hc Hl].
  rewrite Hc, (IH Hl). reflexivity.
Qed.

(** One call of [free_resources] on distinct children, in full. *)
Lemma free_resources_spec (w : World) :
  NoDup (obj_ids (runningChildren (self w))) ->
  fst (free_resources w) = Ok tt
  /\ runningChildren (self (snd (free_resources w)))
     = sweep (child_ready w) (runningChildren (self w))
  /\ NoDup (obj_ids (runningChildren (self (snd (free_resources w)))))
  /\ runningProcs (self (snd (free_resources w)))
     = runningProcs (self w)
       - (sum_procs (runningChildren (self w))
          - sum_procs (sweep (child_ready w) (runningChildren (self w))))
  /\ pool (snd (free_resources w)) = pool w
  /\ trace (snd (free_resources w)) = trace w.
Proof.
  intros Hnd. unfold free_resources.
  pose proof (free_loop_children (result_ready (pool w)) 0 (self w)
                [] (runningChildren (self w)) eq_refl eq_refl Hnd) as Hch.
  destruct (free_loop_ledger (result_ready (pool w)) 0 (self w) Hnd)
    as (Hok & Hnd' & Hled & _ & _).
  destruct (free_loop (result_ready (pool w)) 0 (self w)) as [r s'].
  simpl in *. subst r. fold (child_ready w) in Hch.
  split; [reflexivity|]. split; [exact Hch|]. split; [exact Hnd'|].
  split; [|split; reflexivity].
  rewrite <- Hch. lia.
Qed.

Lemma child_ready_same_pool (w w' : World) :
  pool w' = pool w -> child_ready w' = child_ready w.
Proof. intros H. unfold child_ready. rewrite H. reflexivity. Qed.

(** Calls of [free_resources] that find nothing ready change nothing in
    the list. *)
Lemma free_resources_times_nothing_ready (n : nat) (w : World) :
  NoDup (obj_ids (runningChildren (self w))) ->
  existsb (child_ready w) (runningChildren (self w)) = false ->
  fst (free_resources_times n w) = Ok tt
  /\ runningChildren (self (snd (free_resources_times n w)))
     = runningChildren (self w).
Proof.
  revert w. induction n as [|n IH]; intros w Hnd Hno; simpl.
  - split; reflexivity.
  - unfold bind.
    destruct (free_resources_spec w Hnd) as (Hok & Hch & Hnd' & _ & Hpool & _).
    destruct (free_resources w) as [r w1]. simpl in *. subst r.
    rewrite (sweep_nothing_ready _ _ Hno) in Hch.
    destruct (IH w1) as [Hok' Hch'].
    + exact Hnd'.
    + rewrite (child_ready_same_pool w w1 Hpool), Hch. exact Hno.
    + split; [exact Hok'|]. rewrite Hch', Hch. reflexivity.
Qed.

Lemma free_resources_times_spec (n : nat) (w : World) :
  NoDup (obj_ids (runningChildren (self w))) ->
  (length (runningChildren (self w)) <= n)%nat ->
  fst (free_resources_times n w) = Ok tt
  /\ runningChildren (self (snd (free_resources_times n w)))
     = filter (fun c => negb (child_ready w c)) (runningChildren (self w)).
Proof.
  revert w. induction n as [|n IH]; intros w Hnd Hlen.
  - simpl. destruct (runningChildren (self w)); [split; reflexivity|].
    simpl in Hlen. lia.
  - destruct (existsb (child_ready w) (runningChildren (self w))) eqn:Hex.
    + simpl. unfold bind.
      destruct (free_resources_spec w Hnd) as (Hok & Hch & Hnd' & _ & Hpool & _).
      destruct (free_resources w) as [r w1]. simpl in *. subst r.
      pose proof (sweep_progress _ _ Hex) as Hless.
      destruct (IH w1 Hnd') as [Hok' Hch'].
      * rewrite Hch. lia.
      * split; [exact Hok'|].
        rewrite Hch', (child_ready_same_pool w w1 Hpool), Hch.
        apply sweep_keeps_unready.
    + destruct (free_resources_times_nothing_ready (S n) w Hnd Hex)
        as [Hok Hch].
      split; [exact Hok|]. rewrite Hch. symmetry. apply unready_only. exact Hex.
Qed.

(** X1.  On a list of distinct children one call of [free_resources]
    returns normally and leaves exactly [sweep] of the list: every child
    that is not ready, and every ready child that stands right behind a
    removed one.  It sends nothing and leaves the pool alone. *)
Theorem free_resources_leaves_sweep (w : World) :
  NoDup (obj_ids (runningChildren (self w))) ->
  fst (free_resources w) = Ok tt
  /\ runningChildren (self (snd (free_resources w)))
     = sweep (child_ready w) (runningChildren (self w))
  /\ pool (snd (free_resources w)) = pool w
  /\ trace (snd (free_resources w)) = trace w.
Proof.
  intros Hnd.
  destruct (free_resources_spec w Hnd) as (Hok & Hch & _ & _ & Hpool & Htr).
  repeat split; assumption.
Qed.

Lemma free_resources_leaves_sweep_witness :
  fst (free_resources both_finished) = Ok tt
  /\ runningChildren (self (snd (free_resources both_finished)))
     = sweep (child_ready both_finished) (runningChildren (self both_finished))
  /\ pool (snd (free_resources both_finished)) = pool both_finished
  /\ trace (snd (free_resources both_finished)) = trace both_finished.
Proof.
  apply (free_resources_leaves_sweep both_finished).
  vm_compute. constructor.
  - intros [H|[]]. discriminate.
  - constructor; [intros []|constructor].
Defined.

(** X2.  What a call of [free_resources] takes from [runningProcs] is the
    sum of the processes reserved by the children it removes: the
    difference between the counter and the sum over the list is the same
    before and after. *)
Theorem free_resources_releases_reservations (w : World) :
  NoDup (obj_ids (runningChildren (self w))) ->
  runningProcs (self (snd (free_resources w)))
  - sum_procs (runningChildren (self (snd (free_resources w))))
  = runningProcs (self w) - sum_procs (runningChildren (self w)).
Proof.
  intros Hnd.
  destruct (free_resources_spec w Hnd) as (_ & Hch & _ & Hled & _).
  rewrite Hled, Hch. lia.
Qed.

Lemma free_resources_releases_reservations_witness :
  runningProcs (self (snd (free_resources both_finished)))
  - sum_procs (runningChildren (self (snd (free_resources both_finished))))
  = runningProcs (self both_finished)
    - sum_procs (runningChildren (self both_finished)).
Proof.
  apply (free_resources_releases_reservations both_finished).
  vm_compute. constructor.
  - intros [H|[]]. discriminate.
  - constructor; [intros []|constructor].
Defined.

(** X3.  [free_resources] never drops a child whose result is not ready:
    the children that are not ready are the same, in the same order,
    before and after the call. *)
Theorem free_resources_keeps_running_children (w : World) :
  NoDup (obj_ids (runningChildren (self w))) ->
  filter (fun c => negb (child_ready w c))
         (runningChildren (self (snd (free_resources w))))
  = filter (fun c => negb (child_ready w c)) (runningChildren (self w)).
Proof.
  intros Hnd.
  destruct (free_resources_spec w Hnd) as (_ & Hch & _).
  rewrite Hch. apply sweep_keeps_unready.
Qed.

Lemma free_resources_keeps_running_children_witness :
  filter (fun c => negb (child_ready stage_1_handed_out c))
         (runningChildren (self (snd (free_resources stage_1_handed_out))))
  = filter (fun c => negb (child_ready stage_1_handed_out c))
           (runningChildren (self stage_1_handed_out)).
Proof.
  apply (free_resources_keeps_running_children stage_1_handed_out).
  vm_compute. constructor; [intros []|constructor].
Defined.

(** X4.  A call of [free_resources] that finds a ready child removes at
    least one child, and it removes at least as many children as it
    leaves ready ones behind: at least half of the ready children go. *)
Theorem free_resources_reaps_at_least_half (w : World) :
  NoDup (obj_ids (runningChildren (self w))) ->
  (existsb (child_ready w) (runningChildren (self w)) = true ->
   (length (runningChildren (self (snd (free_resources w))))
    < length (runningChildren (self w)))%nat)
  /\ (count_ready (child_ready w)
                  (runningChildren (self (snd (free_resources w))))
      + length (runningChildren (self (snd (free_resources w))))
      <= length (runningChildren (self w)))%nat.
Proof.
  intros Hnd.
  destruct (free_resources_spec w Hnd) as (_ & Hch & _).
  rewrite Hch. split.
  - apply sweep_progress.
  - apply sweep_reaps_half.
Qed.

Lemma free_resources_reaps_at_least_half_witness :
  (length (runningChildren (self (snd (free_resources both_finished))))
   < length (runningChildren (self both_finished)))%nat
  /\ (count_ready (child_ready both_finished)
                  (runningChildren (self (snd (free_resources both_finished))))
      + length (runningChildren (self (snd (free_resources both_finished))))
      <= length (runningChildren (self both_finished)))%nat.
Proof.
  assert (Hnd : NoDup (obj_ids (runningChildren (self both_finished)))).
  { vm_compute. constructor.
    - intros [H|[]]. discriminate.
    - constructor; [intros []|constructor]. }
  destruct (free_resources_reaps_at_least_half both_finished Hnd) as [H1 H2].
  split; [apply H1; reflexivity|exact H2].
Defined.

(** X5.  As many calls of [free_resources] in a row as there are children
    (with no result becoming ready in between) leave exactly the children
    that are not ready: what one call passes over, the following calls
    reap. *)
Theorem repeated_sweeps_reap_every_ready_child (n : nat) (w : World) :
  NoDup (obj_ids (runningChildren (self w))) ->
  (length (runningChildren (self w)) <= n)%nat ->
  fst (free_resources_times n w) = Ok tt
  /\ runningChildren (self (snd (free_resources_times n w)))
     = filter (fun c => negb (child_ready w c)) (runningChildren (self w)).
Proof.
  intros Hnd Hlen. exact (free_resources_times_spec n w Hnd Hlen).
Qed.

Lemma repeated_sweeps_reap_every_ready_child_witness :
  fst (free_resources_times 2 both_finished) = Ok tt
  /\ runningChildren (self (snd (free_resources_times 2 both_finished)))
     = filter (fun c => negb (child_ready both_finished c))
              (runningChildren (self both_finished)).
Proof.
  apply (repeated_sweeps_reap_every_ready_child 2 both_finished).
  - vm_compute. constructor.
    + intros [H|[]]. discriminate.
    + constructor; [intros []|constructor].
  - vm_compute. lia.
Defined.

(** ** The main loop, one iteration *)

(** [account_idle] touches nothing but the idle seconds, whether it
    returns or raises. *)
Lemma account_idle_frame (w : World) :
  exists v : Q,
    snd (account_idle w) =
    mkWorld (with_idle_time v (self w)) (pool w) (trace w) (next_obj w).
Proof.
  unfold account_idle, bind, get_self, answer, update, ret.
  destruct (idle (self w)).
  - destruct (sub_or_TypeError (current_time (self w)) (prev_time (self w)))
      as [delta|e]; simpl.
    + destruct (mul_or_TypeError (time_to_seppuku (self w)) 60); simpl;
        eexists; reflexivity.
    + exists (idle_time (self w)). destruct w as [[] ? ? ?]. reflexivity.
  - exists (idle_time (self w)). destruct w as [[] ? ? ?]. reflexivity.
Qed.

(** [check_timers] either leaves the executor and the pool as they are, or
    has handed a stage to the pool and returned true. *)
Lemma check_timers_cases (t : Tick) (w : World) :
  (self (snd (check_timers t w)) = self w
   /\ pool (snd (check_timers t w)) = pool w
   /\ next_obj (snd (check_timers t w)) = next_obj w
   /\ (fst (check_timers t w) = Ok true ->
       exists i, tick_getCommand t = Ok ("wait"%string, i)))
  \/ (exists (i : Z) (stageMem : Q) (stageProcs : Z),
         tick_getCommand t = Ok ("run_stage"%string, i)
         /\ tick_getStageMem t = Ok stageMem
         /\ tick_getStageProcs t = Ok stageProcs
         /\ fst (check_timers t w) = Ok true
         /\ self (snd (check_timers t w))
            = dispatched (self w) (next_obj w) i (length (pool w))
                         stageMem stageProcs
         /\ pool (snd (check_timers t w))
            = pool w ++ [mkTask i (fst (runStage (tick_run t) i))]
         /\ next_obj (snd (check_timers t w)) = S (next_obj w)
         /\ trace (snd (check_timers t w))
            = trace w ++ [Rpc (getCommand (mem (self w) - runningMem (self w))%Q
                                          (procs (self w) - runningProcs (self w)));
                          Rpc (getStageMem i); Rpc (getStageProcs i);
                          PoolApplyAsync i]).
Proof.
  unfold check_timers, fetch, apply_async, new_ChildProcess,
    bind, get_self, answer, update, emit, ret, raise.
  destruct (is_seppuku_time (self w));
    [left; repeat split; discriminate|].
  destruct (is_time_to_drain (tick_time_drain t) (self w)) as [[|]|];
    try (left; repeat split; discriminate).
  simpl.
  destruct (tick_getCommand t) as [[cmd i]|];
    [|left; repeat split; discriminate].
  destruct (String.eqb cmd "shutdown_normally");
    [left; repeat split; discriminate|].
  destruct (String.eqb cmd "wait") eqn:Hwait.
  { left. repeat split. intros _. apply String.eqb_eq in Hwait. subst cmd.
    exists i. reflexivity. }
  destruct (String.eqb cmd "run_stage") eqn:Hcmd;
    [|left; repeat split; discriminate].
  apply String.eqb_eq in Hcmd. subst cmd. simpl.
  destruct (tick_getStageMem t) as [stageMem|];
    [|left; repeat split; discriminate].
  simpl.
  destruct (tick_getStageProcs t) as [stageProcs|];
    [|left; repeat split; discriminate].
  right. exists i, stageMem, stageProcs. simpl.
  repeat split. rewrite <- !app_assoc. reflexivity.
Qed.

(** The world after [mainFn]: that of [account_idle] if it raised, that of
    [check_timers] otherwise. *)
Lemma mainFn_world (t : Tick) (w : World) :
  snd (mainFn t w) = snd (account_idle (swept t w))
  \/ snd (mainFn t w) = snd (check_timers t (snd (account_idle (swept t w)))).
Proof.
  rewrite mainFn_parts. unfold bind.
  destruct (account_idle (swept t w)) as [[[]|e] w1]; simpl.
  - right. reflexivity.
  - left. reflexivity.
Qed.

Lemma swept_ledger (t : Tick) (w : World) :
  NoDup (obj_ids (runningChildren (self w))) ->
  runningChildren (self (swept t w))
  = sweep (child_ready w) (runningChildren (self w))
  /\ NoDup (obj_ids (runningChildren (self (swept t w))))
  /\ runningProcs (self (swept t w))
     - sum_procs (runningChildren (self (swept t w)))
     = runningProcs (self w) - sum_procs (runningChildren (self w))
  /\ incl (runningChildren (self (swept t w))) (runningChildren (self w))
  /\ pool (swept t w) = pool w
  /\ next_obj (swept t w) = next_obj w
  /\ trace (swept t w) = trace w.
Proof.
  intros Hnd. unfold swept. simpl.
  set (s0 := with_current_time (Some (tick_time t))
               (with_prev_time (current_time (self w)) (self w))).
  pose proof (free_loop_children (result_ready (pool w)) 0 s0
                [] (runningChildren (self w)) eq_refl eq_refl Hnd) as Hch.
  destruct (free_loop_ledger (result_ready (pool w)) 0 s0 Hnd)
    as (_ & Hnd' & Hled & Hincl & _).
  repeat split; assumption.
Qed.

Lemma ledger_sum_dispatched (s : pipelineExecutor) (next : nat) (i : Z)
    (result : nat) (stageMem : Q) (stageProcs : Z) :
  ledger_sum s next ->
  ledger_sum (dispatched s next i result stageMem stageProcs) (S next).
Proof.
  intros (Hnd & Hlt & Hsum).
  unfold ledger_sum, dispatched. simpl. split; [|split].
  - unfold obj_ids. rewrite map_app. simpl. apply NoDup_snoc; [exact Hnd|].
    intros Hin. apply in_map_iff in Hin. destruct Hin as (c & Hc & Hin).
    rewrite Forall_forall in Hlt. specialize (Hlt c Hin). lia.
  - apply Forall_app. split.
    + rewrite Forall_forall in *. intros c Hc. specialize (Hlt c Hc). lia.
    + constructor; [simpl; lia|constructor].
  - rewrite sum_procs_app. simpl. lia.
Qed.

Lemma ledger_sum_mainFn (t : Tick) (w : World) :
  ledger_sum (self w) (next_obj w) ->
  ledger_sum (self (snd (mainFn t w))) (next_obj (snd (mainFn t w))).
Proof.
  intros (Hnd & Hlt & Hsum).
  destruct (swept_ledger t w Hnd) as (_ & Hnd1 & Hled1 & Hincl1 & _ & Hnext1 & _).
  assert (H1 : ledger_sum (self (swept t w)) (next_obj (swept t w))).
  { split; [exact Hnd1|]. split.
    - rewrite Hnext1. rewrite Forall_forall in *. intros c Hc.
      apply Hlt, Hincl1, Hc.
    - lia. }
  destruct (account_idle_frame (swept t w)) as [v Hv].
  assert (H2 : ledger_sum (self (snd (account_idle (swept t w))))
                          (next_obj (snd (account_idle (swept t w))))).
  { rewrite Hv. exact H1. }
  destruct (mainFn_world t w) as [-> | ->]; [exact H2|].
  destruct (check_timers_cases t (snd (account_idle (swept t w))))
    as [(Hs & _ & Hn & _) | (i & m & p & _ & _ & _ & _ & Hs & _ & Hn & _)].
  - rewrite Hs, Hn. exact H2.
  - rewrite Hs, Hn. apply ledger_sum_dispatched. exact H2.
Qed.

Lemma ledger_sum_workers_advance (schedule : list nat) (w : World) :
  ledger_sum (self w) (next_obj w) ->
  ledger_sum (self (snd (workers_advance schedule w)))
             (next_obj (snd (workers_advance schedule w))).
Proof.
  revert w. induction schedule as [|job rest IH]; intros w Hok; simpl.
  - exact Hok.
  - unfold bind. pose proof (worker_advance_ok job w) as Hr.
    destruct (worker_advance_ledger job w) as (H1 & H2 & H3 & H4).
    destruct (worker_advance job w) as [r w1]. simpl in *. subst r.
    apply IH. unfold ledger_sum in *. rewrite H1, H2, H4. exact Hok.
Qed.

(** What [connect] leaves when it succeeds. *)
Lemma connect_ok (l : Launch) (options : Options.t) (w : World) :
  connect l (new_process options) = (Ok tt, w) ->
  w = mkWorld
        (with_connection_time_with_server (Some (launch_time l))
           (with_registered_with_server true (pipelineExecutor_init options)))
        [] [Rpc (registerClient (Options.mem options))] 0.
Proof.
  unfold connect, registeredWithServer, bind, answer, get_self, emit, update.
  destruct (launch_serverURI l) as [[]|]; [|discriminate]. simpl.
  destruct (launch_registerClient l) as [[]|]; [|discriminate].
  intros H. injection H as <-. reflexivity.
Qed.

(** X6.  At every boundary of the main loop, whatever the server and the
    workers did, [runningProcs] is the sum of the processes reserved by
    the children in [runningChildren], and these are distinct objects. *)
Theorem runningProcs_is_sum_over_children (w : World) :
  loop_boundary (fun _ => True) w ->
  runningProcs (self w) = sum_procs (runningChildren (self w))
  /\ NoDup (obj_ids (runningChildren (self w))).
Proof.
  intros Hb.
  assert (H : ledger_sum (self w) (next_obj w)).
  { induction Hb as [l options w Hc|t w _ _ IH|schedule w _ IH].
    - apply connect_ok in Hc. subst w. unfold ledger_sum. simpl.
      split; [constructor|]. split; [constructor|reflexivity].
    - exact (ledger_sum_mainFn t w IH).
    - exact (ledger_sum_workers_advance schedule w IH). }
  destruct H as (Hnd & _ & Hsum). split; assumption.
Qed.

Lemma runningProcs_is_sum_over_children_witness :
  runningProcs (self idle_beside_a_child)
  = sum_procs (runningChildren (self idle_beside_a_child))
  /\ NoDup (obj_ids (runningChildren (self idle_beside_a_child))).
Proof.
  apply (runningProcs_is_sum_over_children idle_beside_a_child).
  unfold idle_beside_a_child.
  apply boundary_mainFn; [exact I|].
  apply boundary_wait.
  apply boundary_mainFn; [exact I|].
  apply (boundary_connected _ (scenario_launch []) scenario_options).
  reflexivity.
Defined.

Lemma sum_procs_nonneg (l : list ChildProcess.t) :
  Forall (fun c => 0 <= ChildProcess.procs c) l -> 0 <= sum_procs l.
Proof.
  induction 1 as [|c l Hc _ IH]; simpl; lia.
Qed.

Lemma sum_procs_sweep (ready : ChildProcess.t -> bool) (l : list ChildProcess.t) :
  Forall (fun c => 0 <= ChildProcess.procs c) l ->
  sum_procs (sweep ready l) <= sum_procs l.
Proof.
  induction l as [|c|c d l IH1 IH2] using list_ind_two; intros Hall.
  - simpl. lia.
  - inversion Hall; subst. simpl. destruct (ready c); simpl; lia.
  - inversion Hall as [|? ? Hc Hall']; subst.
    inversion Hall' as [|? ? Hd Hall'']; subst.
    change (sweep ready (c :: d :: l))
      with (if ready c then d :: sweep ready l else c :: sweep ready (d :: l)).
    specialize (IH1 Hall''). specialize (IH2 Hall').
    destruct (ready c); simpl in *; lia.
Qed.

Lemma within_budget_mainFn (t : Tick) (w : World) :
  within_reported_procs t w ->
  within_budget (self w) (next_obj w) ->
  within_budget (self (snd (mainFn t w))) (next_obj (snd (mainFn t w))).
Proof.
  intros Htrust (Hsum & Hpos & Hle).
  pose proof (ledger_sum_mainFn t w Hsum) as Hsum'.
  split; [exact Hsum'|]. clear Hsum'.
  destruct Hsum as (Hnd & _ & Hs).
  destruct (swept_ledger t w Hnd) as (Hch & _ & Hled & Hincl & _).
  destruct (swept_settings t w) as (_ & Hprocs & _).
  assert (Hpos1 : Forall (fun c => 0 <= ChildProcess.procs c)
                         (runningChildren (self (swept t w)))).
  { rewrite Forall_forall in *. intros c Hc. apply Hpos, Hincl, Hc. }
  assert (Hle1 : runningProcs (self (swept t w)) <= procs (self (swept t w))).
  { rewrite Hprocs. pose proof (sum_procs_sweep (child_ready w) _ Hpos) as H.
    rewrite <- Hch in H. lia. }
  destruct (account_idle_frame (swept t w)) as [v Hv].
  assert (H2 : Forall (fun c => 0 <= ChildProcess.procs c)
                 (runningChildren (self (snd (account_idle (swept t w)))))
               /\ runningProcs (self (snd (account_idle (swept t w))))
                  <= procs (self (snd (account_idle (swept t w))))).
  { rewrite Hv. simpl. split; assumption. }
  destruct (mainFn_world t w) as [-> | ->]; [exact H2|].
  destruct (check_timers_cases t (snd (account_idle (swept t w))))
    as [(Hself & _) | (i & m & p & Hcmd & _ & Hp & _ & Hself & _)].
  - rewrite Hself. exact H2.
  - rewrite Hself.
    assert (Ea : runningProcs (self (snd (account_idle (swept t w))))
                 = runningProcs (self (swept t w)))
      by (rewrite Hv; reflexivity).
    assert (Eb : procs (self (snd (account_idle (swept t w))))
                 = procs (self (swept t w)))
      by (rewrite Hv; reflexivity).
    destruct H2 as [H2a H2b].
    destruct (Htrust i p Hcmd Hp) as [Hp0 Hpfree]. split.
    + change (runningChildren (dispatched ?s ?n ?j ?r ?a ?b))
        with (runningChildren s ++ [ChildProcess.mk n j r a b]).
      apply Forall_app. split; [exact H2a|].
      constructor; [exact Hp0|constructor].
    + change (runningProcs (dispatched ?s ?n ?j ?r ?a ?b))
        with (runningProcs s + b).
      change (procs (dispatched ?s ?n ?j ?r ?a ?b)) with (procs s).
      lia.
Qed.

Lemma within_budget_workers_advance (schedule : list nat) (w : World) :
  within_budget (self w) (next_obj w) ->
  within_budget (self (snd (workers_advance schedule w)))
                (next_obj (snd (workers_advance schedule w))).
Proof.
  revert w. induction schedule as [|job rest IH]; intros w Hok; simpl.
  - exact Hok.
  - unfold bind. pose proof (worker_advance_ok job w) as Hr.
    destruct (worker_advance_ledger job w) as (H1 & H2 & H3 & H4).
    assert (H5 : procs (self (snd (worker_advance job w))) = procs (self w)).
    { unfold worker_advance.
      destruct (nth_error (pool w) job) as [tk|]; [|reflexivity].
      destruct (pending tk) as [|a rest']; [reflexivity|].
      destruct a as [e|pid|pid|i rc]; try reflexivity.
      simpl. rewrite notifyStageTerminated_trace. reflexivity. }
    destruct (worker_advance job w) as [r w1]. simpl in *. subst r.
    apply IH. unfold within_budget, ledger_sum in *.
    rewrite H1, H2, H4, H5. exact Hok.
Qed.

(** X7.  If the server hands out only stages that ask for no more
    processes than the executor reported free in [getCommand] (and for no
    negative number), then at every boundary of the main loop
    [runningProcs] lies between 0 and the executor's [procs]. *)
Theorem runningProcs_within_budget (w : World) :
  trusted_boundary w ->
  0 <= runningProcs (self w) <= procs (self w).
Proof.
  intros Hb.
  assert (H : within_budget (self w) (next_obj w)).
  { induction Hb as [l options w Hp Hc|t w Ht _ IH|schedule w _ IH].
    - apply connect_ok in Hc. subst w. unfold within_budget, ledger_sum. simpl.
      repeat split; try constructor. exact Hp.
    - exact (within_budget_mainFn t w Ht IH).
    - exact (within_budget_workers_advance schedule w IH). }
  destruct H as ((_ & _ & Hsum) & Hpos & Hle).
  pose proof (sum_procs_nonneg _ Hpos). lia.
Qed.

Lemma runningProcs_within_budget_witness :
  0 <= runningProcs (self stage_1_handed_out) <= procs (self stage_1_handed_out).
Proof.
  apply (runningProcs_within_budget stage_1_handed_out).
  unfold stage_1_handed_out. apply trusted_mainFn.
  - intros i p _ Hp. injection Hp as <-. vm_compute. split; discriminate.
  - apply (trusted_connected (scenario_launch []) scenario_options).
    + vm_compute. discriminate.
    + reflexivity.
Defined.

(** X8.  [mainFn] never asks [canRun]: when the server says [run_stage]
    and the iteration returns true, the stage has been handed to the pool
    whatever it asks for.  The idle seconds are 0, the ledger has grown by
    the stage's reservation, the new child is last in [runningChildren]
    and its task is last in the pool. *)
Theorem mainFn_dispatches_what_the_server_hands_out
    (t : Tick) (w : World) (i : Z) :
  tick_getCommand t = Ok ("run_stage"%string, i) ->
  fst (mainFn t w) = Ok true ->
  exists (stageMem : Q) (stageProcs : Z),
    tick_getStageMem t = Ok stageMem
    /\ tick_getStageProcs t = Ok stageProcs
    /\ idle_time (self (snd (mainFn t w))) = 0%Q
    /\ runningProcs (self (snd (mainFn t w)))
       = runningProcs (self (swept t w)) + stageProcs
    /\ runningMem (self (snd (mainFn t w)))
       = (runningMem (self (swept t w)) + stageMem)%Q
    /\ runningChildren (self (snd (mainFn t w)))
       = runningChildren (self (swept t w))
         ++ [ChildProcess.mk (next_obj w) i (length (pool w)) stageMem stageProcs]
    /\ pool (snd (mainFn t w))
       = pool w ++ [mkTask i (fst (runStage (tick_run t) i))].
Proof.
  intros Hcmd Htrue.
  destruct (account_idle_frame (swept t w)) as [v Hv].
  assert (Hm : mainFn t w = check_timers t (snd (account_idle (swept t w)))).
  { rewrite mainFn_parts in *. unfold bind in *.
    destruct (account_idle (swept t w)) as [[[]|e] w1]; simpl in *;
      [reflexivity|discriminate]. }
  rewrite Hm in *.
  destruct (check_timers_cases t (snd (account_idle (swept t w))))
    as [(_ & _ & _ & Hwait) | (i' & m & p & Hcmd' & Hmem & Hp & _ & Hself
                                & Hpool & _)].
  - destruct (Hwait Htrue) as [j Hj]. rewrite Hcmd in Hj. discriminate.
  - rewrite Hcmd in Hcmd'. injection Hcmd' as <-.
    exists m, p. rewrite Hself, Hpool, Hv. unfold dispatched, swept. simpl.
    repeat split; assumption.
Qed.

Lemma mainFn_dispatches_what_the_server_hands_out_witness :
  canRun (self connected) 64%Q 5 (runningMem (self connected))
         (runningProcs (self connected)) = false
  /\ exists (stageMem : Q) (stageProcs : Z),
      tick_getStageMem hand_out_too_much = Ok stageMem
      /\ tick_getStageProcs hand_out_too_much = Ok stageProcs
      /\ idle_time (self (snd (mainFn hand_out_too_much connected))) = 0%Q
      /\ runningProcs (self (snd (mainFn hand_out_too_much connected)))
         = runningProcs (self (swept hand_out_too_much connected)) + stageProcs
      /\ runningMem (self (snd (mainFn hand_out_too_much connected)))
         = (runningMem (self (swept hand_out_too_much connected)) + stageMem)%Q
      /\ runningChildren (self (snd (mainFn hand_out_too_much connected)))
         = runningChildren (self (swept hand_out_too_much connected))
           ++ [ChildProcess.mk (next_obj connected) 9 (length (pool connected))
                               stageMem stageProcs]
      /\ pool (snd (mainFn hand_out_too_much connected))
         = pool connected
           ++ [mkTask 9 (fst (runStage (tick_run hand_out_too_much) 9))].
Proof.
  split; [reflexivity|].
  apply (mainFn_dispatches_what_the_server_hands_out hand_out_too_much
           connected 9); reflexivity.
Defined.

(** ** Clock and configuration *)

Lemma swept_config (t : Tick) (w : World) :
  config (self (swept t w)) = config (self w).
Proof.
  unfold swept, config. simpl.
  destruct (free_loop_total (result_ready (pool w)) 0
              (with_current_time (Some (tick_time t))
                 (with_prev_time (current_time (self w)) (self w))))
    as [_ (H1&H2&_&_&_&H6&H7&H8&_&H10)].
  simpl in *. rewrite H1, H2, H6, H7, H8, H10. reflexivity.
Qed.

Lemma mainFn_config (t : Tick) (w : World) :
  config (self (snd (mainFn t w))) = config (self w).
Proof.
  destruct (account_idle_frame (swept t w)) as [v Hv].
  assert (H2 : config (self (snd (account_idle (swept t w)))) = config (self w)).
  { rewrite Hv. rewrite <- (swept_config t w). reflexivity. }
  destruct (mainFn_world t w) as [-> | ->]; [exact H2|].
  destruct (check_timers_cases t (snd (account_idle (swept t w))))
    as [(Hs & _) | (i & m & p & _ & _ & _ & _ & Hs & _)];
    rewrite Hs; exact H2.
Qed.

Lemma perform_config (a : action) (w : World) :
  config (self (snd (perform a w))) = config (self w).
Proof.
  destruct a as [e|pid|pid|i rc]; try reflexivity.
  simpl. rewrite notifyStageTerminated_trace. reflexivity.
Qed.

Lemma workers_advance_config (schedule : list nat) (w : World) :
  config (self (snd (workers_advance schedule w))) = config (self w).
Proof.
  revert w. induction schedule as [|job rest IH]; intros w; simpl.
  - reflexivity.
  - unfold bind. pose proof (worker_advance_ok job w) as Hr.
    assert (Hc : config (self (snd (worker_advance job w))) = config (self w)).
    { unfold worker_advance.
      destruct (nth_error (pool w) job) as [tk|]; [|reflexivity].
      destruct (pending tk) as [|a rest']; [reflexivity|].
      rewrite perform_config. reflexivity. }
    destruct (worker_advance job w) as [r w1]. simpl in *. subst r.
    rewrite IH. exact Hc.
Qed.

(** X9.  An executor built from [options] that has connected keeps, at
    every boundary of its main loop, the memory, the processes and the two
    limits of these options, the time of its connection and the flag set:
    neither [mainFn] nor the workers change them.  So [is_time_to_drain]
    finds a connection time and never raises there. *)
Theorem loop_keeps_configuration
    (l : Launch) (options : Options.t) (w0 w : World) :
  connect l (new_process options) = (Ok tt, w0) ->
  loop_from w0 w ->
  config (self w)
  = (Options.mem options, Options.proc options,
     Options.time_to_seppuku options, Options.time_to_accept_jobs options,
     Some (launch_time l), true)
  /\ forall now : Q, exists b : bool, is_time_to_drain now (self w) = Ok b.
Proof.
  intros Hc Hfrom.
  assert (H : config (self w)
              = (Options.mem options, Options.proc options,
                 Options.time_to_seppuku options,
                 Options.time_to_accept_jobs options,
                 Some (launch_time l), true)).
  { induction Hfrom as [|t w _ IH|schedule w _ IH].
    - apply connect_ok in Hc. subst w0. reflexivity.
    - rewrite mainFn_config. exact IH.
    - rewrite workers_advance_config. exact IH. }
  split; [exact H|].
  unfold config in H. injection H as _ _ _ _ Hconn _.
  intros now. unfold is_time_to_drain, sub_or_TypeError. rewrite Hconn.
  destruct (time_to_accept_jobs (self w)) as [limit|]; [|exists false; reflexivity].
  destruct (divmod (now - launch_time l) 60) as [minutes seconds].
  destruct (limit <? minutes); [exists true|exists false]; reflexivity.
Qed.

Lemma loop_keeps_configuration_witness :
  config (self waited_twice)
  = (Options.mem scenario_options, Options.proc scenario_options,
     Options.time_to_seppuku scenario_options,
     Options.time_to_accept_jobs scenario_options,
     Some (launch_time (scenario_launch [])), true)
  /\ forall now : Q, exists b : bool, is_time_to_drain now (self waited_twice) = Ok b.
Proof.
  apply (loop_keeps_configuration (scenario_launch []) scenario_options
           connected waited_twice).
  - reflexivity.
  - unfold waited_twice. apply from_mainFn. apply from_mainFn. apply from_start.
Defined.

(** X10.  Once [is_time_to_drain] answers true it answers true at every
    later time: the executor does not go back to accepting jobs. *)
Theorem drain_is_final (now later : Q) (s : pipelineExecutor) :
  is_time_to_drain now s = Ok true ->
  (now <= later)%Q ->
  is_time_to_drain later s = Ok true.
Proof.
  intros Hd Hle. apply is_time_to_drain_true in Hd.
  destruct Hd as (limit & conn & Hl & Hc & Hlate).
  apply is_time_to_drain_true. exists limit, conn.
  split; [exact Hl|]. split; [exact Hc|].
  apply Qle_trans with (now - conn)%Q; [exact Hlate|].
  unfold Qminus. apply Qplus_le_compat; [exact Hle|apply Qle_refl].
Qed.

Lemma drain_is_final_witness :
  is_time_to_drain 500 (self accepting_for_two_minutes) = Ok true.
Proof.
  apply (drain_is_final 180 500 (self accepting_for_two_minutes)).
  - reflexivity.
  - vm_compute. discriminate.
Defined.

Lemma account_idle_idle_time (t : Tick) (w : World) :
  idle_time (self (snd (account_idle (swept t w)))) = idle_time_after t w.
Proof.
  destruct (swept_settings t w) as (_&_&Hidle&Hprev&Hcur&_).
  unfold idle_time_after, account_idle, bind, get_self, answer, update, ret.
  destruct (idle (self (swept t w))) eqn:Hi.
  - unfold idle in Hi. apply andb_true_iff in Hi. destruct Hi as [_ Ht].
    rewrite Hcur, Hprev, Hidle. rewrite Hprev in Ht.
    destruct (current_time (self w)) as [prev|]; [|discriminate].
    simpl. destruct (mul_or_TypeError _ _); reflexivity.
  - cbn [snd]. rewrite Hidle. destruct (current_time (self w)); reflexivity.
Qed.

(** X11.  An iteration of the main loop that hands out no stage leaves
    these idle seconds: those it found, plus the time since the previous
    tick if, after its sweep, both counters are zero and there was a
    previous tick.  The first iteration adds nothing. *)
Theorem idle_seconds_after_an_iteration (t : Tick) (w : World) :
  (forall i : Z, tick_getCommand t <> Ok ("run_stage"%string, i)) ->
  idle_time (self (snd (mainFn t w))) = idle_time_after t w.
Proof.
  intros Hno. rewrite <- account_idle_idle_time.
  destruct (mainFn_world t w) as [-> | ->]; [reflexivity|].
  destruct (check_timers_cases t (snd (account_idle (swept t w))))
    as [(Hs & _) | (i & m & p & Hcmd & _)].
  - rewrite Hs. reflexivity.
  - exfalso. exact (Hno i Hcmd).
Qed.

Lemma idle_seconds_after_an_iteration_witness :
  idle_time (self (snd (mainFn (server_says_wait 6)
                          (snd (mainFn (server_says_wait 1) connected)))))
  = idle_time_after (server_says_wait 6)
                    (snd (mainFn (server_says_wait 1) connected))
  /\ idle_time_after (server_says_wait 6)
                     (snd (mainFn (server_says_wait 1) connected))
     = (0 + (6 - 1))%Q.
Proof.
  split; [|reflexivity].
  apply (idle_seconds_after_an_iteration (server_says_wait 6)
           (snd (mainFn (server_says_wait 1) connected))).
  intros i H. discriminate.
Defined.

(** X12.  A negative idle limit does not switch the limit off: an
    executor built with one leaves its main loop in the first iteration,
    before it asks the server for work. *)
Theorem negative_idle_limit_stops_at_once
    (l : Launch) (options : Options.t) (w : World) (t : Tick) (minutes : Z) :
  connect l (new_process options) = (Ok tt, w) ->
  Options.time_to_seppuku options = Some minutes ->
  minutes < 0 ->
  fst (mainFn t w) = Ok false /\ trace (snd (mainFn t w)) = trace w.
Proof.
  intros Hc Hopt Hneg. apply connect_ok in Hc.
  assert (Hcur : current_time (self w) = None) by (subst w; reflexivity).
  assert (Hidle0 : idle_time (self w) = 0%Q) by (subst w; reflexivity).
  assert (Hsep : time_to_seppuku (self w) = Some minutes)
    by (subst w; exact Hopt).
  clear Hc.
  destruct (swept_settings t w) as (_&_&Hidle&Hprev&Hcurs&Hseps&_).
  assert (Hnot : idle (self (swept t w)) = false).
  { unfold idle. rewrite Hprev, Hcur. simpl. apply andb_false_r. }
  destruct (account_idle_ok (swept t w)) as [v Hv].
  { rewrite Hseps, Hsep. discriminate. }
  { rewrite Hcurs. discriminate. }
  pose proof (account_idle_idle_time t w) as Hafter.
  unfold idle_time_after in Hafter. rewrite Hcur in Hafter.
  rewrite Hv in Hafter. simpl in Hafter.
  assert (H : exists w', (account_idle ;;; check_timers t) (swept t w)
                         = (Ok false, w') /\ trace w' = trace w).
  { unfold bind at 1. rewrite Hv.
    unfold check_timers, bind, get_self, answer, ret.
    cbv beta iota. cbn [self].
    assert (Hs : is_seppuku_time (with_idle_time v (self (swept t w))) = true).
    { apply is_seppuku_time_true. exists minutes. split.
      - change (time_to_seppuku (with_idle_time v (self (swept t w))))
          with (time_to_seppuku (self (swept t w))).
        rewrite Hseps. exact Hsep.
      - change (idle_time (with_idle_time v (self (swept t w)))) with v.
        rewrite Hafter, Hidle0.
        change 0%Q with (inject_Z 0). rewrite <- Zlt_Qlt. lia. }
    rewrite Hs. eexists. split; reflexivity. }
  rewrite mainFn_parts.
  destruct H as (w' & -> & Htr). split; [reflexivity|exact Htr].
Qed.

Lemma negative_idle_limit_stops_at_once_witness :
  fst (mainFn (server_says_wait 1)
         (snd (connect (scenario_launch [])
                 (new_process (Options.mk 1 2 6%Q (Some (-1)) None true)))))
  = Ok false
  /\ trace (snd (mainFn (server_says_wait 1)
                   (snd (connect (scenario_launch [])
                           (new_process
                              (Options.mk 1 2 6%Q (Some (-1)) None true))))))
     = trace (snd (connect (scenario_launch [])
                     (new_process (Options.mk 1 2 6%Q (Some (-1)) None true)))).
Proof.
  apply (negative_idle_limit_stops_at_once (scenario_launch [])
           (Options.mk 1 2 6%Q (Some (-1)) None true) _ (server_says_wait 1) (-1)).
  - reflexivity.
  - reflexivity.
  - lia.
Defined.

(** ** Shutdown *)

Lemma generalShutdownCall_spec (kill : Z -> Result unit) (ans : Result unit)
    (w : World) :
  registered_with_server (self w) = true ->
  Forall (fun pid => kill pid = Ok tt) (current_running_job_pids (self w)) ->
  generalShutdownCall kill ans w =
  (ans,
   mkWorld (with_registered_with_server false (self w)) (pool w)
           (trace w ++ map Kill (current_running_job_pids (self w))
                    ++ [Rpc unregisterClient])
           (next_obj w)).
Proof.
  intros Hreg Hok. unfold generalShutdownCall, bind at 1, get_self.
  unfold bind at 1. rewrite (kill_all_trace kill _ w Hok).
  unfold unregister_with_server, bind, get_self, update, emit, answer.
  simpl. rewrite Hreg. simpl. rewrite <- app_assoc. reflexivity.
Qed.

(** X13.  [generalShutdownCall] on a registered executor, when every
    [os.kill] returns, sends SIGTERM to each pid of
    [current_running_job_pids], in order, and then [unregisterClient]; it
    does not wait: the pool and its outstanding tasks are as before, and it
    ends as the request to unregister ends. *)
Theorem generalShutdownCall_kills_and_unregisters
    (kill : Z -> Result unit) (ans : Result unit) (w : World) :
  registered_with_server (self w) = true ->
  Forall (fun pid => kill pid = Ok tt) (current_running_job_pids (self w)) ->
  generalShutdownCall kill ans w =
  (ans,
   mkWorld (with_registered_with_server false (self w)) (pool w)
           (trace w ++ map Kill (current_running_job_pids (self w))
                    ++ [Rpc unregisterClient])
           (next_obj w)).
Proof.
  intros Hreg Hok. exact (generalShutdownCall_spec kill ans w Hreg Hok).
Qed.

Lemma generalShutdownCall_kills_and_unregisters_witness :
  generalShutdownCall (fun _ => Ok tt) (Ok tt) interrupted_while_running =
  (Ok tt,
   mkWorld (with_registered_with_server false (self interrupted_while_running))
           (pool interrupted_while_running)
           (trace interrupted_while_running ++ [Kill 4001; Rpc unregisterClient])
           (next_obj interrupted_while_running)).
Proof.
  apply (generalShutdownCall_kills_and_unregisters (fun _ => Ok tt) (Ok tt)
           interrupted_while_running).
  - reflexivity.
  - vm_compute. repeat constructor.
Defined.

(** X14.  After a call of [unregister_with_server], however it ended, a
    further call does nothing: it returns at once, sends no request and
    changes no state.  The same holds after [completeAndExitChildren], and
    after a [generalShutdownCall] in which every [os.kill] returned.  A
    [generalShutdownCall] that an [os.kill] ended has not unregistered: the
    flag is still set, and a further call of [unregister_with_server]
    unsets it and sends the request. *)
Theorem unregister_twice_sends_once
    (kill : Z -> Result unit) (ans1 ans2 : Result unit) (w : World) :
  unregister_with_server ans2 (snd (unregister_with_server ans1 w))
  = (Ok tt, snd (unregister_with_server ans1 w))
  /\ unregister_with_server ans2 (snd (completeAndExitChildren ans1 w))
     = (Ok tt, snd (completeAndExitChildren ans1 w))
  /\ (Forall (fun pid => kill pid = Ok tt) (current_running_job_pids (self w)) ->
      unregister_with_server ans2 (snd (generalShutdownCall kill ans1 w))
      = (Ok tt, snd (generalShutdownCall kill ans1 w)))
  /\ (forall (before : list Z) (pid : Z) (rest : list Z) (e : exn),
         registered_with_server (self w) = true ->
         current_running_job_pids (self w) = before ++ pid :: rest ->
         Forall (fun p => kill p = Ok tt) before ->
         kill pid = Raise e ->
         registered_with_server (self (snd (generalShutdownCall kill ans1 w)))
         = true
         /\ unregister_with_server ans2 (snd (generalShutdownCall kill ans1 w))
            = (ans2,
               mkWorld (with_registered_with_server false (self w)) (pool w)
                       (trace w ++ map Kill (before ++ [pid])
                                ++ [Rpc unregisterClient])
                       (next_obj w))).
Proof.
  assert (Hflag : forall w0, registered_with_server
                               (self (snd (unregister_with_server ans1 w0)))
                             = false).
  { intros w0. unfold unregister_with_server, bind, get_self, update, emit,
      answer, ret.
    destruct (registered_with_server (self w0)) eqn:E; simpl.
    - destruct ans1; reflexivity.
    - exact E. }
  assert (Hnoop : forall w0, registered_with_server (self w0) = false ->
                             unregister_with_server ans2 w0 = (Ok tt, w0)).
  { intros w0 E. unfold unregister_with_server, bind, get_self, ret.
    rewrite E. reflexivity. }
  split; [|split; [|split]].
  - apply Hnoop, Hflag.
  - apply Hnoop. unfold completeAndExitChildren, bind at 1, get_self.
    unfold bind at 1.
    destruct (0 <? Z.of_nat (length (current_running_job_pids (self w)))).
    + unfold bind at 1. unfold emit at 1. cbv beta iota.
      unfold pool_join, bind at 1.
      match goal with |- context [perform_all ?l ?w0] =>
        pose proof (perform_all_ok l w0) as Hok;
        destruct (perform_all l w0) as [r w1] end.
      simpl in Hok. subst r. unfold emit at 1. cbv beta iota. apply Hflag.
    + unfold ret. cbv beta iota. apply Hflag.
  - intros Hok. apply Hnoop. unfold generalShutdownCall, bind at 1, get_self.
    unfold bind at 1. rewrite (kill_all_trace kill _ w Hok). apply Hflag.
  - intros before pid rest e Hreg Hpids Hok Hpid.
    rewrite (generalShutdownCall_raises kill ans1 before pid rest e w
               Hpids Hok Hpid).
    cbn [snd self]. split; [exact Hreg|].
    unfold unregister_with_server, bind, get_self, update, emit, answer.
    cbn [self]. rewrite Hreg. cbn [self pool trace next_obj].
    rewrite <- app_assoc. destruct ans2 as [[]|e2]; reflexivity.
Qed.

Lemma unregister_twice_sends_once_witness :
  unregister_with_server (Ok tt)
    (snd (generalShutdownCall (fun _ => Ok tt) (Ok tt) interrupted_while_running))
  = (Ok tt,
     snd (generalShutdownCall (fun _ => Ok tt) (Ok tt) interrupted_while_running))
  /\ registered_with_server
       (self (snd (generalShutdownCall (fun _ => Raise OSError) (Ok tt)
                     interrupted_while_running)))
     = true
  /\ unregister_with_server (Ok tt)
       (snd (generalShutdownCall (fun _ => Raise OSError) (Ok tt)
               interrupted_while_running))
     = (Ok tt,
        mkWorld (with_registered_with_server false
                   (self interrupted_while_running))
                (pool interrupted_while_running)
                (trace interrupted_while_running ++ map Kill ([] ++ [4001])
                   ++ [Rpc unregisterClient])
                (next_obj interrupted_while_running)).
Proof.
  split.
  - apply (proj1 (proj2 (proj2 (unregister_twice_sends_once
                                  (fun _ => Ok tt) (Ok tt) (Ok tt)
                                  interrupted_while_running)))).
    vm_compute. repeat constructor.
  - apply (proj2 (proj2 (proj2 (unregister_twice_sends_once
                                  (fun _ => Raise OSError) (Ok tt) (Ok tt)
                                  interrupted_while_running)))
             [] 4001 [] OSError).
    + reflexivity.
    + vm_compute. reflexivity.
    + constructor.
    + reflexivity.
Defined.

Lemma mainLoop_config (ticks : list Tick) (w : World) :
  config (self (snd (mainLoop ticks w))) = config (self w).
Proof.
  revert w. induction ticks as [|t rest IH]; intros w; simpl.
  - reflexivity.
  - unfold bind. pose proof (mainFn_config t w) as Hc.
    destruct (mainFn t w) as [[[|]|e] w1]; simpl in *; try exact Hc.
    pose proof (workers_advance_ok (tick_workers t) w1) as Hok.
    pose proof (workers_advance_config (tick_workers t) w1) as Hc'.
    destruct (workers_advance (tick_workers t) w1) as [r w2]. simpl in *.
    subst r. rewrite IH, Hc'. exact Hc.
Qed.

Lemma completeAndExitChildren_result (ans : Result unit) (w : World) :
  registered_with_server (self w) = true ->
  fst (completeAndExitChildren ans w) = ans
  /\ exists tr, trace (snd (completeAndExitChildren ans w))
                = tr ++ [Rpc unregisterClient].
Proof.
  intros Hreg. split.
  - assert (Hun : forall w0, registered_with_server (self w0) = true ->
                             fst (unregister_with_server ans w0) = ans).
    { intros w0 E. unfold unregister_with_server, bind, get_self, update,
        emit, answer. rewrite E. simpl. destruct ans; reflexivity. }
    unfold completeAndExitChildren, bind at 1, get_self. unfold bind at 1.
    destruct (0 <? Z.of_nat (length (current_running_job_pids (self w)))).
    + unfold bind at 1. unfold emit at 1. cbv beta iota.
      unfold pool_join, bind at 1.
      match goal with |- context [perform_all ?l ?w0] =>
        pose proof (perform_all_ok l w0) as Hok;
        destruct (perform_all_frame l w0) as (_ & Hr & _);
        destruct (perform_all l w0) as [r w1] end.
      simpl in Hok, Hr. subst r. unfold emit at 1. cbv beta iota.
      apply Hun. simpl. rewrite Hr. exact Hreg.
    + unfold ret. cbv beta iota. apply Hun. exact Hreg.
  - destruct (current_running_job_pids (self w)) as [|pid pids] eqn:E.
    + rewrite (completeAndExitChildren_without_pids ans w E Hreg). simpl.
      eexists. reflexivity.
    + destruct (completeAndExitChildren_with_pids ans w) as (_ & tr & Htr).
      * rewrite E. discriminate.
      * exact Hreg.
      * rewrite Htr. exists (trace w ++ [PoolClose] ++ tr ++ [PoolJoin]).
        rewrite <- !app_assoc. reflexivity.
Qed.

(** X15.  The request to unregister is not guarded: if the server answers
    it with an exception (every [os.kill] before it having returned), a
    registered executor ends with that exception however its main loop
    ended, also where the code would have called [sys.exit(0)], and its
    last act is the request: the daemon is not shut down.  For an ordinary
    exception the exit status is 1. *)
Theorem failed_unregister_ends_the_executor (l : Launch) (w : World) (e : exn) :
  registered_with_server (self w) = true ->
  launch_unregisterClient l = Raise e ->
  Forall (fun pid => launch_kill l pid = Ok tt)
         (current_running_job_pids (self (snd (mainLoop (launch_ticks l) w)))) ->
  (forall code, fst (mainLoop (launch_ticks l) w) <> Raise (SystemExit code)) ->
  fst (run_executor l w) = Raise e
  /\ (exists tr, trace (snd (run_executor l w)) = tr ++ [Rpc unregisterClient])
  /\ (is_Exception e = true -> exit_status (fst (run_executor l w)) = 1).
Proof.
  intros Hreg Hun Hkill Hloop.
  assert (Hreg' : registered_with_server (self (snd (mainLoop (launch_ticks l) w)))
                  = true).
  { pose proof (mainLoop_config (launch_ticks l) w) as Hc. unfold config in Hc.
    injection Hc as _ _ _ _ _ Hr. rewrite Hr. exact Hreg. }
  assert (H : fst (run_executor l w) = Raise e
              /\ exists tr, trace (snd (run_executor l w))
                            = tr ++ [Rpc unregisterClient]).
  { unfold run_executor. rewrite Hun.
    destruct (mainLoop (launch_ticks l) w) as [r w'] eqn:E.
    simpl in Hloop, Hreg', Hkill.
    assert (Hshut : fst ((generalShutdownCall (launch_kill l) (Raise e) ;;;
                          @sys_exit unit (Some 0)) w') = Raise e
                    /\ exists tr,
                         trace (snd ((generalShutdownCall (launch_kill l)
                                        (Raise e) ;;;
                                      @sys_exit unit (Some 0)) w'))
                         = tr ++ [Rpc unregisterClient]).
    { unfold bind.
      rewrite (generalShutdownCall_spec (launch_kill l) (Raise e) w' Hreg' Hkill).
      simpl. split; [reflexivity|].
      exists (trace w' ++ map Kill (current_running_job_pids (self w'))).
      rewrite <- app_assoc. reflexivity. }
    destruct r as [[]|e'].
    - unfold bind.
      destruct (completeAndExitChildren_result (Raise e) w' Hreg')
        as (Hres & tr & Htr).
      destruct (completeAndExitChildren (Raise e) w') as [r w''].
      simpl in *. subst r. split; [reflexivity|]. exists tr. exact Htr.
    - destruct e'; try exact Hshut.
      exfalso. exact (Hloop code eq_refl). }
  destruct H as [Hres Htr]. split; [exact Hres|]. split; [exact Htr|].
  intros He. rewrite Hres. destruct e; try reflexivity; discriminate.
Qed.

Lemma failed_unregister_ends_the_executor_witness :
  fst (run_executor (unregister_fails [server_says_shutdown 1]) connected)
  = Raise CommunicationError
  /\ (exists tr,
         trace (snd (run_executor (unregister_fails [server_says_shutdown 1])
                       connected))
         = tr ++ [Rpc unregisterClient])
  /\ exit_status
       (fst (run_executor (unregister_fails [server_says_shutdown 1]) connected))
     = 1.
Proof.
  destruct (failed_unregister_ends_the_executor
              (unregister_fails [server_says_shutdown 1]) connected
              CommunicationError) as (H1 & H2 & H3).
  - reflexivity.
  - reflexivity.
  - vm_compute. constructor.
  - intros code. vm_compute. discriminate.
  - split; [exact H1|]. split; [exact H2|]. apply H3. reflexivity.
Defined.

(** X16.  [launchExecutor] does not guard its start either.  If the
    server cannot be found it ends with that exception and has done
    nothing; if [registerClient] raises it ends with that exception after
    the one request.  In both cases the flag is as before, the main loop
    has not run and no [unregisterClient] is sent. *)
Theorem failed_start_never_enters_the_loop (l : Launch) (w : World) (e : exn) :
  (launch_serverURI l = Raise e -> launchExecutor l w = (Raise e, w))
  /\ (launch_serverURI l = Ok tt -> launch_registerClient l = Raise e ->
      launchExecutor l w =
      (Raise e,
       mkWorld (self w) (pool w)
               (trace w ++ [Rpc (registerClient (mem (self w)))]) (next_obj w))).
Proof.
  unfold launchExecutor, connect, bind, answer, get_self, emit. split.
  - intros ->. reflexivity.
  - intros -> ->. reflexivity.
Qed.

Lemma failed_start_never_enters_the_loop_witness :
  launchExecutor no_server (new_process scenario_options)
  = (Raise OSError, new_process scenario_options)
  /\ launchExecutor registration_refused (new_process scenario_options)
     = (Raise CommunicationError,
        mkWorld (self (new_process scenario_options))
                (pool (new_process scenario_options))
                (trace (new_process scenario_options)
                 ++ [Rpc (registerClient
                            (mem (self (new_process scenario_options))))])
                (next_obj (new_process scenario_options))).
Proof.
  split.
  - apply (proj1 (failed_start_never_enters_the_loop no_server
                    (new_process scenario_options) OSError)).
    reflexivity.
  - apply (proj2 (failed_start_never_enters_the_loop registration_refused
                    (new_process scenario_options) CommunicationError));
      reflexivity.
Defined.

(** ** The stage runner *)

(** X17.  [runStage] returns normally exactly when the stage could be
    marked as started, the report of its outcome through the executor
    returned, and the server answers the two final requests for the
    stage's memory and processes; it then returns these two answers.
    Whether the command could be spawned, and how it exited, plays no
    part.  When the report raises, [runStage] raises. *)
Theorem runStage_returns_the_reservation (o : StageRun) (i : Z)
    (stageMem : Q) (stageProcs : Z) :
  (snd (runStage o i) = Ok (stageMem, stageProcs) <->
   (run_setStageStarted o = Ok tt
    /\ run_notifyStageTerminated o = Ok tt
    /\ run_getStageMem o = Ok stageMem
    /\ run_getStageProcs o = Ok stageProcs))
  /\ (forall e : exn,
         run_setStageStarted o = Ok tt ->
         run_notifyStageTerminated o = Raise e ->
         snd (runStage o i) = Raise e).
Proof.
  unfold runStage, runStage_body.
  destruct o as [st cmd lf op po rc cl nt gm gp]; simpl.
  split.
  - destruct st as [[]|], cmd, lf, op, po, cl, nt as [[]|], gm, gp; simpl;
      split; intros H;
      try discriminate;
      try (destruct H as (H1 & H2 & H3 & H4); discriminate);
      try (injection H as <- <-; repeat split);
      try (destruct H as (_ & _ & H3 & H4); congruence).
  - intros e -> ->.
    destruct cmd, lf, op, po, cl; reflexivity.
Qed.

Lemma runStage_returns_the_reservation_witness :
  snd (runStage (stage_fails 4001 3%Q 1) 1) = Ok (3%Q, 1)
  /\ snd (runStage (report_lost 4001 3%Q 1) 1) = Raise CommunicationError.
Proof.
  split.
  - apply (proj1 (runStage_returns_the_reservation
                    (stage_fails 4001 3%Q 1) 1 3%Q 1)).
    repeat split.
  - apply (proj2 (runStage_returns_the_reservation
                    (report_lost 4001 3%Q 1) 1 3%Q 1) CommunicationError);
      reflexivity.
Defined.

(** X18.  [runStage] spawns a process only for a stage that it could mark
    as started, whose command and log file the server gave and whose log
    file could be opened: a pid is spawned exactly when all of that and
    the spawning itself succeeded.  In every other run no process
    exists. *)
Theorem runStage_spawns_only_a_started_stage (o : StageRun) (i pid : Z) :
  In pid (spawned (fst (runStage o i))) <->
  (run_setStageStarted o = Ok tt
   /\ (exists command, run_getStageCommand o = Ok command)
   /\ (exists logfile, run_getStageLogfile o = Ok logfile)
   /\ run_open_write o = Ok tt
   /\ run_Popen o = Ok pid).
Proof.
  destruct o as [started command logfile opened popen rc closed notified m p].
  unfold runStage, runStage_body, w_try_else, w_bind, w_call, w_answer, w_do,
    w_ret, w_notifyStageTerminated.
  cbn [run_setStageStarted run_getStageCommand run_getStageLogfile
       run_open_write run_Popen run_returncode run_close
       run_notifyStageTerminated run_getStageMem run_getStageProcs].
  split.
  - destruct started as [[]|e]; [|simpl; tauto].
    destruct command as [c|e]; [|destruct notified, m, p; simpl; tauto].
    destruct logfile as [f|e]; [|destruct notified, m, p; simpl; tauto].
    destruct opened as [[]|e]; [|destruct notified, m, p; simpl; tauto].
    destruct popen as [pid'|e]; [|destruct notified, m, p; simpl; tauto].
    intros Hin.
    assert (pid' = pid) as ->.
    { destruct closed as [[]|e], notified, m, p; simpl in Hin; tauto. }
    repeat split; eauto.
  - intros (Hs & [c Hc] & [f Hf] & Ho & Hp).
    rewrite Hs, Hc, Hf, Ho, Hp.
    destruct closed as [[]|e], notified, m, p; simpl; tauto.
Qed.

Lemma remove_pid_last (pid : Z) (l : list Z) :
  ~ In pid l -> remove_pid pid (l ++ [pid]) = l.
Proof.
  induction l as [|x l IH]; intros Hn; simpl.
  - rewrite Z.eqb_refl. reflexivity.
  - destruct (x =? pid) eqn:E.
    + apply Z.eqb_eq in E. exfalso. apply Hn. left. exact E.
    + rewrite IH; [reflexivity|]. intros Hin. apply Hn. right. exact Hin.
Qed.

(** X19.  A run of [runStage] spawns at most one process, and leaves
    [current_running_job_pids] as it found it: the pid of the process it
    spawned, new to the list, is added before the wait and removed after
    it, and a run that spawned nothing never touches the list. *)
Theorem runStage_leaves_the_pids (o : StageRun) (i : Z) (w : World) :
  (forall pid, In pid (spawned (fst (runStage o i))) ->
               ~ In pid (current_running_job_pids (self w))) ->
  (length (spawned (fst (runStage o i))) <= 1)%nat
  /\ current_running_job_pids (self (snd (perform_all (fst (runStage o i)) w)))
     = current_running_job_pids (self w).
Proof.
  unfold runStage, runStage_body.
  destruct o as [st cmd lf op po rc cl nt gm gp]; simpl.
  destruct st as [[]|], cmd, lf, op, po as [pid|], cl, nt, gm, gp; simpl;
    intros Hnew; (split; [lia|]);
    unfold bind; simpl;
    rewrite ?notifyStageTerminated_trace; simpl;
    try reflexivity;
    rewrite remove_pid_last; try reflexivity;
    apply Hnew; left; reflexivity.
Qed.

Lemma runStage_leaves_the_pids_witness :
  (length (spawned (fst (runStage (stage_fails 4001 3%Q 1) 1))) <= 1)%nat
  /\ current_running_job_pids
       (self (snd (perform_all (fst (runStage (stage_fails 4001 3%Q 1) 1))
                     connected)))
     = current_running_job_pids (self connected).
Proof.
  apply (runStage_leaves_the_pids (stage_fails 4001 3%Q 1) 1 connected).
  intros pid H. vm_compute. intros [].
Defined.

(** ** The heartbeat *)

Lemma steps_after_heartbeat_ended (c c' : Threads) :
  steps c c' -> hb c = HbDone ->
  hb c' = HbDone
  /\ heartbeats (trace (world c')) = heartbeats (trace (world c)).
Proof.
  induction 1 as [c|c c1 c2 Hstep _ IH]; intros Hdone.
  - split; [exact Hdone|reflexivity].
  - destruct Hstep as [c ans Hnot|c _].
    + congruence.
    + destruct IH as [IH1 IH2]; [exact Hdone|].
      split; [exact IH1|]. rewrite IH2. simpl.
      destruct (un c); simpl; try reflexivity.
      * destruct (registered_with_server (self (world c))); reflexivity.
      * rewrite heartbeats_app. simpl. lia.
Qed.

(** X20.  The first request of the heartbeat that raises is its last: the
    thread ends, and whatever happens afterwards no further
    [updateClientTimestamp] is sent, although the executor is still
    registered and its main loop goes on. *)
Theorem heartbeat_ends_at_its_first_failure (e : exn) (c c' : Threads) :
  hb c = HbCall ->
  steps (heartbeat_failed e c) c' ->
  hb c' = HbDone
  /\ heartbeats (trace (world c')) = S (heartbeats (trace (world c)))
  /\ registered_with_server (self (world (heartbeat_failed e c)))
     = registered_with_server (self (world c)).
Proof.
  intros Hcall Hsteps.
  assert (Hdone : hb (heartbeat_failed e c) = HbDone).
  { unfold heartbeat_failed. rewrite Hcall. reflexivity. }
  destruct (steps_after_heartbeat_ended _ _ Hsteps Hdone) as [H1 H2].
  split; [exact H1|]. split.
  - rewrite H2. unfold heartbeat_failed. rewrite Hcall. simpl.
    rewrite heartbeats_app. simpl. lia.
  - unfold heartbeat_failed. rewrite Hcall. reflexivity.
Qed.

Lemma heartbeat_ends_at_its_first_failure_witness :
  hb (after 3 unregister_moves (heartbeat_failed CommunicationError about_to_beat))
  = HbDone
  /\ heartbeats (trace (world (after 3 unregister_moves
                                 (heartbeat_failed CommunicationError
                                    about_to_beat))))
     = S (heartbeats (trace (world about_to_beat)))
  /\ registered_with_server
       (self (world (heartbeat_failed CommunicationError about_to_beat)))
     = registered_with_server (self (world about_to_beat)).
Proof.
  apply (heartbeat_ends_at_its_first_failure CommunicationError about_to_beat).
  - reflexivity.
  - apply (steps_step _
             (after 1 unregister_moves
                (heartbeat_failed CommunicationError about_to_beat))).
    + apply (step_unregister (heartbeat_failed CommunicationError about_to_beat)).
      discriminate.
    + apply (steps_step _
               (after 2 unregister_moves
                  (heartbeat_failed CommunicationError about_to_beat))).
      * apply (step_unregister
                 (after 1 unregister_moves
                    (heartbeat_failed CommunicationError about_to_beat))).
        discriminate.
      * apply (steps_step _
                 (after 3 unregister_moves
                    (heartbeat_failed CommunicationError about_to_beat))).
        -- apply (step_unregister
                    (after 2 unregister_moves
                       (heartbeat_failed CommunicationError about_to_beat))).
           discriminate.
        -- apply steps_refl.
Defined.

(** ** Admission, again *)

(** X21.  [canRun] is monotone: a stage that is admitted stays admitted
    when it asks for less or when less is in use, in memory and in
    processes alike. *)
Theorem canRun_monotone (s : pipelineExecutor)
    (stageMem stageMem' : Q) (stageProcs stageProcs' : Z)
    (memInUse memInUse' : Q) (procsInUse procsInUse' : Z) :
  canRun s stageMem stageProcs memInUse procsInUse = true ->
  (stageMem' <= stageMem)%Q -> stageProcs' <= stageProcs ->
  (memInUse' <= memInUse)%Q -> procsInUse' <= procsInUse ->
  canRun s stageMem' stageProcs' memInUse' procsInUse' = true.
Proof.
  unfold canRun. rewrite !andb_true_iff, !Qle_bool_iff, !Z.leb_le.
  intros [Hm Hp] Hm' Hp' Hu Hu'. split; [|lia].
  apply Qle_trans with stageMem; [exact Hm'|].
  apply Qle_trans with (mem s - memInUse)%Q; [exact Hm|].
  unfold Qminus. apply Qplus_le_compat; [apply Qle_refl|].
  apply Qopp_le_compat. exact Hu.
Qed.

Lemma canRun_monotone_witness :
  canRun executor_6GB_2procs 2%Q 0 1%Q 1 = true.
Proof.
  apply (canRun_monotone executor_6GB_2procs 3%Q 2%Q 1 0 3%Q 1%Q 1 1).
  - reflexivity.
  - vm_compute. discriminate.
  - lia.
  - vm_compute. discriminate.
  - lia.
Defined.

(** ** The requests of one iteration *)

Lemma check_timers_requests (t : Tick) (w : World) :
  trace (snd (check_timers t w)) = trace w
  \/ exists rest,
       trace (snd (check_timers t w))
       = trace w ++ Rpc (getCommand (mem (self w) - runningMem (self w))%Q
                                     (procs (self w) - runningProcs (self w)))
                 :: rest
       /\ existsb is_getCommand rest = false.
Proof.
  unfold check_timers, fetch, apply_async, new_ChildProcess,
    bind, get_self, answer, update, emit, ret, raise.
  destruct (is_seppuku_time (self w)); [left; reflexivity|].
  destruct (is_time_to_drain (tick_time_drain t) (self w)) as [[|]|];
    try (left; reflexivity).
  right. simpl.
  destruct (tick_getCommand t) as [[cmd i]|];
    [|exists []; split; reflexivity].
  destruct (String.eqb cmd "shutdown_normally");
    [exists []; split; reflexivity|].
  destruct (String.eqb cmd "wait"); [exists []; split; reflexivity|].
  destruct (String.eqb cmd "run_stage"); [|exists []; split; reflexivity].
  simpl.
  destruct (tick_getStageMem t) as [stageMem|];
    [|exists [Rpc (getStageMem i)]; split; [|reflexivity];
      simpl; rewrite <- app_assoc; reflexivity].
  simpl.
  destruct (tick_getStageProcs t) as [stageProcs|];
    [|exists [Rpc (getStageMem i); Rpc (getStageProcs i)];
      split; [|reflexivity]; simpl; rewrite <- !app_assoc; reflexivity].
  exists [Rpc (getStageMem i); Rpc (getStageProcs i); PoolApplyAsync i].
  split; [|reflexivity]. simpl. rewrite <- !app_assoc. reflexivity.
Qed.

(** X22.  An iteration of the main loop asks the server for at most one
    command, and nothing leaves the process before that request.  The
    request reports as free what the executor has less what the ledger
    holds after the sweep of this iteration. *)
Theorem mainFn_asks_for_one_command (t : Tick) (w : World) :
  trace (snd (mainFn t w)) = trace w
  \/ exists rest,
       trace (snd (mainFn t w))
       = trace w ++ Rpc (getCommand
                           (mem (self w) - runningMem (self (swept t w)))%Q
                           (procs (self w) - runningProcs (self (swept t w))))
                 :: rest
       /\ existsb is_getCommand rest = false.
Proof.
  destruct (account_idle_frame (swept t w)) as [v Hv].
  destruct (swept_settings t w) as (Hmem & Hprocs & _).
  destruct (mainFn_world t w) as [-> | ->].
  - left. rewrite Hv. reflexivity.
  - destruct (check_timers_requests t (snd (account_idle (swept t w))))
      as [H | (rest & H & Hrest)].
    + left. rewrite H, Hv. reflexivity.
    + right. exists rest. split; [|exact Hrest].
      rewrite H, Hv. cbn [self trace mem procs runningMem runningProcs
                          with_idle_time].
      rewrite Hmem, Hprocs. reflexivity.
Qed.

(** X23.  [mainFn] returns true, so that the loop goes on, only when
    the server said [wait] or [run_stage]. *)
Theorem mainFn_goes_on_only_on_wait_or_run_stage (t : Tick) (w : World) :
  fst (mainFn t w) = Ok true ->
  exists i : Z,
    tick_getCommand t = Ok ("wait"%string, i)
    \/ tick_getCommand t = Ok ("run_stage"%string, i).
Proof.
  intros Htrue.
  assert (Hm : mainFn t w = check_timers t (snd (account_idle (swept t w)))).
  { rewrite mainFn_parts in *. unfold bind in *.
    destruct (account_idle (swept t w)) as [[[]|e] w1]; simpl in *;
      [reflexivity|discriminate]. }
  rewrite Hm in Htrue.
  destruct (check_timers_cases t (snd (account_idle (swept t w))))
    as [(_ & _ & _ & Hwait) | (i & m & p & Hcmd & _)].
  - destruct (Hwait Htrue) as [i Hi]. exists i. left. exact Hi.
  - exists i. right. exact Hcmd.
Qed.

Lemma mainFn_goes_on_only_on_wait_or_run_stage_witness :
  exists i : Z,
    tick_getCommand (hand_out 1 1 4001 []) = Ok ("wait"%string, i)
    \/ tick_getCommand (hand_out 1 1 4001 []) = Ok ("run_stage"%string, i).
Proof.
  apply (mainFn_goes_on_only_on_wait_or_run_stage (hand_out 1 1 4001 []) connected).
  reflexivity.
Defined.


(** ** Executors on a queue *)

Lemma init_for_queue_ok (h : Host) (options : QueueOptions.t) :
  has_uri_file options ->
  exists uri,
    snd (init_for_queue h options)
    = Ok (mkQueueExecutor
            (Options.mem (QueueOptions.base options))
            (Options.proc (QueueOptions.base options))
            (py_or (QueueOptions.queue_type options) (QueueOptions.queue options))
            (py_or (QueueOptions.queue_name options)
                   (QueueOptions.sge_queue_opts options))
            uri).
Proof.
  intros Huri. unfold init_for_queue. simpl.
  destruct (QueueOptions.urifile options) as [f|] eqn:Ef.
  - eexists. reflexivity.
  - destruct (QueueOptions.pipeline_name options) as [name|] eqn:En.
    + eexists. reflexivity.
    + destruct Huri as [Hu|Hu]; congruence.
Qed.

Lemma commands_app (a b : list submit_event) :
  commands (a ++ b) = commands a ++ commands b.
Proof.
  induction a as [|e a IH]; simpl; [reflexivity|].
  destruct e; simpl; rewrite IH; reflexivity.
Qed.

Lemma commands_of_warnings (h : Host) (options : QueueOptions.t) :
  commands (fst (init_for_queue h options)) = [].
Proof.
  unfold init_for_queue. simpl.
  destruct (str_truthy (QueueOptions.queue options));
    destruct (str_truthy (QueueOptions.sge_queue_opts options)); reflexivity.
Qed.



(** X25. Options with the deprecated --queue sge and a --queue-type that is
    given but is neither "sge" nor "pbs" reach the sge branch of the
    program, and there the first turn of the loop leaves through
    sys.exit() without a single command for sge_batch: the executor takes
    its queue type from --queue-type first. *)
Theorem queue_type_overrides_deprecated_queue
    (h : Host) (options : QueueOptions.t) (m : Moment) (rest : list Moment) :
  Options.local (QueueOptions.base options) = false ->
  QueueOptions.queue options = Some "sge"%string ->
  str_truthy (QueueOptions.queue_type options) = true ->
  str_is (QueueOptions.queue_type options) "sge" = false ->
  str_is (QueueOptions.queue_type options) "pbs" = false ->
  has_uri_file options ->
  branch_of options = SubmitSge
  /\ snd (submit_each h (m :: rest) options) = Raised (SystemExit None)
  /\ commands (fst (submit_each h (m :: rest) options)) = [].
Proof.
  intros Hlocal Hq Htruthy Hsge Hpbs Huri.
  split.
  - unfold branch_of. rewrite Hlocal, Hq, Hpbs. reflexivity.
  - cbn [submit_each].
    destruct (init_for_queue_ok h options Huri) as [uri Hinit].
    pose proof (commands_of_warnings h options) as Hw.
    destruct (init_for_queue h options) as [warnings r]. simpl in Hinit, Hw.
    subst r. unfold submitToQueue. cbn [qe_queue_type].
    unfold py_or. rewrite Htruthy, Hsge. cbn [fst snd].
    split; [reflexivity|].
    rewrite commands_app, Hw. reflexivity.
Qed.

Lemma queue_type_overrides_deprecated_queue_witness :
  branch_of conflicting_queue_options = SubmitSge
  /\ snd (submit_each plain_host two_moments conflicting_queue_options)
     = Raised (SystemExit None)
  /\ commands (fst (submit_each plain_host two_moments conflicting_queue_options)) = [].
Proof.
  apply (queue_type_overrides_deprecated_queue plain_host conflicting_queue_options
           (mkMoment "t1" "/home" ["pipeline_executor.py"%string] (Ok 0))
           [mkMoment "t2" "/home" ["pipeline_executor.py"%string] (Ok 0)]).
  - reflexivity.
  - reflexivity.
  - reflexivity.
  - reflexivity.
  - reflexivity.
  - right. simpl. discriminate.
Defined.

(** X26. With --proc 0 and the queue type "sge", the first turn of the loop
    ends in ZeroDivisionError at the division of the memory by the number
    of processors, before any command is handed to sge_batch. *)
Theorem submit_with_zero_procs_divides_by_zero
    (h : Host) (options : QueueOptions.t) (m : Moment) (rest : list Moment) :
  str_is (py_or (QueueOptions.queue_type options) (QueueOptions.queue options)) "sge"
    = true ->
  Options.proc (QueueOptions.base options) = 0 ->
  has_uri_file options ->
  snd (submit_each h (m :: rest) options) = ZeroDivisionError
  /\ commands (fst (submit_each h (m :: rest) options)) = [].
Proof.
  intros Hsge Hproc Huri. cbn [submit_each].
  destruct (init_for_queue_ok h options Huri) as [uri Hinit].
  pose proof (commands_of_warnings h options) as Hw.
  destruct (init_for_queue h options) as [warnings r]. simpl in Hinit, Hw.
  subst r. unfold submitToQueue. cbn [qe_queue_type qe_procs].
  rewrite Hsge, Hproc. cbn [Z.eqb fst snd].
  split; [reflexivity|].
  rewrite commands_app, Hw. reflexivity.
Qed.

Lemma submit_with_zero_procs_divides_by_zero_witness :
  snd (submit_each plain_host two_moments (sge_options 0)) = ZeroDivisionError
  /\ commands (fst (submit_each plain_host two_moments (sge_options 0))) = [].
Proof.
  apply (submit_with_zero_procs_divides_by_zero plain_host (sge_options 0)
           (mkMoment "t1" "/home" ["pipeline_executor.py"%string] (Ok 0))
           [mkMoment "t2" "/home" ["pipeline_executor.py"%string] (Ok 0)]).
  - reflexivity.
  - reflexivity.
  - right. simpl. discriminate.
Defined.
